(** * The arena layer of mimalloc ([src/arena.c]): a shallow embedding

    Arenas are fixed areas of OS memory from which large blocks are
    allocated through a bitmap.  This development embeds the functions of
    [src/arena.c] as executable Rocq functions and proves the properties
    the design document states about them.

    Conventions.
    - [size_t], [uintptr_t] and [mi_bitmap_index_t] are 64-bit unsigned
      integers; they are modelled as [Z] with the wrap-around written out
      ([wrap]).  [int] values are modelled as [Z].
    - Pointers are addresses in [Z]; [NULL] is [0].
    - [mi_assert_internal] expands to nothing, as in a release build; what
      an assertion states is a hypothesis of the properties that need it.
    - The model is sequential: the atomic operations of the source are
      modelled by their effect when no other thread interferes.
    - The operating system, the option table and the message sinks are
      external.  Every call to them is recorded in a trace of events, and
      what the operating system answers is given by oracles that may depend
      on the whole history of events.
    - The bitmaps of an arena are lists of words.  The source points
      [blocks_dirty] at [&blocks_map[bcount]], which lies behind the storage
      it asked for as soon as an area has three blocks; the words found
      there are given by an oracle too. *)

From Stdlib Require Import ZArith Lia List Bool.
From stdpp Require Import base list.

Set Default Proof Using "Type".
Local Open Scope Z_scope.

(** ** Machine integers *)

Definition MI_INTPTR_BITS : Z := 64.
Definition SIZE_MODULUS : Z := 2 ^ MI_INTPTR_BITS.

(** Reduction of a mathematical integer to a [size_t]. *)
Definition wrap (x : Z) : Z := x mod SIZE_MODULUS.

(** [a << n] and [a >> n] on [size_t], for a shift below the width. *)
Definition shl (a n : Z) : Z := wrap (Z.shiftl a n).
Definition shr (a n : Z) : Z := Z.shiftr a n.

Definition is_size_t (x : Z) : Prop := 0 <= x < SIZE_MODULUS.

(** ** Constants of [arena.c]

    [MI_SEGMENT_SIZE] comes from [mimalloc-types.h] and
    [MI_BITMAP_FIELD_BITS] from [bitmap.inc.c], neither of which is among
    the sources.  Their values are fixed by the comments of [arena.c]
    itself: a block of [8*MI_SEGMENT_ALIGN] is 32MiB, the largest object of
    [MI_BITMAP_FIELD_BITS] blocks is 2GiB. *)

(** Modelled from the spec: [MI_SEGMENT_SIZE] of [mimalloc-types.h], 4MiB,
    so that [MI_ARENA_BLOCK_SIZE] is the 32MiB of the source's comment. *)
Definition MI_SEGMENT_SIZE : Z := 4 * 1024 * 1024.

(** Modelled from the spec: [MI_BITMAP_FIELD_BITS] of [bitmap.inc.c], the
    number of bits of one machine word. *)
Definition MI_BITMAP_FIELD_BITS : Z := MI_INTPTR_BITS.

Definition MI_SEGMENT_ALIGN : Z := MI_SEGMENT_SIZE.
Definition MI_ARENA_BLOCK_SIZE : Z := 8 * MI_SEGMENT_ALIGN.
Definition MI_ARENA_MAX_OBJ_SIZE : Z := MI_BITMAP_FIELD_BITS * MI_ARENA_BLOCK_SIZE.
Definition MI_ARENA_MIN_OBJ_SIZE : Z := MI_ARENA_BLOCK_SIZE / 2.
Definition MI_MAX_ARENAS : Z := 64.
Definition MI_MEMID_OS : Z := 0.
Definition ENOMEM : Z := 12.

(** ** Memory ids

    The lower 8 bits hold the arena index plus one, the upper bits the
    bitmap index. *)

Definition mi_memid_create (arena_index bitmap_index : Z) : Z :=
  Z.lor (shl bitmap_index 8) (Z.land (wrap (arena_index + 1)) 255).

(** The two out-parameters are returned as a pair
    [(arena_index, bitmap_index)]. *)
Definition mi_memid_indices (memid : Z) : Z * Z :=
  (wrap (Z.land memid 255 - 1), shr memid 8).

(** ** The bitmap primitive

    [bitmap.inc.c] is included by [arena.c] but is not among the sources.
    The design document describes it as a per-field claim, try-claim and
    unclaim of a contiguous run of bits, which reports whether the run was
    all zero (claim) or all one (unclaim) before.  A bitmap is a list of
    fields, each a [uintptr_t]; a bitmap index combines a field index and a
    bit index inside the field. *)

Abbreviation mi_bitmap_field_t := Z (only parsing).
Abbreviation mi_bitmap_t := (list Z) (only parsing).

(** Modelled from the spec: [mi_bitmap_index_create] of [bitmap.inc.c],
    the bitmap position of bit [bitidx] of field [idx]. *)
Definition mi_bitmap_index_create (idx bitidx : Z) : Z :=
  wrap (idx * MI_BITMAP_FIELD_BITS + bitidx).

(** Modelled from the spec: [mi_bitmap_index_field] of [bitmap.inc.c], the
    field index of a bitmap position. *)
Definition mi_bitmap_index_field (bitmap_idx : Z) : Z :=
  bitmap_idx / MI_BITMAP_FIELD_BITS.

(** Modelled from the spec: [mi_bitmap_index_bit_in_field] of
    [bitmap.inc.c], the bit offset inside the field. *)
Definition mi_bitmap_index_bit_in_field (bitmap_idx : Z) : Z :=
  bitmap_idx mod MI_BITMAP_FIELD_BITS.

(** Modelled from the spec: [mi_bitmap_index_bit] of [bitmap.inc.c], the
    position as a bit (block) number of the arena. *)
Definition mi_bitmap_index_bit (bitmap_idx : Z) : Z := bitmap_idx.

(** Modelled from the spec: the mask of a run of [count] bits that starts
    at bit [bitidx] of a field; a run never leaves its field. *)
Definition mi_bitmap_mask_ (count bitidx : Z) : Z :=
  wrap (Z.shiftl (Z.ones count) bitidx).

(** Modelled from the spec: the search of [mi_bitmap_try_claim_field] for
    the lowest bit index from [bitidx] on at which the bits of [mask] are
    all free in [map]; [n] bounds the positions tried. *)
Fixpoint mi_bitmap_find_run (n : nat) (map mask bitidx : Z) : option Z :=
  match n with
  | O => None
  | S n' =>
      if Z.land map (Z.shiftl mask bitidx) =? 0 then Some bitidx
      else mi_bitmap_find_run n' map mask (bitidx + 1)
  end.

(** Modelled from the spec: [mi_bitmap_try_claim_field] of [bitmap.inc.c].
    It looks for [count] contiguous free bits inside field [idx]; when it
    finds them it sets them and returns the bitmap position, otherwise it
    fails and leaves the bitmap as it is.  The result is the new bitmap
    with the position. *)
Definition mi_bitmap_try_claim_field (bitmap : mi_bitmap_t) (idx count : Z)
  : option (mi_bitmap_t * Z) :=
  match bitmap !! Z.to_nat idx with
  | None => None
  | Some map =>
      let mask := mi_bitmap_mask_ count 0 in
      match mi_bitmap_find_run (Z.to_nat (MI_BITMAP_FIELD_BITS - count + 1))
                               map mask 0 with
      | None => None
      | Some bitidx =>
          Some (<[Z.to_nat idx := Z.lor map (Z.shiftl mask bitidx)]> bitmap,
                mi_bitmap_index_create idx bitidx)
      end
  end.

(** Modelled from the spec: [mi_bitmap_unclaim] of [bitmap.inc.c].  It
    clears [count] bits at [bitmap_idx] and reports whether all of them
    were set before. *)
Definition mi_bitmap_unclaim (bitmap : mi_bitmap_t)
    (bitmap_fields count bitmap_idx : Z) : mi_bitmap_t * bool :=
  let idx := mi_bitmap_index_field bitmap_idx in
  let bitidx := mi_bitmap_index_bit_in_field bitmap_idx in
  let mask := mi_bitmap_mask_ count bitidx in
  match bitmap !! Z.to_nat idx with
  | None => (bitmap, false)
  | Some prev =>
      (<[Z.to_nat idx := Z.ldiff prev mask]> bitmap, Z.land prev mask =? mask)
  end.

(** Modelled from the spec: [mi_bitmap_claim] of [bitmap.inc.c].  It sets
    [count] bits at [bitmap_idx] and reports whether all of them were clear
    before.  [arena.c] always passes [NULL] for its last parameter. *)
Definition mi_bitmap_claim (bitmap : mi_bitmap_t)
    (bitmap_fields count bitmap_idx : Z) : mi_bitmap_t * bool :=
  let idx := mi_bitmap_index_field bitmap_idx in
  let bitidx := mi_bitmap_index_bit_in_field bitmap_idx in
  let mask := mi_bitmap_mask_ count bitidx in
  match bitmap !! Z.to_nat idx with
  | None => (bitmap, false)
  | Some prev =>
      (<[Z.to_nat idx := Z.lor prev mask]> bitmap, Z.land prev mask =? 0)
  end.

(** Bit [i] of a bitmap, counted over all fields. *)
Definition mi_bitmap_bit (bitmap : mi_bitmap_t) (i : Z) : bool :=
  match bitmap !! Z.to_nat (i / MI_BITMAP_FIELD_BITS) with
  | None => false
  | Some f => Z.testbit f (i mod MI_BITMAP_FIELD_BITS)
  end.

(** Modelled from the spec: [_mi_divide_up] of [mimalloc-internal.h],
    division rounding up. *)
Definition _mi_divide_up (size divider : Z) : Z :=
  (size + divider - 1) / divider.

Definition mi_block_count_of_size (size : Z) : Z :=
  _mi_divide_up size MI_ARENA_BLOCK_SIZE.

(** ** Arena descriptors, the registry and the outside world *)

(** A memory arena descriptor.  The two bitmaps follow the descriptor in
    memory; here each is a list of [field_count] fields of its own.  (The
    source lets [blocks_dirty] point to [&blocks_map[bcount]], which is at
    or beyond the [field_count] fields of the in-use bitmap, so that the
    two bitmaps do not overlap; where in memory the dirty bitmap lies is
    not modelled.) *)
Record mi_arena_t : Type := mk_arena {
  start : Z;
  block_count : Z;
  field_count : Z;
  numa_node : Z;
  is_zero_init : bool;
  is_large : bool;
  search_idx : Z;
  blocks_dirty : mi_bitmap_t;
  blocks_map : mi_bitmap_t
}.

Definition set_search_idx (idx : Z) (a : mi_arena_t) : mi_arena_t :=
  mk_arena (start a) (block_count a) (field_count a) (numa_node a)
           (is_zero_init a) (is_large a) idx (blocks_dirty a) (blocks_map a).

Definition set_blocks_map (bm : mi_bitmap_t) (a : mi_arena_t) : mi_arena_t :=
  mk_arena (start a) (block_count a) (field_count a) (numa_node a)
           (is_zero_init a) (is_large a) (search_idx a) (blocks_dirty a) bm.

Definition set_blocks_dirty (bm : mi_bitmap_t) (a : mi_arena_t) : mi_arena_t :=
  mk_arena (start a) (block_count a) (field_count a) (numa_node a)
           (is_zero_init a) (is_large a) (search_idx a) bm (blocks_map a).

(** The messages [arena.c] sends to the diagnostic sinks. *)
Inductive fatal_message : Type :=
| Fatal_non_existent_arena (p size memid : Z)
| Fatal_non_existent_arena_block (p size memid : Z)
| Fatal_already_freed_block (p size : Z).

Inductive event : Type :=
| Ev_os_alloc_aligned (size alignment : Z) (commit large : bool)
| Ev_os_free (p size : Z)
| Ev_os_alloc_huge_os_pages (pages numa_node max_msecs : Z)
| Ev_os_free_huge_pages (p size : Z)
| Ev_os_alloc (size : Z)
| Ev_os_numa_node
| Ev_fatal_error (m : fatal_message)
| Ev_warning_failed_to_reserve (pages : Z)
| Ev_verbose_reserved (pages_reserved : Z).

(** The state of the program: the registry [mi_arenas] with its counter
    [mi_arena_count], and the calls made to the outside so far, oldest
    first.  A slot of the registry holds the descriptor its pointer refers
    to, [None] for [NULL]. *)
Record world : Type := mk_world {
  mi_arenas : list (option mi_arena_t);
  mi_arena_count : Z;
  trace : list event
}.

Definition set_mi_arenas (l : list (option mi_arena_t)) (w : world) : world :=
  mk_world l (mi_arena_count w) (trace w).

Definition set_mi_arena_count (c : Z) (w : world) : world :=
  mk_world (mi_arenas w) c (trace w).

Definition add_event (e : event) (w : world) : world :=
  mk_world (mi_arenas w) (mi_arena_count w) (trace w ++ [e]).

(** The registry before any arena is added. *)
Definition initial_world : world :=
  mk_world (replicate (Z.to_nat MI_MAX_ARENAS) None) 0 [].

(** The in/out flags and the memory id, which the source passes by
    pointer. *)
Record outs : Type := mk_outs {
  o_commit : bool;
  o_large : bool;
  o_is_zero : bool;
  o_memid : Z
}.

(** A computation on the state. *)
Definition M (A : Type) : Type := world -> A * world.

Definition ret {A : Type} (a : A) : M A := fun w => (a, w).

Definition bind {A B : Type} (c : M A) (k : A -> M B) : M B :=
  fun w => let (a, w') := c w in k a w'.

Notation "'call' x <- c ; k" := (bind c (fun x => k))
  (at level 10, x pattern, c at level 100, k at level 200).
Notation "'exec' c ; k" := (bind c (fun _ => k))
  (at level 10, c at level 100, k at level 200).

Definition emit (e : event) : M unit := fun w => (tt, add_event e w).

(** The events a computation added to the trace. *)
Definition events_since (w w' : world) : list event :=
  drop (length (trace w)) (trace w').

(** ** Thread safe allocation in an arena *)

(** The loop of [mi_arena_alloc]: [n] counts the iterations that remain
    ([fcount - visited]), [idx] is the field to try next. *)
Fixpoint mi_arena_alloc_loop (n : nat) (arena : mi_arena_t)
    (fcount blocks idx : Z) : mi_arena_t * option Z :=
  match n with
  | O => (arena, None)
  | S n' =>
      let idx := if fcount <=? idx then 0 else idx in
      match mi_bitmap_try_claim_field (blocks_map arena) idx blocks with
      | Some (bm, bitmap_idx) =>
          (set_search_idx idx (set_blocks_map bm arena), Some bitmap_idx)
      | None => mi_arena_alloc_loop n' arena fcount blocks (wrap (idx + 1))
      end
  end.

(** [mi_arena_alloc] returns the arena as the call leaves it, and the
    claimed bitmap position when the call returns [true]. *)
Definition mi_arena_alloc (arena : mi_arena_t) (blocks : Z)
  : mi_arena_t * option Z :=
  let fcount := field_count arena in
  let idx := search_idx arena in
  mi_arena_alloc_loop (Z.to_nat fcount) arena fcount blocks idx.

(** ** Arena allocation *)

(** [mi_arena_alloc_from] returns the arena and the flags as the call
    leaves them, and the pointer ([0] for [NULL]). *)
Definition mi_arena_alloc_from (arena : mi_arena_t)
    (arena_index needed_bcount : Z) (o : outs) : mi_arena_t * outs * Z :=
  match mi_arena_alloc arena needed_bcount with
  | (arena1, Some bitmap_index) =>
      let '(dirty, zero) :=
        mi_bitmap_claim (blocks_dirty arena1) (field_count arena1)
                        needed_bcount bitmap_index in
      (set_blocks_dirty dirty arena1,
       mk_outs true (is_large arena1) zero
               (mi_memid_create arena_index bitmap_index),
       wrap (start arena1
             + mi_bitmap_index_bit bitmap_index * MI_ARENA_BLOCK_SIZE))
  | (arena1, None) => (arena1, o, 0)
  end.

Section Arena.

(** What the collaborators answer.  Each oracle sees the calls made so
    far; the answers are reduced to the range of their C type where they
    are read. *)
Variable os_numa_node_count : Z.
Variable os_numa_node : list event -> Z.
Variable os_alloc_aligned :
  list event -> Z -> Z -> bool -> bool -> Z * bool.
Variable os_alloc : list event -> Z -> Z.
(* The memory behind the block of the last [_mi_os_alloc], which asked for
   the given size: the words that can be accessed there. *)
Variable os_alloc_beyond : list event -> Z -> list Z.
Variable os_alloc_huge_os_pages : list event -> Z -> Z -> Z -> Z * Z * Z.
Variable option_large_os_pages : list event -> bool.

(** A proof depends on the oracles of its statement only. *)
Ltac only_stated_oracles :=
  try clear option_large_os_pages;
  try clear os_alloc_huge_os_pages;
  try clear os_alloc_beyond;
  try clear os_alloc;
  try clear os_alloc_aligned;
  try clear os_numa_node;
  try clear os_numa_node_count.

Definition _mi_os_numa_node_count : Z := os_numa_node_count.

Definition _mi_os_numa_node : M Z :=
  fun w => (os_numa_node (trace w), add_event Ev_os_numa_node w).

(** [_mi_os_alloc_aligned] returns the pointer and the value it leaves in
    [*large]. *)
Definition _mi_os_alloc_aligned (size alignment : Z) (commit large : bool)
  : M (Z * bool) :=
  fun w =>
    let '(p, large') := os_alloc_aligned (trace w) size alignment commit large in
    ((wrap p, large'), add_event (Ev_os_alloc_aligned size alignment commit large) w).

Definition _mi_os_free (p size : Z) : M unit := emit (Ev_os_free p size).

Definition _mi_os_alloc (size : Z) : M Z :=
  fun w => (wrap (os_alloc (trace w) size), add_event (Ev_os_alloc size) w).

(** The words that lie in memory behind the [size] bytes of the block that
    the last call of [_mi_os_alloc] returned, as far as they can be
    accessed (the OS hands out whole pages).  The source never asks for
    them; it reaches them through [blocks_dirty]. *)
Definition memory_beyond_os_alloc (size : Z) : M (list Z) :=
  fun w => (os_alloc_beyond (trace w) size, w).

(** [_mi_os_alloc_huge_os_pages] returns the pointer with the values it
    leaves in [*pages_reserved] and [*psize]. *)
Definition _mi_os_alloc_huge_os_pages (pages numa_node max_msecs : Z)
  : M (Z * Z * Z) :=
  fun w =>
    let '(p, pages_reserved, psize) :=
      os_alloc_huge_os_pages (trace w) pages numa_node max_msecs in
    ((wrap p, wrap pages_reserved, wrap psize),
     add_event (Ev_os_alloc_huge_os_pages pages numa_node max_msecs) w).

Definition _mi_os_free_huge_pages (p size : Z) : M unit :=
  emit (Ev_os_free_huge_pages p size).

Definition _mi_fatal_error (m : fatal_message) : M unit :=
  emit (Ev_fatal_error m).

Definition mi_option_is_enabled_large_os_pages : M bool :=
  fun w => (option_large_os_pages (trace w), w).

(** The gate of [_mi_arena_alloc_aligned]. *)
Definition mi_arena_eligible (size alignment : Z) : bool :=
  (alignment <=? MI_SEGMENT_ALIGN)
  && (size <=? MI_ARENA_MAX_OBJ_SIZE)
  && (MI_ARENA_MIN_OBJ_SIZE <=? size).

(** The condition under which the first loop over the registry tries an
    arena ([numa_local = true]), and the one of the second loop. *)
Definition mi_arena_suitable (numa_local : bool) (arena : mi_arena_t)
    (node : Z) (large : bool) : bool :=
  (if numa_local
   then (numa_node arena <? 0) || (numa_node arena =? node)
   else (0 <=? numa_node arena) && negb (numa_node arena =? node))
  && (large || negb (is_large arena)).

(** One of the two loops over the registry: [n] counts the slots that
    remain ([MI_MAX_ARENAS - i]).  The result is the pointer when the loop
    returns one, and the flags as the loop leaves them. *)
Fixpoint mi_arena_scan (numa_local : bool) (n : nat) (i bcount node : Z)
    (o : outs) : M (option Z * outs) :=
  match n with
  | O => ret (None, o)
  | S n' => fun w =>
      match mi_arenas w !! Z.to_nat i with
      | Some (Some arena) =>
          if mi_arena_suitable numa_local arena node (o_large o) then
            let '(arena', o', p) := mi_arena_alloc_from arena i bcount o in
            let w' := set_mi_arenas (<[Z.to_nat i := Some arena']> (mi_arenas w)) w in
            if negb (p =? 0) then (Some p, o', w')
            else mi_arena_scan numa_local n' (i + 1) bcount node o' w'
          else mi_arena_scan numa_local n' (i + 1) bcount node o w
      | _ => (None, o, w)
      end
  end.

(** The part of [_mi_arena_alloc_aligned] that tries the arenas. *)
Definition mi_arena_try_arenas (size alignment : Z) (o : outs)
  : M (option Z * outs) :=
  if mi_arena_eligible size alignment then
    let bcount := mi_block_count_of_size size in
    call node <- _mi_os_numa_node;
    call r <- mi_arena_scan true (Z.to_nat MI_MAX_ARENAS) 0 bcount node o;
    match r with
    | (Some p, o1) => ret (Some p, o1)
    | (None, o1) =>
        mi_arena_scan false (Z.to_nat MI_MAX_ARENAS) 0 bcount node o1
    end
  else ret (None, o).

(** The last part of [_mi_arena_alloc_aligned]: fall back to the OS. *)
Definition mi_arena_os_fallback (size alignment : Z) (o : outs)
  : M (Z * outs) :=
  let o1 := mk_outs (o_commit o) (o_large o) true MI_MEMID_OS in
  call large <-
    (if o_large o1 then mi_option_is_enabled_large_os_pages
     else ret (o_large o1));
  call r <- _mi_os_alloc_aligned size alignment (o_commit o1) large;
  ret (fst r, mk_outs (o_commit o1) (snd r) (o_is_zero o1) (o_memid o1)).

(** [large] is [None] when the caller passes [NULL]; the flag of the result
    is then the local [default_large]. *)
Definition _mi_arena_alloc_aligned (size alignment : Z) (commit : bool)
    (large : option bool) : M (Z * outs) :=
  let o := mk_outs commit (default false large) false MI_MEMID_OS in
  call r <- mi_arena_try_arenas size alignment o;
  match r with
  | (Some p, o1) => ret (p, o1)
  | (None, o1) => mi_arena_os_fallback size alignment o1
  end.

Definition _mi_arena_alloc (size : Z) (commit : bool) (large : option bool)
  : M (Z * outs) :=
  _mi_arena_alloc_aligned size MI_ARENA_BLOCK_SIZE commit large.

(** ** Arena free *)

(** How a call of [_mi_arena_free] ends.  The source indexes [mi_arenas]
    with the decoded arena index after an assertion only, which a release
    build compiles to nothing: a read past the 64 slots of the array is
    kept apart here as [Free_out_of_bounds_read]. *)
Inductive free_status : Type :=
| Free_returned
| Free_out_of_bounds_read (arena_idx : Z).

Definition _mi_arena_free (p size memid : Z) : M free_status :=
  if p =? 0 then ret Free_returned
  else if size =? 0 then ret Free_returned
  else if memid =? MI_MEMID_OS then
    exec _mi_os_free p size;
    ret Free_returned
  else
    let '(arena_idx, bitmap_idx) := mi_memid_indices memid in
    if MI_MAX_ARENAS <=? arena_idx then ret (Free_out_of_bounds_read arena_idx)
    else fun w =>
      match mi_arenas w !! Z.to_nat arena_idx with
      | Some (Some arena) =>
          if field_count arena <=? mi_bitmap_index_field bitmap_idx then
            (exec _mi_fatal_error
                    (Fatal_non_existent_arena_block p size memid);
             ret Free_returned) w
          else
            let blocks := mi_block_count_of_size size in
            let '(bm, ones) :=
              mi_bitmap_unclaim (blocks_map arena) (field_count arena)
                                blocks bitmap_idx in
            let w' :=
              set_mi_arenas (<[Z.to_nat arena_idx :=
                                 Some (set_blocks_map bm arena)]> (mi_arenas w)) w in
            if negb ones then
              (exec _mi_fatal_error (Fatal_already_freed_block p size);
               ret Free_returned) w'
            else (Free_returned, w')
      | _ =>
          (exec _mi_fatal_error (Fatal_non_existent_arena p size memid);
           ret Free_returned) w
      end.

(** ** Add an arena *)

(** Modelled from the spec: [mi_atomic_addu] of [mimalloc-atomic.h], an
    atomic add on [mi_arena_count] that returns the value before the
    addition, so that the first arena gets slot [0] and the slots in use
    are contiguous from index [0], as the loops of
    [_mi_arena_alloc_aligned] need them: they start at slot [0] and stop at
    the first empty slot. *)
Definition mi_atomic_addu_arena_count (add : Z) : M Z :=
  fun w => (mi_arena_count w,
            set_mi_arena_count (wrap (mi_arena_count w + add)) w).

(** Modelled from the spec: [mi_atomic_subu] of [mimalloc-atomic.h], the
    atomic subtraction that rolls the reservation back. *)
Definition mi_atomic_subu_arena_count (sub : Z) : M Z :=
  fun w => (mi_arena_count w,
            set_mi_arena_count (wrap (mi_arena_count w - sub)) w).

Definition mi_arena_add (arena : mi_arena_t) : M bool :=
  call i <- mi_atomic_addu_arena_count 1;
  if MI_MAX_ARENAS <=? i then
    exec mi_atomic_subu_arena_count 1;
    ret false
  else
    fun w => (true, set_mi_arenas (<[Z.to_nat i := Some arena]> (mi_arenas w)) w).

(** ** Reserve a huge page arena *)

(** [sizeof(mi_arena_t)] and [sizeof(mi_bitmap_field_t)] on a 64-bit
    target.  [blocks_map[1]] is the last member of [mi_arena_t], at byte
    [48] of its [56]. *)
Definition sizeof_mi_arena_t : Z := 56.
Definition sizeof_mi_bitmap_field_t : Z := 8.

(** The words of the descriptor storage from [blocks_map] on, when the
    storage is the [sizeof(mi_arena_t) + 2*fields*sizeof(mi_bitmap_field_t)]
    bytes asked of [_mi_os_alloc]: [blocks_map[1]] and [2*fields] more. *)
Definition mi_huge_arena_storage_fields (fields : Z) : Z := 1 + 2 * fields.

(** The descriptor [mi_reserve_huge_os_pages_at] builds in the storage it
    got from [_mi_os_alloc] (which is zero initialized) for a reserved area
    at [p] of [hsize] bytes.

    The in-use bitmap is the first [fields] words of [blocks_map].  The
    source sets [blocks_dirty] to [&arena->blocks_map[bcount]]: the dirty
    bitmap is the [fields] words of memory from word [bcount] of
    [blocks_map] on.  The storage ends after
    [mi_huge_arena_storage_fields fields] words; [beyond] are the words
    that lie behind it and can be accessed, so the dirty bitmap is shorter
    than [fields] where the memory it points to cannot be accessed. *)
Definition mi_huge_arena_init (p hsize node : Z) (beyond : list Z)
  : mi_arena_t :=
  let bcount := mi_block_count_of_size hsize in
  let fields := wrap (bcount + MI_BITMAP_FIELD_BITS - 1) / MI_BITMAP_FIELD_BITS in
  let zeros := replicate (Z.to_nat fields) 0 in
  let post := wrap (fields * MI_BITMAP_FIELD_BITS - bcount) in
  let map :=
    if 0 <? post then
      let postidx :=
        mi_bitmap_index_create (wrap (fields - 1))
                               (wrap (MI_BITMAP_FIELD_BITS - post)) in
      fst (mi_bitmap_claim zeros fields post postidx)
    else zeros in
  let memory :=
    map ++ replicate (Z.to_nat (mi_huge_arena_storage_fields fields - fields)) 0
        ++ beyond in
  let dirty := take (Z.to_nat fields) (drop (Z.to_nat bcount) memory) in
  mk_arena p bcount fields node true true 0 dirty map.

(** The size asked of [_mi_os_alloc] for the descriptor. *)
Definition mi_huge_arena_asize (hsize : Z) : Z :=
  let bcount := mi_block_count_of_size hsize in
  let fields := wrap (bcount + MI_BITMAP_FIELD_BITS - 1) / MI_BITMAP_FIELD_BITS in
  wrap (sizeof_mi_arena_t + wrap (wrap (2 * fields) * sizeof_mi_bitmap_field_t)).

(** [numa_node % _mi_os_numa_node_count()] is a remainder of [int]s; the
    source divides by zero there when [_mi_os_numa_node_count()] is [0] and
    [numa_node] is not negative, which [Z.rem] does not show: what is
    proved of such a call assumes a count other than [0]. *)
Definition mi_reserve_huge_os_pages_at (pages node timeout_msecs : Z) : M Z :=
  if pages =? 0 then ret 0
  else
    let node := if node <? -1 then -1 else node in
    let node := if 0 <=? node then Z.rem node _mi_os_numa_node_count else node in
    call r <- _mi_os_alloc_huge_os_pages pages node timeout_msecs;
    let '(p, pages_reserved, hsize) := r in
    if (p =? 0) || (pages_reserved =? 0) then
      exec emit (Ev_warning_failed_to_reserve pages);
      ret ENOMEM
    else
      exec emit (Ev_verbose_reserved pages_reserved);
      call arena <- _mi_os_alloc (mi_huge_arena_asize hsize);
      if arena =? 0 then
        exec _mi_os_free_huge_pages p hsize;
        ret ENOMEM
      else
        call beyond <- memory_beyond_os_alloc (mi_huge_arena_asize hsize);
        exec mi_arena_add (mi_huge_arena_init p hsize node beyond);
        ret 0.

(** The loop of [mi_reserve_huge_os_pages_interleave]: [n] counts the
    nodes that remain ([numa_count - numa_node]). *)
Fixpoint mi_reserve_interleave_loop (n : nat)
    (numa_count pages_per pages_mod timeout_per : Z)
    (node pages : Z) : M Z :=
  match n with
  | O => ret 0
  | S n' =>
      if (node <? numa_count) && (0 <? pages) then
        let node_pages :=
          if node <? pages_mod then wrap (pages_per + 1) else pages_per in
        call err <- mi_reserve_huge_os_pages_at node_pages node timeout_per;
        if negb (err =? 0) then ret err
        else
          let pages := if pages <? node_pages then 0 else pages - node_pages in
          mi_reserve_interleave_loop n' numa_count pages_per pages_mod
                                     timeout_per (node + 1) pages
      else ret 0
  end.

Definition mi_reserve_huge_os_pages_interleave (pages timeout_msecs : Z) : M Z :=
  if pages =? 0 then ret 0
  else
    let numa_count := _mi_os_numa_node_count in
    let numa_count := if numa_count <=? 0 then 1 else numa_count in
    let pages_per := pages / numa_count in
    let pages_mod := pages mod numa_count in
    let timeout_per := wrap (timeout_msecs / numa_count + 50) in
    mi_reserve_interleave_loop (Z.to_nat numa_count) numa_count pages_per
                               pages_mod timeout_per 0 pages.

(** ** The vocabulary of the properties *)

Definition slot_published (w : world) (i : nat) : Prop :=
  exists a, mi_arenas w !! i = Some (Some a).

(** The registry has [MI_MAX_ARENAS] slots, and the slots in use are
    exactly those below [mi_arena_count]. *)
Definition registry_inv (w : world) : Prop :=
  length (mi_arenas w) = Z.to_nat MI_MAX_ARENAS
  /\ 0 <= mi_arena_count w <= MI_MAX_ARENAS
  /\ forall i : nat, Z.of_nat i < mi_arena_count w <-> slot_published w i.

(** Some bit of the run of [count] bits at [bitmap_idx], inside the field
    of [bitmap_idx], is clear in the bitmap. *)
Definition run_has_clear_bit (bitmap : mi_bitmap_t) (count bitmap_idx : Z) : Prop :=
  exists i, bitmap_idx <= i < bitmap_idx + count
            /\ mi_bitmap_index_field i = mi_bitmap_index_field bitmap_idx
            /\ mi_bitmap_bit bitmap i = false.

(** The NUMA node [mi_reserve_huge_os_pages_at] passes to the OS. *)
Definition reserve_node (node : Z) : Z :=
  let node := if node <? -1 then -1 else node in
  if 0 <=? node then Z.rem node _mi_os_numa_node_count else node.

(** The field the scan starts from: [search_idx], or [0] when it is not
    below [field_count]. *)
Definition scan_norm (fcount idx : Z) : Z := if fcount <=? idx then 0 else idx.

Definition scan_start (arena : mi_arena_t) : Z :=
  scan_norm (field_count arena) (search_idx arena).

(** The fields in the order of the scan: [field_count] fields from
    [scan_start] on, modulo [field_count]. *)
Definition scan_order (arena : mi_arena_t) : list Z :=
  (fun k => (scan_start arena + k) mod field_count arena)
    <$> seqZ 0 (field_count arena).

(** The first field of a list on which the try-claim succeeds. *)
Fixpoint first_claim (arena : mi_arena_t) (blocks : Z) (order : list Z)
  : mi_arena_t * option Z :=
  match order with
  | [] => (arena, None)
  | idx :: rest =>
      match mi_bitmap_try_claim_field (blocks_map arena) idx blocks with
      | Some (bm, bitmap_idx) =>
          (set_search_idx idx (set_blocks_map bm arena), Some bitmap_idx)
      | None => first_claim arena blocks rest
      end
  end.

(** The pages node [i] is asked for when [pages] pages are spread over
    [count] nodes. *)
Definition node_share (pages count i : Z) : Z :=
  pages / count + (if i <? pages mod count then 1 else 0).

Definition sum_Z (l : list Z) : Z := foldr Z.add 0 l.

(** Calls of [mi_reserve_huge_os_pages_at] one after the other, for the
    page counts and nodes of a list, up to the first error. *)
Fixpoint reserve_each (requests : list (Z * Z)) (timeout_per : Z) : M Z :=
  match requests with
  | [] => ret 0
  | (node_pages, node) :: rest =>
      call err <- mi_reserve_huge_os_pages_at node_pages node timeout_per;
      if negb (err =? 0) then ret err else reserve_each rest timeout_per
  end.

Definition node_requests (pages count first n : Z) : list (Z * Z) :=
  (fun i => (node_share pages count i, i)) <$> seqZ first n.

(** The flag the fallback passes to the OS for [*large]. *)
Definition fallback_large (large : bool) (history : list event) : bool :=
  if large then option_large_os_pages history else false.


(** The area the bitmap of an arena covers lies in the address space and
    does not start at [NULL]; the unsigned fields are not negative. *)
Definition arena_wf (a : mi_arena_t) : Prop :=
  0 < start a /\ 0 <= field_count a /\ 0 <= search_idx a
  /\ start a + field_count a * MI_BITMAP_FIELD_BITS * MI_ARENA_BLOCK_SIZE
     <= SIZE_MODULUS.

Definition registry_wf (w : world) : Prop :=
  forall (i : nat) (a : mi_arena_t),
    mi_arenas w !! i = Some (Some a) -> arena_wf a.

(** The call went through the fallback: it called [_mi_os_alloc_aligned]. *)
Definition fallback_reached (size alignment : Z) (commit : bool)
    (large : option bool) (w : world) : Prop :=
  exists c l,
    Ev_os_alloc_aligned size alignment c l
      ∈ events_since w (snd (_mi_arena_alloc_aligned size alignment commit large w)).

(** The bits of the in-use bitmap beyond [block_count] are set. *)
Definition trailing_claimed (a : mi_arena_t) : Prop :=
  forall i, block_count a <= i < field_count a * MI_BITMAP_FIELD_BITS ->
            mi_bitmap_bit (blocks_map a) i = true.

(** What the operations on an arena keep true, for an arena that started
    as [a0]. *)
Definition arena_inv (a0 a : mi_arena_t) : Prop :=
  block_count a = block_count a0
  /\ field_count a = field_count a0
  /\ Z.of_nat (length (blocks_map a)) = field_count a
  /\ 0 <= search_idx a
  /\ trailing_claimed a.

(** The counts of a descriptor are those of an area inside the address
    space. *)
Definition arena_counts_ok (a : mi_arena_t) : Prop :=
  0 <= block_count a <= field_count a * MI_BITMAP_FIELD_BITS
  /\ field_count a * MI_BITMAP_FIELD_BITS < SIZE_MODULUS.

(** What a call does to one arena: [mi_arena_alloc_from] asked for
    [blocks] blocks, or [_mi_arena_free] for [blocks] blocks at the
    position [bitmap_idx], which it refuses only when the field of the
    position is not below [field_count]. *)
Inductive arena_op : Type :=
| Op_alloc (blocks : Z)
| Op_free (blocks bitmap_idx : Z).

Definition arena_apply (a : mi_arena_t) (op : arena_op) : mi_arena_t :=
  match op with
  | Op_alloc blocks =>
      fst (fst (mi_arena_alloc_from a 0 blocks
                  (mk_outs false false false MI_MEMID_OS)))
  | Op_free blocks bitmap_idx =>
      if field_count a <=? mi_bitmap_index_field bitmap_idx then a
      else set_blocks_map
             (fst (mi_bitmap_unclaim (blocks_map a) (field_count a)
                                     blocks bitmap_idx)) a
  end.

(** The arena after a sequence of calls, the first of the list first. *)
Definition arena_run (ops : list arena_op) (a : mi_arena_t) : mi_arena_t :=
  foldl arena_apply a ops.

(** The call asks for at least one block, or frees blocks of the area of
    [a0] only. *)
Definition op_inside (a0 : mi_arena_t) (op : arena_op) : Prop :=
  match op with
  | Op_alloc blocks => 1 <= blocks
  | Op_free blocks bitmap_idx =>
      0 <= blocks /\ 0 <= bitmap_idx
      /\ bitmap_idx + blocks <= block_count a0
  end.

(** ** Data for concrete runs

    A machine with two NUMA nodes, whose OS grants every request: huge
    pages of 1GiB at address [0x40000000]. *)

Definition ex_numa_node_count : Z := 2.
Definition ex_os_numa_node (_ : list event) : Z := 0.
Definition ex_os_alloc_aligned (_ : list event) (size alignment : Z)
    (commit large : bool) : Z * bool := (65536, large).
Definition ex_os_alloc (_ : list event) (size : Z) : Z := 8192.
Definition ex_os_alloc_fails (_ : list event) (size : Z) : Z := 0.
(** Behind a descriptor of 72 bytes: the rest of a zeroed page of 4096
    bytes. *)
Definition ex_os_alloc_beyond (_ : list event) (size : Z) : list Z :=
  replicate 503 0.
Definition ex_os_alloc_huge_os_pages (_ : list event)
    (pages node max_msecs : Z) : Z * Z * Z :=
  (1073741824, pages, pages * 1073741824).
Definition ex_option_large_os_pages (_ : list event) : bool := true.

(** An arena of one huge page: 32 blocks in one field, the two first
    blocks in use and the 32 bits beyond the area claimed. *)
Definition ex_arena : mi_arena_t :=
  mk_arena 1073741824 32 1 0 true true 0 [0] [18446744069414584323].

Definition ex_world : world :=
  mk_world (<[0%nat := Some ex_arena]> (replicate 64 None)) 1 [].

(** The scenario of the design document: an arena of two fields and
    requests of 40 blocks.  The first is served from field 0 at bit 0, the
    second does not fit field 0 and is served from field 1, and after the
    first is freed a third is served from field 0 at bit 0 again. *)
Definition ex_two_fields : mi_arena_t :=
  mk_arena 1073741824 128 2 0 true true 0 [0; 0] [0; 0].

(** One huge page is reserved on node 0, a block is allocated from the new
    arena and freed twice: the second free is reported.  [ex_reserved] is
    the state after the reservation. *)
Definition ex_reserved : world :=
  mk_world
    (<[0%nat := Some (mk_arena 1073741824 32 1 0 true true 0 [0]
                               [18446744069414584320])]> (replicate 64 None))
    1 [Ev_os_alloc_huge_os_pages 1 0 100; Ev_verbose_reserved 1; Ev_os_alloc 72].

(** The fields of a descriptor that an allocation reads are in the range of
    their type, and the positions of the bitmap fit a [size_t]. *)
Definition arena_fields_ok (a : mi_arena_t) : Prop :=
  0 <= field_count a
  /\ field_count a * MI_BITMAP_FIELD_BITS < SIZE_MODULUS
  /\ 0 <= search_idx a.

(** Two descriptors agree on the fields that are set when an arena is
    built. *)
Definition same_descriptor (a a' : mi_arena_t) : Prop :=
  start a' = start a /\ block_count a' = block_count a
  /\ field_count a' = field_count a /\ numa_node a' = numa_node a
  /\ is_zero_init a' = is_zero_init a /\ is_large a' = is_large a.

(** The in-use bitmaps of the registry, slot by slot. *)
Definition in_use_bitmaps (w : world) : list (option (list Z)) :=
  (fun slot : option mi_arena_t => blocks_map <$> slot) <$> mi_arenas w.

(** Two slots are both empty, or hold descriptors that agree on the fields
    set when an arena is built. *)
Definition slot_same (s s' : option mi_arena_t) : Prop :=
  match s, s' with
  | Some a, Some a' => same_descriptor a a'
  | None, None => True
  | _, _ => False
  end.

(** No arena was added, removed or moved, and no arena changed where it
    is, how large it is or what kind of memory it holds. *)
Definition registry_same_shape (w w' : world) : Prop :=
  mi_arena_count w' = mi_arena_count w
  /\ Forall2 slot_same (mi_arenas w) (mi_arenas w').

(** The arena is local to [node]: it is bound to no NUMA node or to
    [node], which is the test of the first loop over the registry. *)
Definition numa_local (a : mi_arena_t) (node : Z) : Prop :=
  numa_node a < 0 \/ numa_node a = node.

(** Every arena of the registry starts at a multiple of [MI_SEGMENT_ALIGN],
    as [mi_arena_add] asserts of the arenas it gets. *)
Definition registry_aligned (w : world) : Prop :=
  forall (i : nat) (a : mi_arena_t),
    mi_arenas w !! i = Some (Some a) -> (MI_SEGMENT_ALIGN | start a).

(** What holds of every arena that [mi_reserve_huge_os_pages_at] put into
    the registry, whatever was allocated and freed since. *)
Definition registered_arena_ok (a : mi_arena_t) : Prop :=
  is_large a = true /\ is_zero_init a = true /\ start a <> 0
  /\ 0 <= block_count a
  /\ field_count a = _mi_divide_up (block_count a) MI_BITMAP_FIELD_BITS
  /\ field_count a * MI_BITMAP_FIELD_BITS < SIZE_MODULUS
  /\ Z.of_nat (length (blocks_map a)) = field_count a
  /\ 0 <= search_idx a <= field_count a.

(** Every arena of the registry is as [mi_reserve_huge_os_pages_at] builds
    arenas. *)
Definition registry_ok (w : world) : Prop :=
  forall (i : nat) (a : mi_arena_t),
    mi_arenas w !! i = Some (Some a) -> registered_arena_ok a.

(** One call of a function that [arena.c] exports.  A call of
    [_mi_arena_free] counts when it read no slot past the end of
    [mi_arenas]. *)
Inductive api_step (w : world) : world -> Prop :=
| step_alloc_aligned size alignment commit large :
    api_step w (snd (_mi_arena_alloc_aligned size alignment commit large w))
| step_free p size memid :
    fst (_mi_arena_free p size memid w) = Free_returned ->
    api_step w (snd (_mi_arena_free p size memid w))
| step_reserve_at pages node timeout_msecs :
    api_step w (snd (mi_reserve_huge_os_pages_at pages node timeout_msecs w))
| step_reserve_interleave pages timeout_msecs :
    api_step w (snd (mi_reserve_huge_os_pages_interleave pages timeout_msecs w)).

(** The states of the registry that calls of the exported functions reach
    from the state before any arena is added. *)
Inductive api_reachable : world -> Prop :=
| api_init : api_reachable initial_world
| api_next w w' : api_reachable w -> api_step w w' -> api_reachable w'.

(** The registry grew by appending: the arenas there were are where they
    were, and the count did not go down. *)
Definition registry_extends (w w' : world) : Prop :=
  mi_arena_count w <= mi_arena_count w'
  /\ forall (i : nat) (a : mi_arena_t),
       mi_arenas w !! i = Some (Some a) -> mi_arenas w' !! i = Some (Some a).

(** A registry whose slots are all in use. *)
Definition ex_full : world :=
  mk_world (replicate 64 (Some ex_arena)) 64 [].

(** An arena of ordinary OS pages, which no function of [arena.c] builds,
    and a registry that holds it. *)
Definition ex_plain_arena : mi_arena_t :=
  mk_arena 1073741824 32 1 0 true false 0 [0] [18446744069414584320].

Definition ex_plain_world : world :=
  mk_world (<[0%nat := Some ex_plain_arena]> (replicate 64 None)) 1 [].

(** * Properties *)

(** ** Machine integers and memory ids *)

Lemma SIZE_MODULUS_eq : SIZE_MODULUS = 18446744073709551616.
Proof. reflexivity. Qed.

Lemma wrap_range x : 0 <= wrap x < SIZE_MODULUS.
Proof. unfold wrap. apply Z.mod_pos_bound. rewrite SIZE_MODULUS_eq. lia. Qed.

Lemma wrap_small x : 0 <= x < SIZE_MODULUS -> wrap x = x.
Proof. intros H. unfold wrap. now apply Z.mod_small. Qed.

Lemma wrap_is_size_t x : is_size_t (wrap x).
Proof. apply wrap_range. Qed.

Lemma land_255 x : Z.land x 255 = x mod 256.
Proof. change 255 with (Z.ones 8). now rewrite Z.land_ones. Qed.

Lemma shl8_no_overflow b :
  is_size_t b -> shr (shl b 8) 8 = b -> shl b 8 = b * 256.
Proof.
  unfold is_size_t, shr, shl. intros Hb Hrt.
  rewrite Z.shiftr_div_pow2 in Hrt by lia.
  rewrite Z.shiftl_mul_pow2 in * by lia.
  change (2 ^ 8) with 256 in *.
  pose proof (wrap_range (b * 256)) as Hw.
  rewrite SIZE_MODULUS_eq in *.
  assert (b < 72057594037927936) by
    (rewrite <- Hrt; apply Z.div_lt_upper_bound; lia).
  apply wrap_small. rewrite SIZE_MODULUS_eq. lia.
Qed.

(** The handle built from a bitmap index that fits and a small arena index
    is the sum of the two parts. *)
Lemma mi_memid_create_sum a b :
  0 <= a < 255 -> is_size_t b -> shr (shl b 8) 8 = b ->
  mi_memid_create a b = b * 256 + (a + 1).
Proof.
  intros Ha Hb Hrt. unfold mi_memid_create.
  rewrite (shl8_no_overflow b Hb Hrt).
  rewrite (wrap_small (a + 1)) by (rewrite SIZE_MODULUS_eq; lia).
  rewrite land_255, (Z.mod_small (a + 1)) by lia.
  rewrite <- Z.add_nocarry_lor.
  - reflexivity.
  - apply Z.bits_inj'. intros n Hn.
    rewrite Z.land_spec, Z.bits_0.
    destruct (Z.lt_ge_cases n 8) as [Hlt | Hge].
    + replace (b * 256) with (b * 2 ^ 8) by reflexivity.
      rewrite Z.mul_pow2_bits_low by lia. reflexivity.
    + replace (Z.testbit (a + 1) n) with false; [apply andb_false_r|].
      symmetry. apply Z.bits_above_log2; [lia|].
      apply Z.log2_lt_pow2; [lia|].
      apply Z.lt_le_trans with (2 ^ 8); [simpl; lia|].
      apply Z.pow_le_mono_r; lia.
Qed.

(** Claim C1.  Memory-id round trip: for an arena index below [MI_MAX_ARENAS] and
    a bitmap index [b] with [(b << 8) >> 8 == b], [mi_memid_indices] applied
    to [mi_memid_create arena_index b] gives back the same arena index and
    bitmap index, and the handle differs from [MI_MEMID_OS]. *)
Theorem memid_roundtrip (arena_index bitmap_index : Z) :
  0 <= arena_index < MI_MAX_ARENAS ->
  is_size_t bitmap_index ->
  shr (shl bitmap_index 8) 8 = bitmap_index ->
  mi_memid_indices (mi_memid_create arena_index bitmap_index)
    = (arena_index, bitmap_index)
  /\ mi_memid_create arena_index bitmap_index <> MI_MEMID_OS.
Proof.
  only_stated_oracles.
  unfold MI_MAX_ARENAS, MI_MEMID_OS. intros Ha Hb Hrt.
  pose proof Hb as Hb'. unfold is_size_t in Hb'.
  rewrite mi_memid_create_sum by (auto; lia).
  split; [|lia].
  unfold mi_memid_indices, shr. f_equal.
  - rewrite land_255.
    replace ((bitmap_index * 256 + (arena_index + 1)) mod 256)
      with (arena_index + 1).
    + rewrite wrap_small by (rewrite SIZE_MODULUS_eq; lia). lia.
    + Z.div_mod_to_equations. lia.
  - rewrite Z.shiftr_div_pow2 by lia. change (2 ^ 8) with 256.
    Z.div_mod_to_equations. lia.
Qed.


(** ** The registry *)

Lemma registry_inv_initial : registry_inv initial_world.
Proof.
  unfold registry_inv, initial_world, slot_published.
  cbn [mi_arenas mi_arena_count].
  split; [apply length_replicate|]. split; [unfold MI_MAX_ARENAS; lia|].
  intros i. split; [lia|]. intros [a Ha].
  apply lookup_replicate in Ha. destruct Ha as [Ha _]. discriminate.
Qed.

Lemma mi_arena_add_full arena w :
  is_size_t (mi_arena_count w) ->
  MI_MAX_ARENAS <= mi_arena_count w ->
  mi_arena_add arena w = (false, w).
Proof.
  intros Hc Hfull. destruct w as [slots count tr]; simpl in *.
  unfold mi_arena_add, bind, mi_atomic_addu_arena_count,
    mi_atomic_subu_arena_count, ret, set_mi_arena_count; simpl.
  destruct (Z.leb_spec MI_MAX_ARENAS count) as [_|]; [|lia].
  simpl. f_equal. f_equal.
  unfold is_size_t in Hc. unfold wrap.
  rewrite Zminus_mod_idemp_l.
  replace (count + 1 - 1) with count by lia. now apply Z.mod_small.
Qed.

Lemma mi_arena_add_room arena w :
  0 <= mi_arena_count w < MI_MAX_ARENAS ->
  mi_arena_add arena w =
    (true, mk_world (<[Z.to_nat (mi_arena_count w) := Some arena]> (mi_arenas w))
                    (mi_arena_count w + 1) (trace w)).
Proof.
  intros Hc. destruct w as [slots count tr]; simpl in *.
  unfold mi_arena_add, bind, mi_atomic_addu_arena_count, ret,
    set_mi_arena_count, set_mi_arenas; simpl.
  destruct (Z.leb_spec MI_MAX_ARENAS count) as [|_]; [lia|].
  f_equal. f_equal. apply wrap_small.
  unfold MI_MAX_ARENAS in Hc. rewrite SIZE_MODULUS_eq. lia.
Qed.

(** Claim C8.  Registry publish: [mi_arena_add] takes the value of
    [mi_arena_count] as the slot index and increments the counter.  When
    that index is at or beyond [MI_MAX_ARENAS] it restores the counter and
    returns [false] with every slot as it was; otherwise it writes the
    descriptor into exactly that slot, which was empty, and returns
    [true].  A slot that was published keeps its descriptor, and the slots
    in use stay exactly those below the counter, so they are filled in
    increasing order. *)
Theorem mi_arena_add_publish (arena : mi_arena_t) (w : world) :
  registry_inv w ->
  (MI_MAX_ARENAS <= mi_arena_count w -> mi_arena_add arena w = (false, w))
  /\ (mi_arena_count w < MI_MAX_ARENAS ->
      mi_arenas w !! Z.to_nat (mi_arena_count w) = Some None
      /\ mi_arena_add arena w =
           (true,
            mk_world (<[Z.to_nat (mi_arena_count w) := Some arena]> (mi_arenas w))
                     (mi_arena_count w + 1) (trace w)))
  /\ (forall (i : nat) (a : mi_arena_t),
        mi_arenas w !! i = Some (Some a) ->
        mi_arenas (snd (mi_arena_add arena w)) !! i = Some (Some a))
  /\ registry_inv (snd (mi_arena_add arena w)).
Proof.
  intros (Hlen & Hc & Hslots).
  assert (Hsz : is_size_t (mi_arena_count w)).
  { unfold is_size_t. rewrite SIZE_MODULUS_eq. unfold MI_MAX_ARENAS in Hc. lia. }
  assert (Hempty : mi_arena_count w < MI_MAX_ARENAS ->
                   mi_arenas w !! Z.to_nat (mi_arena_count w) = Some None).
  { intros Hlt.
    destruct (mi_arenas w !! Z.to_nat (mi_arena_count w)) as [[a|]|] eqn:E.
    - assert (slot_published w (Z.to_nat (mi_arena_count w))) as Hp
        by (now exists a).
      apply Hslots in Hp. lia.
    - reflexivity.
    - apply lookup_ge_None in E. lia. }
  split; [intros; now apply mi_arena_add_full|].
  split; [intros Hlt; split; [auto|apply mi_arena_add_room; lia]|].
  destruct (Z.le_gt_cases MI_MAX_ARENAS (mi_arena_count w)) as [Hfull|Hroom].
  - rewrite mi_arena_add_full by assumption. cbn [snd].
    split; [auto|]. exact (conj Hlen (conj Hc Hslots)).
  - rewrite mi_arena_add_room by lia. cbn [snd mi_arenas]. split.
    + intros i a Hi.
      destruct (decide (i = Z.to_nat (mi_arena_count w))) as [->|Hne].
      * rewrite Hempty in Hi by assumption. discriminate.
      * now rewrite list_lookup_insert_ne by auto.
    + unfold registry_inv, slot_published.
      cbn [mi_arenas mi_arena_count].
      rewrite length_insert. split; [assumption|]. split; [lia|].
      intros i.
      destruct (decide (i = Z.to_nat (mi_arena_count w))) as [->|Hne].
      * rewrite list_lookup_insert_eq by lia. split; [eauto|lia].
      * rewrite list_lookup_insert_ne by auto.
        specialize (Hslots i). unfold slot_published in Hslots.
        rewrite <- Hslots. lia.
Qed.

(** ** Bits of the bitmap primitive *)

Lemma MI_BITMAP_FIELD_BITS_eq : MI_BITMAP_FIELD_BITS = 64.
Proof. reflexivity. Qed.

(** The mask of a run has the bits of the run that lie inside the field. *)
Lemma mi_bitmap_mask_spec count bitidx i :
  0 <= count -> 0 <= i ->
  Z.testbit (mi_bitmap_mask_ count bitidx) i
  = (i <? MI_BITMAP_FIELD_BITS) && ((bitidx <=? i) && (i <? bitidx + count)).
Proof.
  intros Hc Hi. unfold mi_bitmap_mask_, wrap, SIZE_MODULUS.
  rewrite Z.testbit_mod_pow2 by (unfold MI_INTPTR_BITS; lia).
  rewrite Z.shiftl_spec by assumption.
  rewrite Z.testbit_ones by assumption.
  unfold MI_BITMAP_FIELD_BITS. f_equal.
  destruct (Z.leb_spec 0 (i - bitidx)), (Z.leb_spec bitidx i);
    destruct (Z.ltb_spec (i - bitidx) count), (Z.ltb_spec i (bitidx + count));
    simpl; try reflexivity; lia.
Qed.

Lemma mi_bitmap_mask_nonneg count bitidx : 0 <= mi_bitmap_mask_ count bitidx.
Proof. apply wrap_range. Qed.

(** [(prev & mask) == mask] says that every bit of the mask is set. *)
Lemma land_eq_mask prev mask :
  0 <= mask ->
  (Z.land prev mask =? mask) = true
  <-> (forall i, 0 <= i -> Z.testbit mask i = true -> Z.testbit prev i = true).
Proof.
  intros Hm. rewrite Z.eqb_eq. split.
  - intros Heq i Hi Hbit. rewrite <- Heq, Z.land_spec in Hbit.
    now apply andb_true_iff in Hbit.
  - intros Hall. apply Z.bits_inj'. intros i Hi. rewrite Z.land_spec.
    destruct (Z.testbit mask i) eqn:E.
    + now rewrite (Hall i Hi E).
    + apply andb_false_r.
Qed.

(** When [(prev & mask) == mask] fails, a bit of the mask is clear. *)
Lemma land_neq_mask prev mask :
  0 <= mask ->
  (Z.land prev mask =? mask) = false ->
  exists j, 0 <= j /\ Z.testbit mask j = true /\ Z.testbit prev j = false.
Proof.
  intros Hm Hne.
  assert (Hd : 0 <= Z.ldiff mask prev) by (apply Z.ldiff_nonneg; now left).
  destruct (Z.eq_dec (Z.ldiff mask prev) 0) as [Hz|Hnz].
  - exfalso. apply not_true_iff_false in Hne. apply Hne.
    apply land_eq_mask; [assumption|]. intros i Hi Hbit.
    assert (Hbits : Z.testbit (Z.ldiff mask prev) i = false)
      by (rewrite Hz; apply Z.bits_0).
    rewrite Z.ldiff_spec, Hbit in Hbits.
    destruct (Z.testbit prev i); [reflexivity|discriminate].
  - exists (Z.log2 (Z.ldiff mask prev)).
    assert (Hbit : Z.testbit (Z.ldiff mask prev) (Z.log2 (Z.ldiff mask prev)) = true)
      by (apply Z.bit_log2; lia).
    rewrite Z.ldiff_spec in Hbit. apply andb_true_iff in Hbit as [H1 H2].
    split; [apply Z.log2_nonneg|]. split; [assumption|].
    now apply negb_true_iff.
Qed.

Lemma field_bit_decompose i :
  i = mi_bitmap_index_field i * MI_BITMAP_FIELD_BITS
      + mi_bitmap_index_bit_in_field i
  /\ 0 <= mi_bitmap_index_bit_in_field i < MI_BITMAP_FIELD_BITS.
Proof.
  only_stated_oracles.
  unfold mi_bitmap_index_field, mi_bitmap_index_bit_in_field.
  rewrite MI_BITMAP_FIELD_BITS_eq. Z.div_mod_to_equations. lia.
Qed.

(** What [mi_bitmap_unclaim] returns, in terms of the bits of the run. *)
Lemma mi_bitmap_unclaim_flag bitmap fields count bitmap_idx prev :
  0 <= count -> 0 <= bitmap_idx ->
  bitmap !! Z.to_nat (mi_bitmap_index_field bitmap_idx) = Some prev ->
  snd (mi_bitmap_unclaim bitmap fields count bitmap_idx) = false
  <-> run_has_clear_bit bitmap count bitmap_idx.
Proof.
  only_stated_oracles.
  intros Hc Hb Hprev. unfold mi_bitmap_unclaim. cbv zeta.
  rewrite Hprev. cbn [snd].
  pose proof (field_bit_decompose bitmap_idx) as [Hdec Hbit].
  set (f := mi_bitmap_index_field bitmap_idx) in *.
  set (b := mi_bitmap_index_bit_in_field bitmap_idx) in *.
  unfold run_has_clear_bit. split.
  - intros Hnot.
    apply land_neq_mask in Hnot; [|apply mi_bitmap_mask_nonneg].
    destruct Hnot as (j & Hj & Hm & Hp).
    rewrite mi_bitmap_mask_spec in Hm by assumption.
    apply andb_true_iff in Hm as [Hlt Hm]. apply andb_true_iff in Hm as [Hge Hlt'].
    apply Z.ltb_lt in Hlt, Hlt'. apply Z.leb_le in Hge.
    exists (f * MI_BITMAP_FIELD_BITS + j).
    assert (Hf : mi_bitmap_index_field (f * MI_BITMAP_FIELD_BITS + j) = f).
    { unfold mi_bitmap_index_field. rewrite MI_BITMAP_FIELD_BITS_eq in *.
      Z.div_mod_to_equations. lia. }
    split; [lia|]. split; [exact Hf|].
    unfold mi_bitmap_bit. fold (mi_bitmap_index_field (f * MI_BITMAP_FIELD_BITS + j)).
    rewrite Hf, Hprev.
    replace ((f * MI_BITMAP_FIELD_BITS + j) mod MI_BITMAP_FIELD_BITS) with j; [exact Hp|].
    rewrite MI_BITMAP_FIELD_BITS_eq in *. Z.div_mod_to_equations. lia.
  - intros (i & Hi & Hf & Hclear).
    apply not_true_iff_false. intros Hall.
    rewrite land_eq_mask in Hall by apply mi_bitmap_mask_nonneg.
    pose proof (field_bit_decompose i) as [Hdeci Hbiti].
    unfold mi_bitmap_bit in Hclear.
    fold (mi_bitmap_index_field i) in Hclear.
    fold (mi_bitmap_index_bit_in_field i) in Hclear.
    rewrite Hf in Hclear, Hdeci. fold f in Hclear, Hdeci. rewrite Hprev in Hclear.
    rewrite Hall in Hclear; [discriminate|lia|].
    rewrite mi_bitmap_mask_spec by lia.
    apply andb_true_iff. split; [apply Z.ltb_lt; lia|].
    apply andb_true_iff. split; [apply Z.leb_le|apply Z.ltb_lt]; lia.
Qed.

(** ** Arena free *)

Lemma add_event_trace e w : trace (add_event e w) = trace w ++ [e].
Proof. reflexivity. Qed.

(** Every handle whose low byte is [0x41] or more decodes to an arena index
    of [64] or more, and the call reads [mi_arenas] at that index. *)
Lemma mi_arena_free_index_beyond_registry w p size memid :
  p <> 0 -> size <> 0 -> 0 <= memid -> 65 <= memid mod 256 ->
  _mi_arena_free p size memid w
  = (Free_out_of_bounds_read (memid mod 256 - 1), w).
Proof.
  intros Hp Hsize Hm Hlow. unfold _mi_arena_free.
  destruct (Z.eqb_spec p 0) as [|_]; [contradiction|].
  destruct (Z.eqb_spec size 0) as [|_]; [contradiction|].
  destruct (Z.eqb_spec memid MI_MEMID_OS) as [->|_];
    [change (MI_MEMID_OS mod 256) with 0 in Hlow; lia|].
  unfold mi_memid_indices. rewrite land_255.
  pose proof (Z.mod_pos_bound memid 256 ltac:(lia)) as Hb.
  rewrite wrap_small by (rewrite SIZE_MODULUS_eq; lia).
  destruct (Z.leb_spec MI_MAX_ARENAS (memid mod 256 - 1)) as [_|Hlt];
    [reflexivity|unfold MI_MAX_ARENAS in Hlt; lia].
Qed.

(** Claim C2.  The source indexes [mi_arenas] with the decoded arena index
    without comparing it with [MI_MAX_ARENAS] (only an assertion does, and
    the two checks that follow it do report a fatal error).  With a low
    byte of [0x41] the decoded index is [64], with [0xFF] it is [254], and
    with a low byte of [0] in a handle that is not the sentinel it is
    [SIZE_MAX]: in each case the call reads past the registry and no fatal
    error is reported. *)
Theorem mi_arena_free_index_unchecked (w : world) :
  _mi_arena_free 4096 1 65 w = (Free_out_of_bounds_read 64, w)
  /\ _mi_arena_free 4096 1 255 w = (Free_out_of_bounds_read 254, w)
  /\ _mi_arena_free 4096 1 256 w
     = (Free_out_of_bounds_read (SIZE_MODULUS - 1), w).
Proof. repeat split. Qed.

(** Claim C3.  Double-free detection: for a handle that is not the sentinel,
    whose arena slot is in use and whose field index is below the
    [field_count] of that arena, [_mi_arena_free] unclaims the blocks of
    the size at the decoded position.  When the unclaim finds a bit of the
    run already clear, the call reports the fatal error of a block that is
    already freed; when all bits were set, the call reports nothing. *)
Theorem mi_arena_free_double_free
    (w : world) (p size memid : Z) (arena : mi_arena_t) :
  let arena_idx := fst (mi_memid_indices memid) in
  let bitmap_idx := snd (mi_memid_indices memid) in
  let blocks := mi_block_count_of_size size in
  let r := mi_bitmap_unclaim (blocks_map arena) (field_count arena)
                             blocks bitmap_idx in
  let w1 := set_mi_arenas (<[Z.to_nat arena_idx :=
                               Some (set_blocks_map (fst r) arena)]> (mi_arenas w)) w in
  p <> 0 -> 0 < size -> 0 <= memid -> memid <> MI_MEMID_OS ->
  arena_idx < MI_MAX_ARENAS ->
  mi_arenas w !! Z.to_nat arena_idx = Some (Some arena) ->
  mi_bitmap_index_field bitmap_idx < field_count arena ->
  Z.of_nat (length (blocks_map arena)) = field_count arena ->
  (snd r = false <-> run_has_clear_bit (blocks_map arena) blocks bitmap_idx)
  /\ (snd r = false ->
      _mi_arena_free p size memid w
      = (Free_returned,
         add_event (Ev_fatal_error (Fatal_already_freed_block p size)) w1))
  /\ (snd r = true ->
      _mi_arena_free p size memid w = (Free_returned, w1)
      /\ trace w1 = trace w).
Proof.
  intros arena_idx bitmap_idx blocks r w1 Hp Hsize Hm0 Hmemid Hidx Hslot Hfield Hlen.
  assert (Hb : 0 <= bitmap_idx).
  { unfold bitmap_idx, mi_memid_indices, shr. cbn [snd]. now apply Z.shiftr_nonneg. }
  assert (Hblocks : 0 <= blocks).
  { unfold blocks, mi_block_count_of_size, _mi_divide_up.
    apply Z.div_pos; [|reflexivity]. unfold MI_ARENA_BLOCK_SIZE, MI_SEGMENT_ALIGN,
      MI_SEGMENT_SIZE. lia. }
  assert (Hfi : 0 <= mi_bitmap_index_field bitmap_idx).
  { unfold mi_bitmap_index_field. apply Z.div_pos; [assumption|reflexivity]. }
  destruct (blocks_map arena !! Z.to_nat (mi_bitmap_index_field bitmap_idx))
    as [prev|] eqn:Hprev; [|apply lookup_ge_None in Hprev; lia].
  split; [now apply mi_bitmap_unclaim_flag with prev|].
  assert (Hrun : forall flag, snd r = flag ->
     _mi_arena_free p size memid w
     = (Free_returned,
        if flag then w1
        else add_event (Ev_fatal_error (Fatal_already_freed_block p size)) w1)).
  { intros flag Hflag. unfold _mi_arena_free.
    destruct (Z.eqb_spec p 0) as [|_]; [contradiction|].
    destruct (Z.eqb_spec size 0) as [|_]; [lia|].
    destruct (Z.eqb_spec memid MI_MEMID_OS) as [|_]; [contradiction|].
    destruct (mi_memid_indices memid) as [ai bi] eqn:Hdec.
    cbn [fst snd] in arena_idx, bitmap_idx. subst arena_idx bitmap_idx.
    destruct (Z.leb_spec MI_MAX_ARENAS ai) as [|_]; [lia|].
    rewrite Hslot.
    destruct (Z.leb_spec (field_count arena) (mi_bitmap_index_field bi)) as [|_];
      [lia|].
    fold blocks. fold r. destruct r as [bm ones] eqn:Hr. cbn [snd] in Hflag.
    subst ones. subst w1. cbn [fst]. destruct flag; reflexivity. }
  split.
  - intros Hf. now rewrite (Hrun false Hf).
  - intros Ht. split; [now rewrite (Hrun true Ht)|reflexivity].
Qed.

(** ** Reserving huge pages *)

Lemma mi_reserve_huge_os_pages_at_zero node timeout_msecs w :
  mi_reserve_huge_os_pages_at 0 node timeout_msecs w = (0, w).
Proof. reflexivity. Qed.

(** The three ways a call with a page count that is not zero ends. *)
Lemma mi_reserve_huge_os_pages_at_run pages node timeout_msecs w :
  pages <> 0 ->
  let ev := Ev_os_alloc_huge_os_pages pages (reserve_node node) timeout_msecs in
  let r := os_alloc_huge_os_pages (trace w) pages (reserve_node node) timeout_msecs in
  let p := wrap (fst (fst r)) in
  let pages_reserved := wrap (snd (fst r)) in
  let hsize := wrap (snd r) in
  let w2 := add_event (Ev_verbose_reserved pages_reserved) (add_event ev w) in
  let w3 := add_event (Ev_os_alloc (mi_huge_arena_asize hsize)) w2 in
  mi_reserve_huge_os_pages_at pages node timeout_msecs w =
    if (p =? 0) || (pages_reserved =? 0) then
      (ENOMEM, add_event (Ev_warning_failed_to_reserve pages) (add_event ev w))
    else if wrap (os_alloc (trace w2) (mi_huge_arena_asize hsize)) =? 0 then
      (ENOMEM, add_event (Ev_os_free_huge_pages p hsize) w3)
    else
      (0, snd (mi_arena_add
                 (mi_huge_arena_init p hsize (reserve_node node)
                    (os_alloc_beyond (trace w3) (mi_huge_arena_asize hsize)))
                 w3)).
Proof.
  intros Hpages. cbv zeta.
  unfold mi_reserve_huge_os_pages_at.
  destruct (Z.eqb_spec pages 0) as [|_]; [contradiction|].
  fold (reserve_node node).
  unfold bind at 1. unfold _mi_os_alloc_huge_os_pages.
  destruct (os_alloc_huge_os_pages (trace w) pages (reserve_node node) timeout_msecs)
    as [[p0 r0] h0]. cbn [fst snd].
  destruct ((wrap p0 =? 0) || (wrap r0 =? 0)); [reflexivity|].
  unfold bind at 1. cbn [emit].
  unfold bind at 1. unfold _mi_os_alloc. cbn [add_event trace].
  destruct (wrap (os_alloc _ _) =? 0); [reflexivity|].
  unfold bind, ret, memory_beyond_os_alloc.
  destruct (mi_arena_add _ _); reflexivity.
Qed.

(** Claim C10.  Rollback when the descriptor cannot be allocated: when
    [mi_reserve_huge_os_pages_at] has reserved huge pages (the OS returned
    a pointer that is not [NULL] and a page count that is not zero) and
    [_mi_os_alloc] then returns [NULL] for the descriptor, the call frees
    the huge pages it reserved with [_mi_os_free_huge_pages], returns
    [ENOMEM], and leaves [mi_arenas] and [mi_arena_count] as they were. *)
Theorem mi_reserve_huge_os_pages_at_rollback
    (w : world) (pages node timeout_msecs p pages_reserved hsize : Z) :
  let ev := Ev_os_alloc_huge_os_pages pages (reserve_node node) timeout_msecs in
  let asize := mi_huge_arena_asize (wrap hsize) in
  pages <> 0 ->
  os_alloc_huge_os_pages (trace w) pages (reserve_node node) timeout_msecs
    = (p, pages_reserved, hsize) ->
  wrap p <> 0 -> wrap pages_reserved <> 0 ->
  wrap (os_alloc (trace w ++ [ev; Ev_verbose_reserved (wrap pages_reserved)])
                 asize) = 0 ->
  mi_reserve_huge_os_pages_at pages node timeout_msecs w =
    (ENOMEM,
     mk_world (mi_arenas w) (mi_arena_count w)
              (trace w ++ [ev; Ev_verbose_reserved (wrap pages_reserved);
                           Ev_os_alloc asize;
                           Ev_os_free_huge_pages (wrap p) (wrap hsize)])).
Proof.
  intros ev asize Hpages Hos Hp Hres Hnull.
  rewrite mi_reserve_huge_os_pages_at_run by assumption.
  rewrite Hos. cbn [fst snd].
  destruct (Z.eqb_spec (wrap p) 0) as [|_]; [contradiction|].
  destruct (Z.eqb_spec (wrap pages_reserved) 0) as [|_]; [contradiction|].
  cbn [orb add_event trace mi_arenas mi_arena_count].
  fold ev. fold asize.
  replace ((trace w ++ [ev]) ++ [Ev_verbose_reserved (wrap pages_reserved)])
    with (trace w ++ [ev; Ev_verbose_reserved (wrap pages_reserved)])
    by (now rewrite <- app_assoc).
  rewrite Hnull. cbn [Z.eqb]. f_equal.
  unfold add_event. cbn [mi_arenas mi_arena_count trace].
  now rewrite <- !app_assoc.
Qed.

(** ** The scan of [mi_arena_alloc] *)

Lemma scan_norm_range fcount idx :
  1 <= fcount -> 0 <= idx -> 0 <= scan_norm fcount idx < fcount.
Proof. intros. unfold scan_norm. destruct (Z.leb_spec fcount idx); lia. Qed.

Lemma scan_norm_succ fcount idx k :
  1 <= fcount -> 0 <= idx < fcount ->
  (scan_norm fcount (idx + 1) + k) mod fcount = (idx + (1 + k)) mod fcount.
Proof.
  intros Hf Hi. unfold scan_norm. destruct (Z.leb_spec fcount (idx + 1)).
  - replace (idx + (1 + k)) with (0 + k + 1 * fcount) by lia.
    now rewrite Z.mod_add by lia.
  - f_equal. lia.
Qed.

Lemma mi_arena_alloc_loop_first_claim blocks fcount n :
  1 <= fcount -> is_size_t fcount ->
  forall arena idx, 0 <= idx ->
  mi_arena_alloc_loop n arena fcount blocks idx
  = first_claim arena blocks
      ((fun k => (scan_norm fcount idx + k) mod fcount) <$> seqZ 0 (Z.of_nat n)).
Proof.
  intros Hf Hsz. induction n as [|n IH]; intros arena idx Hidx; [reflexivity|].
  pose proof (scan_norm_range fcount idx Hf Hidx) as Hn.
  rewrite seqZ_cons by lia.
  replace (Z.pred (Z.of_nat (S n))) with (Z.of_nat n) by lia.
  cbn [fmap list_fmap mi_arena_alloc_loop first_claim].
  fold (scan_norm fcount idx).
  rewrite Z.add_0_r, (Z.mod_small (scan_norm fcount idx)) by lia.
  destruct (mi_bitmap_try_claim_field (blocks_map arena) (scan_norm fcount idx) blocks)
    as [[bm bi]|]; [reflexivity|].
  rewrite wrap_small by (unfold is_size_t in Hsz; lia).
  rewrite IH by lia. f_equal.
  change (Z.succ 0) with (1 + 0). rewrite <- fmap_add_seqZ.
  rewrite <- list_fmap_compose. apply list_fmap_ext. intros i k _.
  unfold compose. now apply scan_norm_succ.
Qed.

Lemma first_claim_none arena blocks order arena' :
  first_claim arena blocks order = (arena', None)
  <-> arena' = arena
      /\ forall idx, idx ∈ order ->
           mi_bitmap_try_claim_field (blocks_map arena) idx blocks = None.
Proof.
  induction order as [|idx rest IH]; cbn [first_claim].
  - split.
    + intros [= <-]. split; [reflexivity|]. intros idx Hin. inversion Hin.
    + intros [-> _]. reflexivity.
  - destruct (mi_bitmap_try_claim_field (blocks_map arena) idx blocks)
      as [[bm bi]|] eqn:E.
    + split; [discriminate|]. intros [_ Hall].
      rewrite Hall in E by apply list_elem_of_here. discriminate.
    + rewrite IH. split; intros [-> Hall]; (split; [reflexivity|]).
      * intros j Hj. apply elem_of_cons in Hj as [->|Hj]; auto.
      * intros j Hj. apply Hall. now apply list_elem_of_further.
Qed.

Lemma first_claim_some arena blocks order arena' bitmap_idx :
  first_claim arena blocks order = (arena', Some bitmap_idx)
  <-> exists pre idx post bm,
        order = pre ++ idx :: post
        /\ (forall j, j ∈ pre ->
             mi_bitmap_try_claim_field (blocks_map arena) j blocks = None)
        /\ mi_bitmap_try_claim_field (blocks_map arena) idx blocks
           = Some (bm, bitmap_idx)
        /\ arena' = set_search_idx idx (set_blocks_map bm arena).
Proof.
  induction order as [|i rest IH]; cbn [first_claim].
  - split; [discriminate|].
    intros (pre & idx & post & bm & Heq & _). now destruct pre.
  - destruct (mi_bitmap_try_claim_field (blocks_map arena) i blocks)
      as [[bm bi]|] eqn:E.
    + split.
      * intros [= <- <-]. exists [], i, rest, bm. repeat split; auto.
        intros j Hj. inversion Hj.
      * intros (pre & idx & post & bm' & Heq & Hpre & Hidx & ->).
        destruct pre as [|j pre]; simplify_eq/=.
        -- reflexivity.
        -- rewrite Hpre in E by apply list_elem_of_here. discriminate.
    + rewrite IH. split.
      * intros (pre & idx & post & bm & -> & Hpre & Hidx & ->).
        exists (i :: pre), idx, post, bm. repeat split; auto.
        intros j Hj. apply elem_of_cons in Hj as [->|Hj]; auto.
      * intros (pre & idx & post & bm & Heq & Hpre & Hidx & ->).
        destruct pre as [|j pre]; simplify_eq/=.
        exists pre, idx, post, bm. repeat split; auto.
        intros k Hk. apply Hpre. now apply list_elem_of_further.
Qed.

Lemma scan_order_elem arena idx :
  1 <= field_count arena -> 0 <= search_idx arena ->
  idx ∈ scan_order arena <-> 0 <= idx < field_count arena.
Proof.
  intros Hf Hs. unfold scan_order. rewrite list_elem_of_fmap.
  pose proof (scan_norm_range _ _ Hf Hs) as Hn. fold (scan_start arena) in Hn.
  split.
  - intros (k & -> & _). apply Z.mod_pos_bound. lia.
  - intros Hidx. exists ((idx - scan_start arena) mod field_count arena). split.
    + rewrite Z.add_mod_idemp_r by lia.
      replace (scan_start arena + (idx - scan_start arena)) with idx by lia.
      symmetry. now apply Z.mod_small.
    + apply elem_of_seqZ.
      pose proof (Z.mod_pos_bound (idx - scan_start arena) (field_count arena)).
      lia.
Qed.

Lemma scan_order_NoDup arena :
  1 <= field_count arena -> NoDup (scan_order arena).
Proof.
  intros Hf. unfold scan_order. apply NoDup_fmap_2_strong; [|apply NoDup_seqZ].
  intros x y Hx Hy Heq. apply elem_of_seqZ in Hx, Hy.
  set (s := scan_start arena) in *. set (n := field_count arena) in *.
  assert (Hd : ((s + x) - (s + y)) mod n = 0).
  { rewrite Zminus_mod, Heq, Z.sub_diag. now apply Z.mod_0_l; lia. }
  replace (s + x - (s + y)) with (x - y) in Hd by lia.
  apply Z.mod_divide in Hd; [|lia]. destruct Hd as [q Hq].
  assert (q = 0) by nia. lia.
Qed.

(** Claim C6.  The scan of the block allocator: for an arena with at least one
    field, [mi_arena_alloc] tries the fields in the order [scan_order],
    which starts at [search_idx] (at [0] when [search_idx] is not below
    [field_count]), goes on modulo [field_count] and holds every field
    index below [field_count] exactly once.  The call returns [true] with
    the position of the first try-claim that succeeds in that order, and
    stores the index of that field in [search_idx]; it returns [false]
    exactly when the try-claim fails on every field, and then leaves the
    arena as it was. *)
Theorem mi_arena_alloc_scan (arena : mi_arena_t) (blocks : Z) :
  1 <= field_count arena -> is_size_t (field_count arena) ->
  0 <= search_idx arena ->
  NoDup (scan_order arena)
  /\ (forall idx, idx ∈ scan_order arena <-> 0 <= idx < field_count arena)
  /\ scan_order arena !! 0%nat = Some (scan_start arena)
  /\ (forall arena' bitmap_idx,
       mi_arena_alloc arena blocks = (arena', Some bitmap_idx)
       <-> exists pre idx post bm,
             scan_order arena = pre ++ idx :: post
             /\ (forall j, j ∈ pre ->
                  mi_bitmap_try_claim_field (blocks_map arena) j blocks = None)
             /\ mi_bitmap_try_claim_field (blocks_map arena) idx blocks
                = Some (bm, bitmap_idx)
             /\ arena' = set_search_idx idx (set_blocks_map bm arena))
  /\ (forall arena',
       mi_arena_alloc arena blocks = (arena', None)
       <-> arena' = arena
           /\ forall idx, 0 <= idx < field_count arena ->
                mi_bitmap_try_claim_field (blocks_map arena) idx blocks = None).
Proof.
  intros Hf Hsz Hs.
  assert (Heq : mi_arena_alloc arena blocks
                = first_claim arena blocks (scan_order arena)).
  { unfold mi_arena_alloc.
    rewrite mi_arena_alloc_loop_first_claim by assumption.
    unfold scan_order, scan_start. now rewrite Z2Nat.id by lia. }
  split; [now apply scan_order_NoDup|].
  split; [intros idx; now apply scan_order_elem|].
  split.
  { unfold scan_order. rewrite list_lookup_fmap, lookup_seqZ_lt by lia.
    cbn [fmap option_fmap option_map]. f_equal.
    pose proof (scan_norm_range _ _ Hf Hs). fold (scan_start arena) in *.
    change (0 + Z.of_nat 0) with 0. rewrite Z.add_0_r.
    apply Z.mod_small. lia. }
  split.
  - intros arena' bi. rewrite Heq. apply first_claim_some.
  - intros arena'. rewrite Heq, first_claim_none.
    split; intros [-> Hall]; (split; [reflexivity|]); intros idx Hidx;
      apply Hall; now apply scan_order_elem.
Qed.

(** ** Interleaved reservation *)

Lemma node_share_nonneg pages count i :
  0 <= pages -> 1 <= count -> 0 <= node_share pages count i.
Proof.
  intros Hp Hc. unfold node_share.
  assert (0 <= pages / count) by (apply Z.div_pos; lia).
  destruct (i <? pages mod count); lia.
Qed.

Lemma sum_Z_shares_nonneg pages count first n :
  0 <= pages -> 1 <= count ->
  0 <= sum_Z (node_share pages count <$> seqZ first (Z.of_nat n)).
Proof.
  intros Hp Hc. revert first. induction n as [|n IH]; intros first.
  - rewrite seqZ_nil by reflexivity. cbn. lia.
  - rewrite seqZ_cons by lia.
    replace (Z.pred (Z.of_nat (S n))) with (Z.of_nat n) by lia.
    cbn [fmap list_fmap sum_Z foldr]. fold (sum_Z (node_share pages count
      <$> seqZ (Z.succ first) (Z.of_nat n))).
    pose proof (node_share_nonneg pages count first Hp Hc).
    specialize (IH (Z.succ first)). lia.
Qed.

(** Requests of zero pages do nothing. *)
Lemma reserve_each_zero pages count timeout_per n :
  0 <= pages -> 1 <= count ->
  forall first w,
  sum_Z (node_share pages count <$> seqZ first (Z.of_nat n)) = 0 ->
  reserve_each (node_requests pages count first (Z.of_nat n)) timeout_per w
  = (0, w).
Proof.
  intros Hp Hc. induction n as [|n IH]; intros first w Hsum.
  { unfold node_requests. now rewrite seqZ_nil by reflexivity. }
  revert Hsum. unfold node_requests. rewrite seqZ_cons by lia.
  replace (Z.pred (Z.of_nat (S n))) with (Z.of_nat n) by lia.
  cbn [fmap list_fmap sum_Z foldr reserve_each].
  fold (sum_Z (node_share pages count <$> seqZ (Z.succ first) (Z.of_nat n))).
  intros Hsum.
  pose proof (node_share_nonneg pages count first Hp Hc).
  pose proof (sum_Z_shares_nonneg pages count (Z.succ first) n Hp Hc).
  replace (node_share pages count first) with 0 by lia.
  unfold bind. rewrite mi_reserve_huge_os_pages_at_zero. cbn [Z.eqb negb].
  apply IH. lia.
Qed.

Lemma mi_reserve_interleave_loop_each pages count timeout_per n :
  1 <= pages -> is_size_t pages -> 1 <= count ->
  forall node remaining w,
  0 <= node -> Z.of_nat n = count - node ->
  remaining = sum_Z (node_share pages count <$> seqZ node (Z.of_nat n)) ->
  mi_reserve_interleave_loop n count (pages / count) (pages mod count)
                             timeout_per node remaining w
  = reserve_each (node_requests pages count node (Z.of_nat n)) timeout_per w.
Proof.
  only_stated_oracles.
  intros Hp Hsz Hc. induction n as [|n IH]; intros node remaining w Hnode Hn Hrem.
  { unfold node_requests. now rewrite seqZ_nil by reflexivity. }
  cbn [mi_reserve_interleave_loop].
  destruct (Z.ltb_spec node count) as [_|]; [|lia].
  destruct (Z.ltb_spec 0 remaining) as [Hpos|Hzero]; cbn [andb].
  - revert Hrem. unfold node_requests. rewrite seqZ_cons by lia.
    replace (Z.pred (Z.of_nat (S n))) with (Z.of_nat n) by lia.
    cbn [fmap list_fmap sum_Z foldr reserve_each].
    fold (sum_Z (node_share pages count <$> seqZ (Z.succ node) (Z.of_nat n))).
    intros Hrem.
    assert (Hshare : (if node <? pages mod count
                      then wrap (pages / count + 1) else pages / count)
                     = node_share pages count node).
    { unfold node_share. destruct (Z.ltb_spec node (pages mod count)); [|lia].
      apply wrap_small. unfold is_size_t in Hsz.
      assert (pages / count <= pages) by (apply Z.div_le_upper_bound; nia).
      assert (2 <= count) by (pose proof (Z.mod_pos_bound pages count); lia).
      assert (pages / count <= pages / 2)
        by (apply Z.div_le_compat_l; lia).
      assert (pages / 2 + 1 <= pages) by (Z.div_mod_to_equations; lia).
      assert (0 <= pages / count) by (apply Z.div_pos; lia).
      lia. }
    rewrite Hshare. unfold bind.
    destruct (mi_reserve_huge_os_pages_at (node_share pages count node) node
                timeout_per w) as [err w'].
    destruct (negb (err =? 0)); [reflexivity|].
    pose proof (sum_Z_shares_nonneg pages count (Z.succ node) n ltac:(lia) Hc).
    destruct (Z.ltb_spec remaining (node_share pages count node)); [lia|].
    unfold node_requests in IH. change (Z.succ node) with (node + 1) in *.
    apply IH; lia.
  - symmetry. apply reserve_each_zero; [lia|lia|].
    pose proof (sum_Z_shares_nonneg pages count node (S n) ltac:(lia) Hc). lia.
Qed.

(** The shares of the first [n] nodes. *)
Lemma sum_Z_shares_prefix pages count n :
  0 <= pages mod count ->
  sum_Z (node_share pages count <$> seqZ 0 (Z.of_nat n))
  = Z.of_nat n * (pages / count) + Z.min (Z.of_nat n) (pages mod count).
Proof.
  intros Hr. induction n as [|n IH].
  { rewrite seqZ_nil by reflexivity. cbn. lia. }
  rewrite seqZ_S, fmap_app. unfold sum_Z in *. rewrite foldr_app.
  cbn [fmap list_fmap foldr].
  assert (Hshift : forall (l : list Z) a, foldr Z.add a l = foldr Z.add 0 l + a).
  { induction l as [|x l IHl]; intros a; cbn [foldr]; [lia|]. rewrite IHl. lia. }
  rewrite Hshift, IH. unfold node_share. rewrite Z.add_0_l.
  destruct (Z.ltb_spec (Z.of_nat n) (pages mod count)); lia.
Qed.

Lemma sum_Z_shares_total pages count :
  0 <= pages -> 1 <= count ->
  sum_Z (node_share pages count <$> seqZ 0 count) = pages.
Proof.
  intros Hp Hc. pose proof (Z.mod_pos_bound pages count ltac:(lia)) as Hr.
  rewrite <- (Z2Nat.id count) at 2 by lia.
  rewrite sum_Z_shares_prefix by lia. rewrite Z2Nat.id by lia.
  rewrite Z.min_r by lia.
  pose proof (Z.div_mod pages count ltac:(lia)). lia.
Qed.

(** Claim C4.  Interleaving: for a budget of [pages >= 1] pages and
    [count >= 1] NUMA nodes, [mi_reserve_huge_os_pages_interleave] calls
    [mi_reserve_huge_os_pages_at] for the nodes [0], [1], ... in this
    order, with [pages / count + 1] pages for a node below
    [pages mod count] and [pages / count] pages for every other node, and
    returns the first error that is not zero at once.  The shares add up to
    [pages].  The timeout of every call is [timeout_msecs / count + 50] in
    [size_t] arithmetic, and the node the OS is asked for is the node
    itself. *)
Theorem mi_reserve_huge_os_pages_interleave_fair
    (pages timeout_msecs : Z) (w : world) :
  let count := _mi_os_numa_node_count in
  let timeout_per := wrap (timeout_msecs / count + 50) in
  1 <= pages -> is_size_t pages -> 1 <= count ->
  mi_reserve_huge_os_pages_interleave pages timeout_msecs w
  = reserve_each (node_requests pages count 0 count) timeout_per w
  /\ sum_Z (node_share pages count <$> seqZ 0 count) = pages
  /\ (forall i, 0 <= i < count ->
       node_share pages count i
       = (if i <? pages mod count then pages / count + 1 else pages / count)
       /\ reserve_node i = i)
  /\ (0 <= timeout_msecs -> timeout_msecs / count + 50 < SIZE_MODULUS ->
      timeout_per = timeout_msecs / count + 50).
Proof.
  intros count timeout_per Hp Hsz Hc.
  split; [|split; [|split]].
  - unfold mi_reserve_huge_os_pages_interleave.
    destruct (Z.eqb_spec pages 0) as [|_]; [lia|].
    fold count. destruct (Z.leb_spec count 0) as [|_]; [lia|].
    fold timeout_per.
    rewrite (mi_reserve_interleave_loop_each pages count timeout_per
               (Z.to_nat count)) by
      (try assumption; try lia;
       rewrite Z2Nat.id by lia; symmetry; apply sum_Z_shares_total; lia).
    now rewrite Z2Nat.id by lia.
  - apply sum_Z_shares_total; lia.
  - intros i Hi. split.
    + unfold node_share. destruct (i <? pages mod count); lia.
    + unfold reserve_node. fold count.
      destruct (Z.ltb_spec i (-1)); [lia|].
      destruct (Z.leb_spec 0 i); [|lia].
      apply Z.rem_small. lia.
  - intros Ht Hfit. apply wrap_small. split; [|assumption].
    assert (0 <= timeout_msecs / count) by (apply Z.div_pos; lia). lia.
Qed.

(** ** The arena selector *)

Lemma events_since_app w l :
  drop (length (trace w)) (trace w ++ l) = l.
Proof. apply drop_app_length. Qed.

(** The loops over the registry make no call to the outside. *)
Lemma mi_arena_scan_trace numa_local n :
  forall i bcount node o w,
  trace (snd (mi_arena_scan numa_local n i bcount node o w)) = trace w.
Proof.
  induction n as [|n IH]; intros i bcount node o w; [reflexivity|].
  cbn [mi_arena_scan].
  destruct (mi_arenas w !! Z.to_nat i) as [[arena|]|]; try reflexivity.
  destruct (mi_arena_suitable numa_local arena node (o_large o)); [|apply IH].
  destruct (mi_arena_alloc_from arena i bcount o) as [[arena' o'] p].
  destruct (negb (p =? 0)); [reflexivity|]. now rewrite IH.
Qed.

Lemma mi_arena_try_arenas_trace size alignment o w :
  trace (snd (mi_arena_try_arenas size alignment o w))
  = trace w ++ (if mi_arena_eligible size alignment then [Ev_os_numa_node] else []).
Proof.
  unfold mi_arena_try_arenas.
  destruct (mi_arena_eligible size alignment); [|cbn; now rewrite app_nil_r].
  unfold bind, _mi_os_numa_node.
  destruct (mi_arena_scan true _ _ _ _ _ _) as [[[p|] o1] w1] eqn:E1.
  - pose proof (mi_arena_scan_trace true (Z.to_nat MI_MAX_ARENAS) 0
      (mi_block_count_of_size size) (os_numa_node (trace w)) o
      (add_event Ev_os_numa_node w)) as Ht.
    rewrite E1 in Ht. exact Ht.
  - rewrite mi_arena_scan_trace.
    pose proof (mi_arena_scan_trace true (Z.to_nat MI_MAX_ARENAS) 0
      (mi_block_count_of_size size) (os_numa_node (trace w)) o
      (add_event Ev_os_numa_node w)) as Ht.
    rewrite E1 in Ht. exact Ht.
Qed.

Lemma mi_arena_try_arenas_not_eligible size alignment o w :
  mi_arena_eligible size alignment = false ->
  mi_arena_try_arenas size alignment o w = (None, o, w).
Proof. intros H. unfold mi_arena_try_arenas. now rewrite H. Qed.

Lemma mi_arena_os_fallback_run size alignment o w :
  mi_arena_os_fallback size alignment o w
  = let l := fallback_large (o_large o) (trace w) in
    let r := os_alloc_aligned (trace w) size alignment (o_commit o) l in
    (wrap (fst r), mk_outs (o_commit o) (snd r) true MI_MEMID_OS,
     add_event (Ev_os_alloc_aligned size alignment (o_commit o) l) w).
Proof.
  unfold mi_arena_os_fallback, bind, _mi_os_alloc_aligned, ret,
    mi_option_is_enabled_large_os_pages, fallback_large. cbn [o_large o_commit].
  destruct (o_large o); cbn [trace];
    destruct (os_alloc_aligned _ _ _ _ _); reflexivity.
Qed.

(** The call is split into the attempt on the arenas and the fallback. *)
Lemma mi_arena_alloc_aligned_run size alignment commit large w :
  _mi_arena_alloc_aligned size alignment commit large w
  = let o := mk_outs commit (default false large) false MI_MEMID_OS in
    match mi_arena_try_arenas size alignment o w with
    | (Some p, o1, w1) => (p, o1, w1)
    | (None, o1, w1) => mi_arena_os_fallback size alignment o1 w1
    end.
Proof.
  unfold _mi_arena_alloc_aligned, bind. cbv zeta.
  destruct (mi_arena_try_arenas _ _ _ _) as [[[p|] o1] w1]; reflexivity.
Qed.

Lemma mi_arena_eligible_iff size alignment :
  mi_arena_eligible size alignment = true
  <-> alignment <= MI_SEGMENT_ALIGN
      /\ MI_ARENA_MIN_OBJ_SIZE <= size <= MI_ARENA_MAX_OBJ_SIZE.
Proof.
  unfold mi_arena_eligible. rewrite !andb_true_iff, !Z.leb_le. lia.
Qed.


(** ** What a try-claim returns *)

Lemma mi_bitmap_find_run_some n map mask :
  forall bitidx j,
  mi_bitmap_find_run n map mask bitidx = Some j ->
  bitidx <= j < bitidx + Z.of_nat n
  /\ Z.land map (Z.shiftl mask j) = 0
  /\ forall k, bitidx <= k < j -> Z.land map (Z.shiftl mask k) <> 0.
Proof.
  induction n as [|n IH]; intros bitidx j; cbn [mi_bitmap_find_run];
    [discriminate|].
  destruct (Z.eqb_spec (Z.land map (Z.shiftl mask bitidx)) 0) as [Hz|Hnz].
  - intros [= <-]. split; [lia|]. split; [assumption|]. intros k Hk. lia.
  - intros Hj. apply IH in Hj as (Hr & Hfree & Hbusy).
    split; [lia|]. split; [assumption|].
    intros k Hk. destruct (Z.eq_dec k bitidx) as [->|]; [assumption|].
    apply Hbusy. lia.
Qed.

Lemma mi_bitmap_try_claim_field_some bitmap idx count bitmap' bitmap_idx :
  mi_bitmap_try_claim_field bitmap idx count = Some (bitmap', bitmap_idx) ->
  exists map bitidx,
    bitmap !! Z.to_nat idx = Some map
    /\ 0 <= bitidx /\ bitidx + count <= MI_BITMAP_FIELD_BITS
    /\ Z.land map (Z.shiftl (mi_bitmap_mask_ count 0) bitidx) = 0
    /\ bitmap' = <[Z.to_nat idx :=
                     Z.lor map (Z.shiftl (mi_bitmap_mask_ count 0) bitidx)]> bitmap
    /\ bitmap_idx = mi_bitmap_index_create idx bitidx.
Proof.
  unfold mi_bitmap_try_claim_field.
  destruct (bitmap !! Z.to_nat idx) as [map|]; [|discriminate]. cbv zeta.
  destruct (mi_bitmap_find_run _ _ _ _) as [bitidx|] eqn:E; [|discriminate].
  intros [= <- <-]. apply mi_bitmap_find_run_some in E as (Hr & Hfree & _).
  exists map, bitidx. repeat split; try assumption; lia.
Qed.

(** ** Well-formed arenas *)

Lemma MI_ARENA_BLOCK_SIZE_eq : MI_ARENA_BLOCK_SIZE = 33554432.
Proof. reflexivity. Qed.

Lemma arena_wf_field_count a : arena_wf a -> is_size_t (field_count a).
Proof.
  intros (Hs & Hf & _ & Hfit). unfold is_size_t.
  rewrite MI_BITMAP_FIELD_BITS_eq, MI_ARENA_BLOCK_SIZE_eq in Hfit. lia.
Qed.

Lemma mi_arena_alloc_first_claim arena blocks :
  is_size_t (field_count arena) -> 0 <= search_idx arena ->
  mi_arena_alloc arena blocks = first_claim arena blocks (scan_order arena).
Proof.
  intros Hsz Hs. unfold mi_arena_alloc, scan_order, scan_start.
  destruct (Z.le_gt_cases (field_count arena) 0) as [Hle|Hgt].
  - rewrite seqZ_nil by assumption.
    replace (Z.to_nat (field_count arena)) with 0%nat by lia. reflexivity.
  - rewrite mi_arena_alloc_loop_first_claim by (try assumption; lia).
    now rewrite Z2Nat.id by lia.
Qed.

Lemma mi_arena_alloc_none arena blocks arena' :
  is_size_t (field_count arena) -> 0 <= search_idx arena ->
  mi_arena_alloc arena blocks = (arena', None) -> arena' = arena.
Proof.
  intros Hsz Hs. rewrite mi_arena_alloc_first_claim by assumption.
  intros H. now apply first_claim_none in H as [-> _].
Qed.

Lemma mi_arena_alloc_some arena blocks arena' bitmap_idx :
  is_size_t (field_count arena) -> 0 <= search_idx arena ->
  mi_arena_alloc arena blocks = (arena', Some bitmap_idx) ->
  exists idx bm,
    0 <= idx < field_count arena
    /\ mi_bitmap_try_claim_field (blocks_map arena) idx blocks
       = Some (bm, bitmap_idx)
    /\ arena' = set_search_idx idx (set_blocks_map bm arena).
Proof.
  intros Hsz Hs. rewrite mi_arena_alloc_first_claim by assumption.
  intros H. apply first_claim_some in H
    as (pre & idx & post & bm & Horder & _ & Hclaim & ->).
  exists idx, bm. repeat split; try assumption;
    assert (Hin : idx ∈ scan_order arena)
      by (rewrite Horder; apply elem_of_app; right; apply list_elem_of_here);
    destruct (Z.le_gt_cases (field_count arena) 0) as [Hle|Hgt];
    try (unfold scan_order in Hin; rewrite seqZ_nil in Hin by assumption;
         inversion Hin);
    apply scan_order_elem in Hin; lia.
Qed.

(** A position claimed in a well-formed arena is a block of the area the
    bitmap covers. *)
Lemma mi_arena_alloc_position arena blocks arena' bitmap_idx :
  arena_wf arena -> 1 <= blocks ->
  mi_arena_alloc arena blocks = (arena', Some bitmap_idx) ->
  0 <= bitmap_idx
  /\ bitmap_idx + blocks <= field_count arena * MI_BITMAP_FIELD_BITS.
Proof.
  intros Hwf Hb Halloc. pose proof (arena_wf_field_count _ Hwf) as Hsz.
  destruct Hwf as (Hs & Hf & Hsi & Hfit).
  apply mi_arena_alloc_some in Halloc as (idx & bm & Hidx & Hclaim & _);
    try assumption.
  apply mi_bitmap_try_claim_field_some in Hclaim
    as (map & bitidx & _ & Hb0 & Hb1 & _ & _ & ->).
  unfold mi_bitmap_index_create. unfold is_size_t in Hsz.
  rewrite MI_BITMAP_FIELD_BITS_eq, MI_ARENA_BLOCK_SIZE_eq in *.
  rewrite wrap_small by nia. nia.
Qed.

(** In a well-formed arena [mi_arena_alloc_from] returns [NULL] only when
    nothing was claimed, and then it changes neither the arena nor the
    flags. *)
Lemma mi_arena_alloc_from_null arena arena_index bcount o arena' o' :
  arena_wf arena -> 1 <= bcount ->
  mi_arena_alloc_from arena arena_index bcount o = (arena', o', 0) ->
  arena' = arena /\ o' = o.
Proof.
  intros Hwf Hb. unfold mi_arena_alloc_from.
  destruct (mi_arena_alloc arena bcount) as [arena1 [bi|]] eqn:Halloc.
  - destruct (mi_bitmap_claim _ _ _ _) as [dirty zero]. intros [= _ _ Hp].
    exfalso.
    pose proof (mi_arena_alloc_position _ _ _ _ Hwf Hb Halloc) as [Hb0 Hb1].
    pose proof (arena_wf_field_count _ Hwf) as Hsz.
    apply mi_arena_alloc_some in Halloc as (idx & bm & _ & _ & ->);
      [|assumption|apply Hwf].
    destruct Hwf as (Hs & Hf & Hsi & Hfit). cbn [start set_search_idx set_blocks_map] in Hp.
    unfold mi_bitmap_index_bit in Hp.
    rewrite MI_BITMAP_FIELD_BITS_eq, MI_ARENA_BLOCK_SIZE_eq in *.
    rewrite wrap_small in Hp by nia. nia.
  - intros [= <- <-]. split; [|reflexivity].
    eapply mi_arena_alloc_none; [| |exact Halloc].
    + now apply arena_wf_field_count.
    + apply Hwf.
Qed.

(** ** The OS fallback *)

(** A loop over the registry that ends without a pointer has changed
    nothing. *)
Lemma mi_arena_scan_none numa_local n :
  forall i bcount node o w o' w',
  registry_wf w -> 1 <= bcount ->
  mi_arena_scan numa_local n i bcount node o w = (None, o', w') ->
  o' = o /\ w' = w.
Proof.
  induction n as [|n IH]; intros i bcount node o w o' w' Hwf Hb;
    cbn [mi_arena_scan].
  { intros [= <- <-]. auto. }
  destruct (mi_arenas w !! Z.to_nat i) as [[arena|]|] eqn:Hslot;
    try (intros [= <- <-]; auto).
  destruct (mi_arena_suitable numa_local arena node (o_large o));
    [|now apply IH].
  destruct (mi_arena_alloc_from arena i bcount o) as [[arena' o1] p] eqn:Hfrom.
  destruct (Z.eqb_spec p 0) as [->|Hp]; cbn [negb]; [|discriminate].
  apply mi_arena_alloc_from_null in Hfrom as [-> ->];
    [|now apply (Hwf _ _ Hslot)|assumption].
  rewrite list_insert_id by assumption.
  replace (set_mi_arenas (mi_arenas w) w) with w by now destruct w.
  now apply IH.
Qed.

Lemma mi_arena_try_arenas_none size alignment o w o' w' :
  registry_wf w ->
  mi_arena_try_arenas size alignment o w = (None, o', w') ->
  o' = o /\ mi_arenas w' = mi_arenas w.
Proof.
  intros Hwf. unfold mi_arena_try_arenas.
  destruct (mi_arena_eligible size alignment) eqn:Hel;
    [|intros [= <- <-]; auto].
  apply mi_arena_eligible_iff in Hel as [_ [Hmin _]].
  assert (Hb : 1 <= mi_block_count_of_size size).
  { unfold mi_block_count_of_size, _mi_divide_up.
    assert (MI_ARENA_MIN_OBJ_SIZE = 16777216) as Hm by reflexivity.
    rewrite Hm in Hmin. rewrite MI_ARENA_BLOCK_SIZE_eq.
    apply Z.div_le_lower_bound; lia. }
  unfold bind, _mi_os_numa_node.
  assert (Hwf1 : registry_wf (add_event Ev_os_numa_node w)) by exact Hwf.
  destruct (mi_arena_scan true _ _ _ _ _ _) as [[[p|] o1] w1] eqn:E1;
    [discriminate|].
  apply mi_arena_scan_none in E1 as [-> ->]; [|assumption..].
  intros E2. apply mi_arena_scan_none in E2 as [-> ->]; [|assumption..].
  auto.
Qed.

Lemma fallback_reached_iff size alignment commit large w :
  fallback_reached size alignment commit large w
  <-> fst (fst (mi_arena_try_arenas size alignment
                  (mk_outs commit (default false large) false MI_MEMID_OS) w))
      = None.
Proof.
  unfold fallback_reached, events_since.
  rewrite mi_arena_alloc_aligned_run. cbv zeta.
  pose proof (mi_arena_try_arenas_trace size alignment
    (mk_outs commit (default false large) false MI_MEMID_OS) w) as Ht.
  destruct (mi_arena_try_arenas _ _ _ _) as [[[p|] o1] w1]; cbn [fst snd] in *.
  - rewrite Ht, events_since_app. split; [|discriminate].
    intros (c & l & Hin).
    destruct (mi_arena_eligible size alignment).
    + apply elem_of_cons in Hin as [Hin|Hin]; [discriminate|inversion Hin].
    + inversion Hin.
  - rewrite mi_arena_os_fallback_run. cbn [snd add_event trace].
    split; [reflexivity|]. intros _.
    exists (o_commit o1), (fallback_large (o_large o1) (trace w1)).
    rewrite Ht, <- app_assoc, events_since_app.
    apply elem_of_app. right. apply list_elem_of_here.
Qed.

(** Claim C9.  Postconditions of the OS fallback: whenever
    [_mi_arena_alloc_aligned] goes through the fallback, which it does when
    the request is outside the eligibility window and when the attempt on
    the arenas gave no pointer, the memory id it returns is [MI_MEMID_OS],
    [is_zero] is [true], and the flag it passes to [_mi_os_alloc_aligned]
    for [*large] is the value of the option for large OS pages when the
    caller requested large pages ([false] otherwise).  The registry is as
    before the call. *)
Theorem mi_arena_alloc_aligned_os_fallback
    (size alignment : Z) (commit : bool) (large : option bool) (w : world) :
  let o0 := mk_outs commit (default false large) false MI_MEMID_OS in
  let r := _mi_arena_alloc_aligned size alignment commit large w in
  registry_wf w ->
  (mi_arena_eligible size alignment = false ->
   fallback_reached size alignment commit large w)
  /\ (fallback_reached size alignment commit large w
      <-> fst (fst (mi_arena_try_arenas size alignment o0 w)) = None)
  /\ (fallback_reached size alignment commit large w ->
      o_memid (snd (fst r)) = MI_MEMID_OS
      /\ o_is_zero (snd (fst r)) = true
      /\ mi_arenas (snd r) = mi_arenas w
      /\ exists pre,
           (pre = [] \/ pre = [Ev_os_numa_node])
           /\ events_since w (snd r)
              = pre ++ [Ev_os_alloc_aligned size alignment commit
                          (if default false large
                           then option_large_os_pages (trace w ++ pre)
                           else false)]).
Proof.
  intros o0 r Hwf.
  assert (Hiff := fallback_reached_iff size alignment commit large w).
  fold o0 in Hiff.
  split; [|split; [exact Hiff|]].
  - intros Hel. apply Hiff.
    now rewrite mi_arena_try_arenas_not_eligible.
  - intros Hreached. apply Hiff in Hreached. subst r.
    rewrite mi_arena_alloc_aligned_run. cbv zeta. fold o0.
    pose proof (mi_arena_try_arenas_trace size alignment o0 w) as Ht.
    destruct (mi_arena_try_arenas size alignment o0 w) as [[[p|] o1] w1] eqn:E;
      cbn [fst snd] in *; [discriminate|].
    apply mi_arena_try_arenas_none in E as [-> Harenas]; [|assumption].
    rewrite mi_arena_os_fallback_run.
    cbn [fst snd o_memid o_is_zero add_event mi_arenas trace].
    split; [reflexivity|]. split; [reflexivity|]. split; [assumption|].
    exists (if mi_arena_eligible size alignment then [Ev_os_numa_node] else []).
    split; [destruct (mi_arena_eligible size alignment); auto|].
    unfold events_since, add_event. cbn [trace].
    rewrite Ht, <- app_assoc, events_since_app.
    reflexivity.
Qed.

(** ** The descriptor of a huge page arena *)

Lemma mi_bitmap_bit_insert (bitmap : list Z) (f : nat) (v i : Z) :
  (f < length bitmap)%nat ->
  mi_bitmap_bit (<[f := v]> bitmap) i
  = if decide (Z.to_nat (i / MI_BITMAP_FIELD_BITS) = f)
    then Z.testbit v (i mod MI_BITMAP_FIELD_BITS)
    else mi_bitmap_bit bitmap i.
Proof.
  intros Hf. unfold mi_bitmap_bit.
  destruct (decide (Z.to_nat (i / MI_BITMAP_FIELD_BITS) = f)) as [->|Hne].
  - now rewrite list_lookup_insert_eq.
  - now rewrite list_lookup_insert_ne by auto.
Qed.

Lemma mi_bitmap_bit_zeros n i : mi_bitmap_bit (replicate n 0) i = false.
Proof.
  unfold mi_bitmap_bit.
  destruct (replicate n 0 !! _) as [f|] eqn:E; [|reflexivity].
  apply lookup_replicate in E as [-> _]. apply Z.bits_0.
Qed.

Lemma huge_arena_counts hsize :
  is_size_t hsize ->
  let bcount := mi_block_count_of_size hsize in
  let fields := wrap (bcount + MI_BITMAP_FIELD_BITS - 1) / MI_BITMAP_FIELD_BITS in
  0 <= bcount <= 549755813888
  /\ fields = _mi_divide_up bcount MI_BITMAP_FIELD_BITS
  /\ bcount <= fields * MI_BITMAP_FIELD_BITS < bcount + MI_BITMAP_FIELD_BITS
  /\ wrap (fields * MI_BITMAP_FIELD_BITS - bcount)
     = fields * MI_BITMAP_FIELD_BITS - bcount.
Proof.
  only_stated_oracles.
  unfold is_size_t. rewrite SIZE_MODULUS_eq. intros Hh. cbv zeta.
  unfold mi_block_count_of_size, _mi_divide_up.
  rewrite MI_ARENA_BLOCK_SIZE_eq, MI_BITMAP_FIELD_BITS_eq.
  set (bcount := (hsize + 33554432 - 1) / 33554432).
  assert (Hb : 0 <= bcount <= 549755813888)
    by (unfold bcount; Z.div_mod_to_equations; lia).
  rewrite (wrap_small (bcount + 64 - 1)) by (rewrite SIZE_MODULUS_eq; lia).
  set (fields := (bcount + 64 - 1) / 64).
  assert (Hf : bcount <= fields * 64 < bcount + 64)
    by (unfold fields; Z.div_mod_to_equations; lia).
  repeat split; try lia.
  apply wrap_small. rewrite SIZE_MODULUS_eq. lia.
Qed.

(** The descriptor built for a reserved area of [hsize] bytes. *)
Lemma mi_huge_arena_init_spec p hsize node beyond :
  is_size_t hsize ->
  let a := mi_huge_arena_init p hsize node beyond in
  start a = p
  /\ numa_node a = node
  /\ block_count a = mi_block_count_of_size hsize
  /\ field_count a = _mi_divide_up (block_count a) MI_BITMAP_FIELD_BITS
  /\ block_count a <= field_count a * MI_BITMAP_FIELD_BITS
                   < block_count a + MI_BITMAP_FIELD_BITS
  /\ is_large a = true /\ is_zero_init a = true /\ search_idx a = 0
  /\ Z.of_nat (length (blocks_map a)) = field_count a
  /\ (forall i, 0 <= i < field_count a * MI_BITMAP_FIELD_BITS ->
       mi_bitmap_bit (blocks_map a) i = (block_count a <=? i)).
Proof.
  only_stated_oracles.
  intros Hh. cbv zeta.
  pose proof (huge_arena_counts hsize Hh) as (Hb & Hfields & Hf & Hpost).
  unfold mi_huge_arena_init. cbv zeta. rewrite Hpost.
  set (bcount := mi_block_count_of_size hsize) in *.
  set (fields := wrap (bcount + MI_BITMAP_FIELD_BITS - 1) / MI_BITMAP_FIELD_BITS) in *.
  set (post := fields * MI_BITMAP_FIELD_BITS - bcount) in *.
  assert (Hpe : post = fields * 64 - bcount) by reflexivity.
  clearbody post fields bcount.
  rewrite MI_BITMAP_FIELD_BITS_eq in *.
  assert (Hfn : 0 <= fields) by lia.
  destruct (Z.ltb_spec 0 post) as [Hpos|Hzero].
  - (* some bits of the last field lie beyond the area *)
    cbn [start numa_node block_count field_count is_large is_zero_init
         search_idx blocks_map set_blocks_map].
    assert (Hidx : mi_bitmap_index_create (wrap (fields - 1)) (wrap (64 - post))
                   = bcount).
    { unfold mi_bitmap_index_create. rewrite MI_BITMAP_FIELD_BITS_eq.
      rewrite (wrap_small (fields - 1)), (wrap_small (64 - post))
        by (rewrite SIZE_MODULUS_eq; lia).
      rewrite wrap_small by (rewrite SIZE_MODULUS_eq; lia). lia. }
    rewrite Hidx. unfold mi_bitmap_claim. cbv zeta.
    assert (Hfield : mi_bitmap_index_field bcount = fields - 1).
    { unfold mi_bitmap_index_field. rewrite MI_BITMAP_FIELD_BITS_eq.
      Z.div_mod_to_equations. lia. }
    assert (Hbit : mi_bitmap_index_bit_in_field bcount = 64 - post).
    { unfold mi_bitmap_index_bit_in_field. rewrite MI_BITMAP_FIELD_BITS_eq.
      Z.div_mod_to_equations. lia. }
    rewrite Hfield, Hbit.
    rewrite lookup_replicate_2 by lia. cbn [fst].
    rewrite Z.lor_0_l.
    repeat split; try reflexivity; try lia.
    + rewrite length_insert, length_replicate. lia.
    + intros i Hi. rewrite mi_bitmap_bit_insert by (rewrite length_replicate; lia).
      rewrite MI_BITMAP_FIELD_BITS_eq.
      destruct (decide (Z.to_nat (i / 64) = Z.to_nat (fields - 1))) as [He|Hne].
      * rewrite mi_bitmap_mask_spec by (Z.div_mod_to_equations; lia).
        rewrite MI_BITMAP_FIELD_BITS_eq.
        destruct (Z.ltb_spec (i mod 64) 64), (Z.leb_spec (64 - post) (i mod 64)),
          (Z.ltb_spec (i mod 64) (64 - post + post)), (Z.leb_spec bcount i);
          cbn [andb]; try reflexivity; exfalso;
          Z.div_mod_to_equations; lia.
      * rewrite mi_bitmap_bit_zeros.
        destruct (Z.leb_spec bcount i); [|reflexivity].
        exfalso. apply Hne. f_equal. Z.div_mod_to_equations. lia.
  - cbn [start numa_node block_count field_count is_large is_zero_init
         search_idx blocks_map].
    repeat split; try reflexivity; try lia.
    + rewrite length_replicate. lia.
    + intros i Hi. rewrite mi_bitmap_bit_zeros.
      destruct (Z.leb_spec bcount i); [lia|reflexivity].
Qed.

(** ** Blocks beyond the area are never handed out *)

(** The bits a try-claim sets in a field. *)
Lemma claim_mask_spec count bitidx k :
  0 <= count -> 0 <= bitidx -> bitidx + count <= MI_BITMAP_FIELD_BITS -> 0 <= k ->
  Z.testbit (Z.shiftl (mi_bitmap_mask_ count 0) bitidx) k
  = (bitidx <=? k) && (k <? bitidx + count).
Proof.
  intros Hc Hb Hfit Hk. rewrite Z.shiftl_spec by assumption.
  rewrite MI_BITMAP_FIELD_BITS_eq in Hfit.
  destruct (Z.leb_spec bitidx k) as [Hle|Hlt].
  - rewrite mi_bitmap_mask_spec by lia. rewrite MI_BITMAP_FIELD_BITS_eq.
    destruct (Z.ltb_spec (k - bitidx) 64), (Z.leb_spec 0 (k - bitidx)),
      (Z.ltb_spec (k - bitidx) (0 + count)), (Z.ltb_spec k (bitidx + count));
      cbn [andb]; try reflexivity; lia.
  - apply Z.testbit_neg_r. lia.
Qed.

Lemma field_of_position idx bitidx :
  0 <= bitidx < MI_BITMAP_FIELD_BITS ->
  (idx * MI_BITMAP_FIELD_BITS + bitidx) / MI_BITMAP_FIELD_BITS = idx
  /\ (idx * MI_BITMAP_FIELD_BITS + bitidx) mod MI_BITMAP_FIELD_BITS = bitidx.
Proof.
  only_stated_oracles.
  rewrite MI_BITMAP_FIELD_BITS_eq. intros H. Z.div_mod_to_equations. lia.
Qed.

(** An allocation hands out blocks of the area only, and keeps the
    invariant. *)
Lemma mi_arena_alloc_in_range a0 a blocks a' bitmap_idx :
  arena_counts_ok a0 -> arena_inv a0 a -> 1 <= blocks ->
  mi_arena_alloc a blocks = (a', Some bitmap_idx) ->
  0 <= bitmap_idx /\ bitmap_idx + blocks <= block_count a0 /\ arena_inv a0 a'.
Proof.
  intros [Hbc Hsz] (Hb & Hf & Hlen & Hsi & Htrail) Hblocks Halloc.
  assert (Hfsz : is_size_t (field_count a)).
  { unfold is_size_t. rewrite Hf. rewrite MI_BITMAP_FIELD_BITS_eq in *. lia. }
  apply mi_arena_alloc_some in Halloc as (idx & bm & Hidx & Hclaim & ->);
    try assumption.
  apply mi_bitmap_try_claim_field_some in Hclaim
    as (map & bitidx & Hmap & Hb0 & Hb1 & Hfree & -> & ->).
  unfold mi_bitmap_index_create.
  assert (Hfb := MI_BITMAP_FIELD_BITS_eq).
  rewrite wrap_small by (rewrite Hf in Hidx; nia).
  set (bi := idx * MI_BITMAP_FIELD_BITS + bitidx) in *.
  assert (Hin : bi + blocks <= block_count a0).
  { destruct (Z.le_gt_cases (bi + blocks) (block_count a0)) as [|Hout];
      [assumption|exfalso].
    set (g := Z.max bi (block_count a0)).
    assert (Hg : bi <= g < bi + blocks /\ block_count a0 <= g) by lia.
    assert (Hgk : g = idx * MI_BITMAP_FIELD_BITS + (g - idx * MI_BITMAP_FIELD_BITS))
      by lia.
    destruct (field_of_position idx (g - idx * MI_BITMAP_FIELD_BITS))
      as [Hgf Hgb]; [unfold bi in Hg; lia|]. rewrite <- Hgk in Hgf, Hgb.
    assert (Hset : mi_bitmap_bit (blocks_map a) g = true).
    { apply Htrail. rewrite Hb. unfold bi in Hg. nia. }
    unfold mi_bitmap_bit in Hset. rewrite Hgf, Hmap, Hgb in Hset.
    assert (Hbit : Z.testbit (Z.land map (Z.shiftl (mi_bitmap_mask_ blocks 0) bitidx))
                             (g - idx * MI_BITMAP_FIELD_BITS) = true).
    { rewrite Z.land_spec, Hset, claim_mask_spec by (unfold bi in Hg; lia).
      cbn [andb]. apply andb_true_iff. split; [apply Z.leb_le|apply Z.ltb_lt];
        unfold bi in Hg; lia. }
    rewrite Hfree, Z.bits_0 in Hbit. discriminate. }
  split; [unfold bi; nia|]. split; [assumption|].
  unfold arena_inv.
  cbn [block_count field_count blocks_map search_idx set_search_idx set_blocks_map].
  rewrite length_insert. repeat split; try assumption; try lia.
  intros i Hi.
  cbn [block_count field_count blocks_map search_idx set_search_idx set_blocks_map] in Hi.
  specialize (Htrail i Hi).
  cbn [blocks_map set_search_idx set_blocks_map].
  rewrite mi_bitmap_bit_insert by lia.
  destruct (decide (Z.to_nat (i / MI_BITMAP_FIELD_BITS) = Z.to_nat idx)) as [He|];
    [|assumption].
  unfold mi_bitmap_bit in Htrail. rewrite He, Hmap in Htrail.
  rewrite Z.lor_spec, Htrail. reflexivity.
Qed.

(** Giving back blocks of the area keeps the invariant. *)
Lemma mi_bitmap_unclaim_inv a0 a blocks bitmap_idx :
  arena_inv a0 a -> 0 <= blocks -> 0 <= bitmap_idx ->
  bitmap_idx + blocks <= block_count a0 ->
  arena_inv a0
    (set_blocks_map
       (fst (mi_bitmap_unclaim (blocks_map a) (field_count a) blocks bitmap_idx)) a).
Proof.
  only_stated_oracles.
  intros (Hb & Hf & Hlen & Hsi & Htrail) Hblocks Hbi Hin.
  unfold mi_bitmap_unclaim. cbv zeta.
  destruct (blocks_map a !! Z.to_nat (mi_bitmap_index_field bitmap_idx))
    as [prev|] eqn:Hprev; cbn [fst].
  2:{ replace (set_blocks_map (blocks_map a) a) with a by now destruct a.
      repeat split; assumption. }
  unfold arena_inv. cbn [block_count field_count blocks_map search_idx set_blocks_map].
  rewrite length_insert. repeat split; try assumption.
  intros i Hi. cbn [block_count field_count blocks_map set_blocks_map] in Hi.
  specialize (Htrail i Hi).
  assert (Hlt : (Z.to_nat (mi_bitmap_index_field bitmap_idx) < length (blocks_map a))%nat)
    by (apply lookup_lt_is_Some; eauto).
  cbn [blocks_map set_blocks_map].
  rewrite mi_bitmap_bit_insert by assumption.
  destruct (decide (Z.to_nat (i / MI_BITMAP_FIELD_BITS)
                    = Z.to_nat (mi_bitmap_index_field bitmap_idx))) as [He|];
    [|assumption].
  unfold mi_bitmap_bit in Htrail. rewrite He, Hprev in Htrail.
  rewrite Z.ldiff_spec, Htrail. cbn [andb]. apply negb_true_iff.
  assert (Hi0 : 0 <= i) by lia.
  rewrite mi_bitmap_mask_spec by
    (try assumption; rewrite MI_BITMAP_FIELD_BITS_eq; Z.div_mod_to_equations; lia).
  unfold mi_bitmap_index_field, mi_bitmap_index_bit_in_field in *.
  rewrite MI_BITMAP_FIELD_BITS_eq in *.
  assert (i / 64 = bitmap_idx / 64).
  { apply Z2Nat.inj; [Z.div_mod_to_equations; lia..|assumption]. }
  destruct (Z.ltb_spec (i mod 64) 64), (Z.leb_spec (bitmap_idx mod 64) (i mod 64)),
    (Z.ltb_spec (i mod 64) (bitmap_idx mod 64 + blocks));
    cbn [andb]; try reflexivity; exfalso; Z.div_mod_to_equations; lia.
Qed.

(** [arena_apply] is what the calls do to the arena they work on: the
    arena [mi_arena_alloc_from] leaves does not depend on the index of the
    slot or on the flags, and [_mi_arena_free] puts [arena_apply] of the
    free into the slot its handle names. *)
Lemma arena_apply_alloc_from a arena_index blocks o :
  fst (fst (mi_arena_alloc_from a arena_index blocks o))
  = arena_apply a (Op_alloc blocks).
Proof.
  only_stated_oracles.
  cbn [arena_apply]. unfold mi_arena_alloc_from.
  destruct (mi_arena_alloc a blocks) as [a1 [bi|]]; [|reflexivity].
  destruct (mi_bitmap_claim _ _ _ _) as [dirty zero]. reflexivity.
Qed.

Lemma mi_arena_free_arena_apply p size memid w a :
  let arena_idx := fst (mi_memid_indices memid) in
  let bitmap_idx := snd (mi_memid_indices memid) in
  p <> 0 -> size <> 0 -> memid <> MI_MEMID_OS ->
  arena_idx < MI_MAX_ARENAS ->
  mi_arenas w !! Z.to_nat arena_idx = Some (Some a) ->
  mi_arenas (snd (_mi_arena_free p size memid w))
  = <[Z.to_nat arena_idx :=
        Some (arena_apply a (Op_free (mi_block_count_of_size size) bitmap_idx))]>
      (mi_arenas w).
Proof.
  only_stated_oracles.
  intros arena_idx bitmap_idx Hp Hsize Hmemid Hidx Hslot.
  unfold _mi_arena_free.
  destruct (Z.eqb_spec p 0) as [|_]; [contradiction|].
  destruct (Z.eqb_spec size 0) as [|_]; [contradiction|].
  destruct (Z.eqb_spec memid MI_MEMID_OS) as [|_]; [contradiction|].
  destruct (mi_memid_indices memid) as [ai bi].
  cbn [fst snd] in arena_idx, bitmap_idx. subst arena_idx bitmap_idx.
  destruct (Z.leb_spec MI_MAX_ARENAS ai) as [|_]; [lia|].
  rewrite Hslot. cbn [arena_apply].
  destruct (field_count a <=? mi_bitmap_index_field bi).
  - cbn. symmetry. now apply list_insert_id.
  - destruct (mi_bitmap_unclaim _ _ _ _) as [bm ones]. cbn [fst].
    destruct ones; reflexivity.
Qed.

Lemma arena_apply_inv a0 a op :
  arena_counts_ok a0 -> arena_inv a0 a -> op_inside a0 op ->
  arena_inv a0 (arena_apply a op).
Proof.
  only_stated_oracles.
  intros Hok Hinv Hop. destruct op as [blocks|blocks bitmap_idx]; cbn in *.
  - destruct (mi_arena_alloc a blocks) as [a1 [bi|]] eqn:Halloc.
    + destruct (mi_arena_alloc_in_range _ _ _ _ _ Hok Hinv Hop Halloc)
        as (_ & _ & Hinv1).
      unfold mi_arena_alloc_from. rewrite Halloc.
      destruct (mi_bitmap_claim _ _ _ _) as [dirty zero]. cbn [fst].
      exact Hinv1.
    + unfold mi_arena_alloc_from. rewrite Halloc. cbn [fst].
      apply mi_arena_alloc_none in Halloc as ->; [exact Hinv| |].
      * destruct Hok as [Hb Hf]. destruct Hinv as (_ & Hfc & _).
        unfold is_size_t. rewrite Hfc.
        rewrite MI_BITMAP_FIELD_BITS_eq in *. lia.
      * now destruct Hinv as (_ & _ & _ & Hs & _).
  - destruct (field_count a <=? mi_bitmap_index_field bitmap_idx);
      [exact Hinv|].
    destruct Hop as (Hb & Hbi & Hin). now apply mi_bitmap_unclaim_inv.
Qed.

Lemma arena_run_inv a0 ops :
  arena_counts_ok a0 -> Forall (op_inside a0) ops ->
  forall a, arena_inv a0 a -> arena_inv a0 (arena_run ops a).
Proof.
  only_stated_oracles.
  intros Hok Hops. induction Hops as [|op ops Hop _ IH]; intros a Hinv;
    [exact Hinv|].
  cbn [arena_run foldl]. apply IH. now apply arena_apply_inv.
Qed.

Lemma mi_huge_arena_init_inv p hsize node beyond :
  is_size_t hsize ->
  let a := mi_huge_arena_init p hsize node beyond in
  arena_counts_ok a /\ arena_inv a a.
Proof.
  intros Hh a.
  pose proof (mi_huge_arena_init_spec p hsize node beyond Hh)
    as (_ & _ & Hb & _ & Hf & _ & _ & Hs & Hlen & Hbits).
  pose proof (huge_arena_counts hsize Hh) as (Hrange & _).
  fold a in Hb, Hf, Hs, Hlen, Hbits. rewrite <- Hb in Hrange.
  split.
  - unfold arena_counts_ok. rewrite SIZE_MODULUS_eq.
    rewrite MI_BITMAP_FIELD_BITS_eq in *. lia.
  - repeat split; try assumption; try lia.
    intros i Hi. rewrite Hbits by lia. apply Z.leb_le. lia.
Qed.

(** Claim C7.  The descriptor of a huge page arena: every call of
    [mi_reserve_huge_os_pages_at] that reserves pages and returns [0] hands
    to [mi_arena_add] a descriptor [a] with
    [field_count a = ceil (block_count a / MI_BITMAP_FIELD_BITS)],
    [is_large], [is_zero_init], [search_idx = 0], and an in-use bitmap of
    [field_count a] fields in which exactly the bits from [block_count a]
    on are set: the [field_count a * MI_BITMAP_FIELD_BITS - block_count a]
    trailing bits of the last field.  After any sequence of allocations
    and of frees in which every free names blocks of the area
    ([bitmap_idx + blocks <= block_count a]), an allocation returns blocks
    below [block_count a] only.  [_mi_arena_free] does not check that
    condition: a free that names trailing bits releases them. *)
Theorem mi_reserve_huge_os_pages_at_descriptor
    (w : world) (pages node timeout_msecs : Z) (w' : world) :
  pages <> 0 ->
  mi_reserve_huge_os_pages_at pages node timeout_msecs w = (0, w') ->
  exists p hsize beyond w0,
    let a := mi_huge_arena_init p hsize (reserve_node node) beyond in
    p <> 0 /\ is_size_t hsize
    /\ mi_arenas w0 = mi_arenas w /\ mi_arena_count w0 = mi_arena_count w
    /\ w' = snd (mi_arena_add a w0)
    /\ start a = p
    /\ block_count a = mi_block_count_of_size hsize
    /\ field_count a = _mi_divide_up (block_count a) MI_BITMAP_FIELD_BITS
    /\ block_count a <= field_count a * MI_BITMAP_FIELD_BITS
                     < block_count a + MI_BITMAP_FIELD_BITS
    /\ is_large a = true /\ is_zero_init a = true /\ search_idx a = 0
    /\ Z.of_nat (length (blocks_map a)) = field_count a
    /\ (forall i, 0 <= i < field_count a * MI_BITMAP_FIELD_BITS ->
         mi_bitmap_bit (blocks_map a) i = (block_count a <=? i))
    /\ (forall ops, Forall (op_inside a) ops ->
         forall blocks a2 bitmap_idx,
           1 <= blocks ->
           mi_arena_alloc (arena_run ops a) blocks = (a2, Some bitmap_idx) ->
           0 <= bitmap_idx /\ bitmap_idx + blocks <= block_count a).
Proof.
  intros Hpages Hrun.
  rewrite mi_reserve_huge_os_pages_at_run in Hrun by assumption.
  cbv zeta in Hrun.
  set (r := os_alloc_huge_os_pages (trace w) pages (reserve_node node) timeout_msecs)
    in *.
  destruct (Z.eqb_spec (wrap (fst (fst r))) 0) as [|Hp];
    [cbn [orb] in Hrun; discriminate|].
  destruct (wrap (snd (fst r)) =? 0); [cbn [orb] in Hrun; discriminate|].
  cbn [orb] in Hrun.
  destruct (wrap (os_alloc _ _) =? 0); [discriminate|].
  injection Hrun as <-.
  set (p := wrap (fst (fst r))) in *. set (hsize := wrap (snd r)) in *.
  assert (Hh : is_size_t hsize) by apply wrap_is_size_t.
  set (w0 := add_event (Ev_os_alloc (mi_huge_arena_asize hsize))
       (add_event (Ev_verbose_reserved (wrap (snd (fst r))))
          (add_event (Ev_os_alloc_huge_os_pages pages (reserve_node node)
                                                timeout_msecs) w))).
  exists p, hsize, (os_alloc_beyond (trace w0) (mi_huge_arena_asize hsize)), w0.
  cbv zeta.
  pose proof (mi_huge_arena_init_spec p hsize (reserve_node node)
                (os_alloc_beyond (trace w0) (mi_huge_arena_asize hsize)) Hh)
    as (Hst & _ & Hb & Hfc & Hf & Hl & Hz & Hs & Hlen & Hbits).
  pose proof (mi_huge_arena_init_inv p hsize (reserve_node node)
                (os_alloc_beyond (trace w0) (mi_huge_arena_asize hsize)) Hh)
    as [Hok Hinv].
  cbv zeta in Hok, Hinv.
  split; [exact Hp|]. split; [exact Hh|].
  split; [reflexivity|]. split; [reflexivity|]. split; [reflexivity|].
  repeat (split; [assumption|]).
  intros ops Hops blocks a2 bi Hblocks Halloc.
  pose proof (arena_run_inv _ _ Hok Hops _ Hinv) as Hinv1.
  pose proof (mi_arena_alloc_in_range _ _ _ _ _ Hok Hinv1 Hblocks Halloc)
    as (H0 & Hin & _).
  split; assumption.
Qed.

(** * Further properties of [arena.c] *)

(** ** Memory ids, in the other direction *)

(** Property X1.
    Decoding a handle whose low byte is not [0] and encoding the result
    gives the handle back. *)
Theorem mi_memid_indices_create (memid : Z) :
  is_size_t memid -> memid mod 256 <> 0 ->
  fst (mi_memid_indices memid) = memid mod 256 - 1
  /\ snd (mi_memid_indices memid) = memid / 256
  /\ mi_memid_create (fst (mi_memid_indices memid))
                     (snd (mi_memid_indices memid)) = memid.
Proof.
  only_stated_oracles.
  unfold is_size_t. rewrite SIZE_MODULUS_eq. intros Hm Hlow.
  pose proof (Z.mod_pos_bound memid 256 ltac:(lia)) as Hb.
  assert (Ha : fst (mi_memid_indices memid) = memid mod 256 - 1).
  { unfold mi_memid_indices. cbn [fst]. rewrite land_255.
    apply wrap_small. rewrite SIZE_MODULUS_eq. lia. }
  assert (Hd : snd (mi_memid_indices memid) = memid / 256).
  { unfold mi_memid_indices, shr. cbn [snd].
    now rewrite Z.shiftr_div_pow2 by lia. }
  split; [exact Ha|]. split; [exact Hd|].
  rewrite Ha, Hd.
  assert (Hq : 0 <= memid / 256 < 72057594037927936)
    by (Z.div_mod_to_equations; lia).
  rewrite mi_memid_create_sum.
  - Z.div_mod_to_equations. lia.
  - lia.
  - unfold is_size_t. rewrite SIZE_MODULUS_eq. lia.
  - unfold shr, shl. rewrite Z.shiftl_mul_pow2 by lia. change (2 ^ 8) with 256.
    rewrite wrap_small by (rewrite SIZE_MODULUS_eq; lia).
    rewrite Z.shiftr_div_pow2 by lia. change (2 ^ 8) with 256.
    Z.div_mod_to_equations. lia.
Qed.

(** Property X2.
    Within the bounds [mi_memid_create] asserts, two pairs with the same
    handle are the same pair. *)
Theorem mi_memid_create_inj (a1 b1 a2 b2 : Z) :
  0 <= a1 < 254 -> 0 <= a2 < 254 ->
  is_size_t b1 -> is_size_t b2 ->
  shr (shl b1 8) 8 = b1 -> shr (shl b2 8) 8 = b2 ->
  mi_memid_create a1 b1 = mi_memid_create a2 b2 ->
  a1 = a2 /\ b1 = b2.
Proof.
  only_stated_oracles.
  intros Ha1 Ha2 Hb1 Hb2 Hr1 Hr2.
  rewrite !mi_memid_create_sum by (auto; lia).
  unfold is_size_t in *. lia.
Qed.

(** ** The block count of an eligible request *)

(** Property X3.
    A size that passes the gate of [_mi_arena_alloc_aligned] needs between
    one block and the blocks of one bitmap field, and the blocks cover the
    size (the assertion that follows the gate). *)
Theorem mi_arena_eligible_block_count (size alignment : Z) :
  mi_arena_eligible size alignment = true ->
  1 <= mi_block_count_of_size size <= MI_BITMAP_FIELD_BITS
  /\ size <= mi_block_count_of_size size * MI_ARENA_BLOCK_SIZE
  /\ mi_block_count_of_size size * MI_ARENA_BLOCK_SIZE
     < size + MI_ARENA_BLOCK_SIZE.
Proof.
  only_stated_oracles.
  intros Hel. apply mi_arena_eligible_iff in Hel as [_ [Hmin Hmax]].
  assert (MI_ARENA_MIN_OBJ_SIZE = 16777216) as Hm by reflexivity.
  assert (MI_ARENA_MAX_OBJ_SIZE = 2147483648) as HM by reflexivity.
  rewrite Hm in Hmin. rewrite HM in Hmax.
  unfold mi_block_count_of_size, _mi_divide_up.
  rewrite MI_ARENA_BLOCK_SIZE_eq, MI_BITMAP_FIELD_BITS_eq.
  Z.div_mod_to_equations. lia.
Qed.

(** ** [_mi_arena_alloc] *)

(** Property X4.
    [_mi_arena_alloc] asks for an alignment of [MI_ARENA_BLOCK_SIZE], which
    is above [MI_SEGMENT_ALIGN]: the gate never lets it try the arenas.
    Every call is one call of [_mi_os_alloc_aligned]; the memory id is
    [MI_MEMID_OS] and the registry is not touched. *)
Theorem mi_arena_alloc_never_uses_arenas
    (size : Z) (commit : bool) (large : option bool) (w : world) :
  let r := _mi_arena_alloc size commit large w in
  mi_arena_eligible size MI_ARENA_BLOCK_SIZE = false
  /\ o_memid (snd (fst r)) = MI_MEMID_OS
  /\ o_is_zero (snd (fst r)) = true
  /\ mi_arenas (snd r) = mi_arenas w
  /\ mi_arena_count (snd r) = mi_arena_count w
  /\ events_since w (snd r)
     = [Ev_os_alloc_aligned size MI_ARENA_BLOCK_SIZE commit
          (fallback_large (default false large) (trace w))].
Proof.
  cbv zeta.
  assert (Hel : mi_arena_eligible size MI_ARENA_BLOCK_SIZE = false).
  { unfold mi_arena_eligible.
    destruct (Z.leb_spec MI_ARENA_BLOCK_SIZE MI_SEGMENT_ALIGN) as [H|_];
      [|reflexivity].
    rewrite MI_ARENA_BLOCK_SIZE_eq in H. exfalso. revert H.
    unfold MI_SEGMENT_ALIGN, MI_SEGMENT_SIZE. lia. }
  split; [exact Hel|].
  unfold _mi_arena_alloc. rewrite mi_arena_alloc_aligned_run. cbv zeta.
  rewrite mi_arena_try_arenas_not_eligible by exact Hel.
  rewrite mi_arena_os_fallback_run.
  cbn [fst snd o_memid o_is_zero o_commit o_large add_event mi_arenas
       mi_arena_count].
  repeat split. unfold events_since. cbn [trace]. apply events_since_app.
Qed.

(** ** What an allocation does to the in-use bitmap *)

Lemma shiftl_claim_mask count bitidx :
  0 <= count -> 0 <= bitidx -> bitidx + count <= MI_BITMAP_FIELD_BITS ->
  Z.shiftl (mi_bitmap_mask_ count 0) bitidx = mi_bitmap_mask_ count bitidx.
Proof.
  only_stated_oracles.
  intros Hc Hb Hfit. apply Z.bits_inj'. intros k Hk.
  rewrite claim_mask_spec, mi_bitmap_mask_spec by assumption.
  rewrite MI_BITMAP_FIELD_BITS_eq in *.
  destruct (Z.ltb_spec k 64), (Z.leb_spec bitidx k),
    (Z.ltb_spec k (bitidx + count)); cbn [andb]; try reflexivity; lia.
Qed.

Lemma arena_wf_fields_ok a : arena_wf a -> arena_fields_ok a.
Proof.
  only_stated_oracles.
  intros (Hs & Hf & Hsi & Hfit). unfold arena_fields_ok.
  rewrite MI_BITMAP_FIELD_BITS_eq, MI_ARENA_BLOCK_SIZE_eq in *.
  repeat split; try assumption. lia.
Qed.

(** A successful [mi_arena_alloc], taken apart: the field, its value
    before, and the bit at which the run starts. *)
Lemma mi_arena_alloc_claim a blocks a' bitmap_idx :
  arena_fields_ok a -> 1 <= blocks ->
  mi_arena_alloc a blocks = (a', Some bitmap_idx) ->
  exists idx map bitidx,
    0 <= idx < field_count a
    /\ 0 <= bitidx /\ bitidx + blocks <= MI_BITMAP_FIELD_BITS
    /\ blocks_map a !! Z.to_nat idx = Some map
    /\ Z.land map (mi_bitmap_mask_ blocks bitidx) = 0
    /\ bitmap_idx = idx * MI_BITMAP_FIELD_BITS + bitidx
    /\ a' = set_search_idx idx
              (set_blocks_map
                 (<[Z.to_nat idx := Z.lor map (mi_bitmap_mask_ blocks bitidx)]>
                    (blocks_map a)) a).
Proof.
  only_stated_oracles.
  intros (Hf & Hsz & Hsi) Hb Halloc.
  assert (Hfsz : is_size_t (field_count a)).
  { unfold is_size_t. rewrite MI_BITMAP_FIELD_BITS_eq in Hsz. lia. }
  apply mi_arena_alloc_some in Halloc as (idx & bm & Hidx & Hclaim & ->);
    try assumption.
  apply mi_bitmap_try_claim_field_some in Hclaim
    as (map & bitidx & Hmap & Hb0 & Hb1 & Hfree & -> & ->).
  rewrite shiftl_claim_mask in * by lia.
  exists idx, map, bitidx. repeat split; try assumption; try lia.
  unfold mi_bitmap_index_create. apply wrap_small.
  rewrite MI_BITMAP_FIELD_BITS_eq in *. nia.
Qed.

Lemma position_in_field idx bitidx i :
  0 <= bitidx ->
  idx * MI_BITMAP_FIELD_BITS + bitidx <= i < idx * MI_BITMAP_FIELD_BITS
                                          + MI_BITMAP_FIELD_BITS ->
  i / MI_BITMAP_FIELD_BITS = idx
  /\ i mod MI_BITMAP_FIELD_BITS = i - idx * MI_BITMAP_FIELD_BITS.
Proof.
  only_stated_oracles.
  rewrite MI_BITMAP_FIELD_BITS_eq. intros Hb Hi. Z.div_mod_to_equations. lia.
Qed.

Lemma mi_arena_alloc_bits
    (a : mi_arena_t) (blocks : Z) (a' : mi_arena_t) (bitmap_idx : Z) :
  arena_fields_ok a -> 1 <= blocks ->
  mi_arena_alloc a blocks = (a', Some bitmap_idx) ->
  0 <= bitmap_idx
  /\ bitmap_idx + blocks <= field_count a * MI_BITMAP_FIELD_BITS
  /\ mi_bitmap_index_field (bitmap_idx + blocks - 1)
     = mi_bitmap_index_field bitmap_idx
  /\ (forall i, bitmap_idx <= i < bitmap_idx + blocks ->
        mi_bitmap_bit (blocks_map a) i = false
        /\ mi_bitmap_bit (blocks_map a') i = true)
  /\ (forall i, 0 <= i -> i < bitmap_idx \/ bitmap_idx + blocks <= i ->
        mi_bitmap_bit (blocks_map a') i = mi_bitmap_bit (blocks_map a) i).
Proof.
  only_stated_oracles.
  intros Hok Hb Halloc.
  destruct (mi_arena_alloc_claim _ _ _ _ Hok Hb Halloc)
    as (idx & map & bitidx & Hidx & Hb0 & Hb1 & Hmap & Hfree & -> & ->).
  assert (Hfb := MI_BITMAP_FIELD_BITS_eq).
  assert (Hlt : (Z.to_nat idx < length (blocks_map a))%nat)
    by (apply lookup_lt_is_Some; eauto).
  split; [nia|]. split; [nia|]. split.
  { unfold mi_bitmap_index_field. rewrite Hfb in *.
    Z.div_mod_to_equations. lia. }
  cbn [blocks_map set_search_idx set_blocks_map].
  split.
  - intros i Hi.
    destruct (position_in_field idx bitidx i Hb0 ltac:(lia)) as [Hq Hr].
    assert (Hmask : Z.testbit (mi_bitmap_mask_ blocks bitidx)
                              (i - idx * MI_BITMAP_FIELD_BITS) = true).
    { rewrite mi_bitmap_mask_spec by lia. rewrite Hfb in *.
      destruct (Z.ltb_spec (i - idx * 64) 64),
        (Z.leb_spec bitidx (i - idx * 64)),
        (Z.ltb_spec (i - idx * 64) (bitidx + blocks));
        cbn [andb]; try reflexivity; lia. }
    split.
    + unfold mi_bitmap_bit. rewrite Hq, Hmap, Hr.
      assert (Hz : Z.testbit (Z.land map (mi_bitmap_mask_ blocks bitidx))
                             (i - idx * MI_BITMAP_FIELD_BITS) = false)
        by (rewrite Hfree; apply Z.bits_0).
      rewrite Z.land_spec, Hmask, andb_true_r in Hz. exact Hz.
    + rewrite mi_bitmap_bit_insert by assumption. rewrite Hq.
      rewrite decide_True by reflexivity.
      rewrite Hr, Z.lor_spec, Hmask. apply orb_true_r.
  - intros i Hi0 Hout. rewrite mi_bitmap_bit_insert by assumption.
    destruct (decide (Z.to_nat (i / MI_BITMAP_FIELD_BITS) = Z.to_nat idx))
      as [He|]; [|reflexivity].
    assert (Hq : i / MI_BITMAP_FIELD_BITS = idx).
    { apply Z2Nat.inj; [rewrite Hfb; Z.div_mod_to_equations; lia|lia|exact He]. }
    unfold mi_bitmap_bit. rewrite Hq, Hmap.
    rewrite Z.lor_spec.
    replace (Z.testbit (mi_bitmap_mask_ blocks bitidx) (i mod MI_BITMAP_FIELD_BITS))
      with false; [apply orb_false_r|].
    symmetry. rewrite mi_bitmap_mask_spec
      by (try lia; rewrite Hfb; Z.div_mod_to_equations; lia).
    rewrite Hfb in *.
    destruct (Z.ltb_spec (i mod 64) 64), (Z.leb_spec bitidx (i mod 64)),
      (Z.ltb_spec (i mod 64) (bitidx + blocks));
      cbn [andb]; try reflexivity; exfalso; Z.div_mod_to_equations; lia.
Qed.

(** Property X5.
    No double allocation: the blocks [mi_arena_alloc] hands out lie in one
    bitmap field, were all free before the call and are all in use after
    it, and the call changes no other bit of the in-use bitmap. *)
Theorem mi_arena_alloc_claims_free_blocks
    (a : mi_arena_t) (blocks : Z) (a' : mi_arena_t) (bitmap_idx : Z) :
  arena_fields_ok a -> 1 <= blocks ->
  mi_arena_alloc a blocks = (a', Some bitmap_idx) ->
  0 <= bitmap_idx
  /\ bitmap_idx + blocks <= field_count a * MI_BITMAP_FIELD_BITS
  /\ mi_bitmap_index_field (bitmap_idx + blocks - 1)
     = mi_bitmap_index_field bitmap_idx
  /\ (forall i, bitmap_idx <= i < bitmap_idx + blocks ->
        mi_bitmap_bit (blocks_map a) i = false
        /\ mi_bitmap_bit (blocks_map a') i = true)
  /\ (forall i, 0 <= i -> i < bitmap_idx \/ bitmap_idx + blocks <= i ->
        mi_bitmap_bit (blocks_map a') i = mi_bitmap_bit (blocks_map a) i).
Proof. only_stated_oracles. apply mi_arena_alloc_bits. Qed.

Lemma mi_arena_alloc_fields_ok a blocks a' bitmap_idx :
  arena_fields_ok a -> 1 <= blocks ->
  mi_arena_alloc a blocks = (a', Some bitmap_idx) ->
  arena_fields_ok a' /\ same_descriptor a a'
  /\ blocks_dirty a' = blocks_dirty a.
Proof.
  only_stated_oracles.
  intros Hok Hb Halloc.
  destruct (mi_arena_alloc_claim _ _ _ _ Hok Hb Halloc)
    as (idx & map & bitidx & Hidx & _ & _ & _ & _ & _ & ->).
  destruct Hok as (Hf & Hsz & Hsi).
  unfold arena_fields_ok, same_descriptor. cbn. repeat split; try assumption; lia.
Qed.

(** Property X6.
    Two allocations one after the other hand out disjoint runs of
    blocks. *)
Theorem mi_arena_alloc_twice_disjoint
    (a : mi_arena_t) (blocks1 blocks2 : Z) (a1 a2 : mi_arena_t) (i1 i2 : Z) :
  arena_fields_ok a -> 1 <= blocks1 -> 1 <= blocks2 ->
  mi_arena_alloc a blocks1 = (a1, Some i1) ->
  mi_arena_alloc a1 blocks2 = (a2, Some i2) ->
  i1 + blocks1 <= i2 \/ i2 + blocks2 <= i1.
Proof.
  only_stated_oracles.
  intros Hok Hb1 Hb2 H1 H2.
  destruct (mi_arena_alloc_fields_ok _ _ _ _ Hok Hb1 H1) as (Hok1 & _ & _).
  destruct (mi_arena_alloc_bits a blocks1 a1 i1 Hok Hb1 H1)
    as (Hp1 & _ & _ & Hset1 & _).
  destruct (mi_arena_alloc_bits a1 blocks2 a2 i2 Hok1 Hb2 H2)
    as (Hp2 & _ & _ & Hset2 & _).
  destruct (Z.le_gt_cases (i1 + blocks1) i2) as [|Hlt]; [now left|].
  destruct (Z.le_gt_cases (i2 + blocks2) i1) as [|Hgt]; [now right|].
  exfalso. set (i := Z.max i1 i2).
  destruct (Hset1 i ltac:(lia)) as [_ Hin].
  destruct (Hset2 i ltac:(lia)) as [Hfree _].
  rewrite Hin in Hfree. discriminate.
Qed.

(** ** Allocation followed by free *)

Lemma ldiff_lor_free map mask :
  Z.land map mask = 0 -> Z.ldiff (Z.lor map mask) mask = map.
Proof.
  only_stated_oracles.
  intros Hfree. apply Z.bits_inj'. intros k Hk.
  assert (Hz : Z.testbit (Z.land map mask) k = false)
    by (rewrite Hfree; apply Z.bits_0).
  rewrite Z.land_spec in Hz. rewrite Z.ldiff_spec, Z.lor_spec.
  destruct (Z.testbit map k), (Z.testbit mask k); try reflexivity; discriminate.
Qed.

Lemma land_lor_mask map mask : Z.land (Z.lor map mask) mask = mask.
Proof.
  only_stated_oracles.
  apply Z.bits_inj'. intros k Hk. rewrite Z.land_spec, Z.lor_spec.
  destruct (Z.testbit map k), (Z.testbit mask k); reflexivity.
Qed.

(** The unclaim [_mi_arena_free] does for the blocks an allocation handed
    out finds all bits set and gives back the in-use bitmap as it was
    before the allocation. *)
Lemma mi_arena_alloc_unclaim a blocks a' bitmap_idx :
  arena_fields_ok a -> 1 <= blocks ->
  mi_arena_alloc a blocks = (a', Some bitmap_idx) ->
  mi_bitmap_unclaim (blocks_map a') (field_count a') blocks bitmap_idx
  = (blocks_map a, true).
Proof.
  only_stated_oracles.
  intros Hok Hb Halloc.
  destruct (mi_arena_alloc_claim _ _ _ _ Hok Hb Halloc)
    as (idx & map & bitidx & Hidx & Hb0 & Hb1 & Hmap & Hfree & -> & ->).
  assert (Hlt : (Z.to_nat idx < length (blocks_map a))%nat)
    by (apply lookup_lt_is_Some; eauto).
  unfold mi_bitmap_unclaim. cbv zeta.
  cbn [blocks_map field_count set_search_idx set_blocks_map].
  unfold mi_bitmap_index_field, mi_bitmap_index_bit_in_field.
  destruct (field_of_position idx bitidx) as [-> ->];
    [rewrite MI_BITMAP_FIELD_BITS_eq in *; lia|].
  rewrite list_lookup_insert_eq by assumption.
  rewrite ldiff_lor_free by assumption.
  rewrite list_insert_insert_eq, list_insert_id by assumption.
  rewrite land_lor_mask, Z.eqb_refl. reflexivity.
Qed.

(** Property X7.
    Round trip inside an arena: after [mi_arena_alloc] hands out blocks,
    the unclaim that [_mi_arena_free] performs for them reports that all
    were in use and leaves the in-use bitmap exactly as it was before the
    allocation. *)
Theorem mi_arena_alloc_then_unclaim
    (a : mi_arena_t) (blocks : Z) (a' : mi_arena_t) (bitmap_idx : Z) :
  arena_fields_ok a -> 1 <= blocks ->
  mi_arena_alloc a blocks = (a', Some bitmap_idx) ->
  mi_bitmap_unclaim (blocks_map a') (field_count a') blocks bitmap_idx
  = (blocks_map a, true)
  /\ mi_bitmap_index_field bitmap_idx < field_count a'.
Proof.
  only_stated_oracles.
  intros Hok Hb Halloc. split; [now apply mi_arena_alloc_unclaim|].
  destruct (mi_arena_alloc_claim _ _ _ _ Hok Hb Halloc)
    as (idx & map & bitidx & Hidx & Hb0 & Hb1 & _ & _ & -> & ->).
  cbn [field_count set_search_idx set_blocks_map].
  unfold mi_bitmap_index_field.
  destruct (field_of_position idx bitidx) as [-> _];
    [rewrite MI_BITMAP_FIELD_BITS_eq in *; lia|lia].
Qed.

(** ** The dirty bitmap and the [is_zero] flag *)

Lemma land_eq_0 prev mask :
  (Z.land prev mask =? 0) = true
  <-> (forall i, 0 <= i -> Z.testbit mask i = true -> Z.testbit prev i = false).
Proof.
  only_stated_oracles.
  rewrite Z.eqb_eq. split.
  - intros Hz i Hi Hm.
    assert (Hb : Z.testbit (Z.land prev mask) i = false)
      by (rewrite Hz; apply Z.bits_0).
    rewrite Z.land_spec, Hm, andb_true_r in Hb. exact Hb.
  - intros Hall. apply Z.bits_inj'. intros i Hi.
    rewrite Z.land_spec, Z.bits_0.
    destruct (Z.testbit mask i) eqn:E; [|apply andb_false_r].
    now rewrite (Hall i Hi E).
Qed.

(** What [mi_bitmap_claim] does to a run that lies in one field. *)
Lemma mi_bitmap_claim_run bitmap fields count idx bitidx prev :
  0 <= idx -> 0 <= bitidx -> 1 <= count ->
  bitidx + count <= MI_BITMAP_FIELD_BITS ->
  bitmap !! Z.to_nat idx = Some prev ->
  let bitmap_idx := idx * MI_BITMAP_FIELD_BITS + bitidx in
  let r := mi_bitmap_claim bitmap fields count bitmap_idx in
  (snd r = true
   <-> forall i, bitmap_idx <= i < bitmap_idx + count ->
         mi_bitmap_bit bitmap i = false)
  /\ (forall i, bitmap_idx <= i < bitmap_idx + count ->
        mi_bitmap_bit (fst r) i = true)
  /\ (forall i, 0 <= i -> mi_bitmap_bit bitmap i = true ->
        mi_bitmap_bit (fst r) i = true)
  /\ length (fst r) = length bitmap.
Proof.
  only_stated_oracles.
  intros Hidx Hb0 Hc Hfit Hprev. cbv zeta.
  assert (Hfb := MI_BITMAP_FIELD_BITS_eq).
  assert (Hlt : (Z.to_nat idx < length bitmap)%nat)
    by (apply lookup_lt_is_Some; eauto).
  unfold mi_bitmap_claim. cbv zeta.
  unfold mi_bitmap_index_field, mi_bitmap_index_bit_in_field.
  destruct (field_of_position idx bitidx) as [-> ->]; [lia|].
  rewrite Hprev. cbn [fst snd].
  assert (Hmask : forall i, idx * MI_BITMAP_FIELD_BITS + bitidx <= i
                            < idx * MI_BITMAP_FIELD_BITS + bitidx + count ->
     i / MI_BITMAP_FIELD_BITS = idx
     /\ Z.testbit (mi_bitmap_mask_ count bitidx) (i mod MI_BITMAP_FIELD_BITS)
        = true).
  { intros i Hi.
    destruct (position_in_field idx bitidx i Hb0 ltac:(lia)) as [Hq Hr].
    split; [exact Hq|]. rewrite Hr, mi_bitmap_mask_spec by lia.
    rewrite Hfb in *.
    destruct (Z.ltb_spec (i - idx * 64) 64),
      (Z.leb_spec bitidx (i - idx * 64)),
      (Z.ltb_spec (i - idx * 64) (bitidx + count));
      cbn [andb]; try reflexivity; lia. }
  split; [|split; [|split]].
  - rewrite land_eq_0. split.
    + intros Hall i Hi. destruct (Hmask i Hi) as [Hq Hm].
      unfold mi_bitmap_bit. rewrite Hq, Hprev.
      apply Hall; [|exact Hm]. rewrite Hfb. Z.div_mod_to_equations. lia.
    + intros Hall k Hk Hm.
      rewrite mi_bitmap_mask_spec in Hm by lia.
      apply andb_true_iff in Hm as [_ Hm].
      apply andb_true_iff in Hm as [Hge Hlt2].
      apply Z.leb_le in Hge. apply Z.ltb_lt in Hlt2.
      specialize (Hall (idx * MI_BITMAP_FIELD_BITS + k) ltac:(lia)).
      unfold mi_bitmap_bit in Hall.
      destruct (field_of_position idx k) as [Hq Hr]; [lia|].
      now rewrite Hq, Hprev, Hr in Hall.
  - intros i Hi. destruct (Hmask i Hi) as [Hq Hm].
    rewrite mi_bitmap_bit_insert by assumption. rewrite Hq.
    rewrite decide_True by reflexivity.
    rewrite Z.lor_spec, Hm. apply orb_true_r.
  - intros i Hi Hset. rewrite mi_bitmap_bit_insert by assumption.
    destruct (decide (Z.to_nat (i / MI_BITMAP_FIELD_BITS) = Z.to_nat idx))
      as [He|]; [|exact Hset].
    unfold mi_bitmap_bit in Hset. rewrite He, Hprev in Hset.
    rewrite Z.lor_spec, Hset. reflexivity.
  - apply length_insert.
Qed.

(** What [mi_arena_alloc_from] returns when [mi_arena_alloc] succeeds. *)
Lemma mi_arena_alloc_from_success a arena_index blocks o a1 bitmap_idx :
  mi_arena_alloc a blocks = (a1, Some bitmap_idx) ->
  let r := mi_bitmap_claim (blocks_dirty a1) (field_count a1) blocks bitmap_idx in
  mi_arena_alloc_from a arena_index blocks o
  = (set_blocks_dirty (fst r) a1,
     mk_outs true (is_large a1) (snd r) (mi_memid_create arena_index bitmap_idx),
     wrap (start a1 + mi_bitmap_index_bit bitmap_idx * MI_ARENA_BLOCK_SIZE)).
Proof.
  only_stated_oracles.
  intros Halloc. cbv zeta. unfold mi_arena_alloc_from. rewrite Halloc.
  destruct (mi_bitmap_claim _ _ _ _). reflexivity.
Qed.

(** Property X8.
    The [is_zero] flag of an arena allocation: it is [true] exactly when
    no block of the run was marked dirty before, and the call marks every
    block of the run dirty and keeps every dirty mark there was. *)
Theorem mi_arena_alloc_from_is_zero
    (a : mi_arena_t) (arena_index blocks : Z) (o : outs)
    (a1 : mi_arena_t) (bitmap_idx : Z) :
  let r := mi_arena_alloc_from a arena_index blocks o in
  arena_fields_ok a -> 1 <= blocks ->
  Z.of_nat (length (blocks_dirty a)) = field_count a ->
  mi_arena_alloc a blocks = (a1, Some bitmap_idx) ->
  (o_is_zero (snd (fst r)) = true
   <-> forall i, bitmap_idx <= i < bitmap_idx + blocks ->
         mi_bitmap_bit (blocks_dirty a) i = false)
  /\ (forall i, bitmap_idx <= i < bitmap_idx + blocks ->
        mi_bitmap_bit (blocks_dirty (fst (fst r))) i = true)
  /\ (forall i, 0 <= i -> mi_bitmap_bit (blocks_dirty a) i = true ->
        mi_bitmap_bit (blocks_dirty (fst (fst r))) i = true)
  /\ blocks_map (fst (fst r)) = blocks_map a1.
Proof.
  only_stated_oracles.
  intros r Hok Hb Hlen Halloc. subst r.
  rewrite (mi_arena_alloc_from_success _ _ _ _ _ _ Halloc).
  destruct (mi_arena_alloc_fields_ok _ _ _ _ Hok Hb Halloc)
    as (_ & _ & Hdirty).
  destruct (mi_arena_alloc_claim _ _ _ _ Hok Hb Halloc)
    as (idx & map & bitidx & Hidx & Hb0 & Hb1 & _ & _ & Hbi & _).
  cbn [fst snd o_is_zero blocks_dirty blocks_map set_blocks_dirty].
  rewrite Hdirty, Hbi.
  destruct (blocks_dirty a !! Z.to_nat idx) as [prev|] eqn:Hprev;
    [|apply lookup_ge_None in Hprev; lia].
  destruct (mi_bitmap_claim_run (blocks_dirty a) (field_count a1) blocks idx
              bitidx prev ltac:(lia) Hb0 Hb Hb1 Hprev) as (Hz & Hset & Hkeep & _).
  repeat split; try assumption; apply Hz.
Qed.

(** ** Which arena serves a request *)

(** In a well-formed arena the pointer of claimed blocks is not [NULL] and
    does not wrap. *)
Lemma mi_arena_alloc_pointer a blocks a1 bitmap_idx :
  arena_wf a -> 1 <= blocks ->
  mi_arena_alloc a blocks = (a1, Some bitmap_idx) ->
  wrap (start a1 + mi_bitmap_index_bit bitmap_idx * MI_ARENA_BLOCK_SIZE)
  = start a + bitmap_idx * MI_ARENA_BLOCK_SIZE
  /\ 0 < start a + bitmap_idx * MI_ARENA_BLOCK_SIZE
  /\ start a1 = start a /\ is_large a1 = is_large a.
Proof.
  only_stated_oracles.
  intros Hwf Hb Halloc.
  pose proof (mi_arena_alloc_position _ _ _ _ Hwf Hb Halloc) as [Hb0 Hb1].
  pose proof (arena_wf_fields_ok _ Hwf) as Hok.
  destruct (mi_arena_alloc_fields_ok _ _ _ _ Hok Hb Halloc)
    as (_ & (Hst & _ & _ & _ & _ & Hl) & _).
  destruct Hwf as (Hs & Hf & Hsi & Hfit).
  unfold mi_bitmap_index_bit. rewrite Hst.
  rewrite MI_BITMAP_FIELD_BITS_eq, MI_ARENA_BLOCK_SIZE_eq in *.
  split; [apply wrap_small; nia|]. split; [nia|]. split; [reflexivity|assumption].
Qed.

Lemma mi_arena_alloc_from_null_none a arena_index blocks o a' o' :
  arena_wf a -> 1 <= blocks ->
  mi_arena_alloc_from a arena_index blocks o = (a', o', 0) ->
  snd (mi_arena_alloc a blocks) = None.
Proof.
  only_stated_oracles.
  intros Hwf Hb Hfrom.
  destruct (mi_arena_alloc a blocks) as [a1 [bi|]] eqn:Halloc; [|reflexivity].
  rewrite (mi_arena_alloc_from_success _ _ _ _ _ _ Halloc) in Hfrom.
  cbv zeta in Hfrom. injection Hfrom as _ _ Hp.
  destruct (mi_arena_alloc_pointer _ _ _ _ Hwf Hb Halloc) as (Hw & Hpos & _).
  rewrite Hw in Hp. lia.
Qed.

Lemma mi_arena_alloc_from_nonnull a arena_index blocks o a' o' p :
  p <> 0 ->
  mi_arena_alloc_from a arena_index blocks o = (a', o', p) ->
  exists a1 bitmap_idx, mi_arena_alloc a blocks = (a1, Some bitmap_idx).
Proof.
  only_stated_oracles.
  intros Hp. unfold mi_arena_alloc_from.
  destruct (mi_arena_alloc a blocks) as [a1 [bi|]]; [eauto|].
  intros [= _ _ H0]. congruence.
Qed.

(** A loop over the registry that returns a pointer: the slot that served,
    and the slots before it, which the loop went past. *)
Lemma mi_arena_scan_some nl n :
  forall i bcount node o w p o' w',
  registry_wf w -> 1 <= bcount -> 0 <= i ->
  mi_arena_scan nl n i bcount node o w = (Some p, o', w') ->
  exists j arena arena',
    i <= j < i + Z.of_nat n
    /\ mi_arenas w !! Z.to_nat j = Some (Some arena)
    /\ mi_arena_suitable nl arena node (o_large o) = true
    /\ mi_arena_alloc_from arena j bcount o = (arena', o', p)
    /\ p <> 0
    /\ w' = set_mi_arenas (<[Z.to_nat j := Some arena']> (mi_arenas w)) w
    /\ forall k, i <= k < j ->
         exists a_k, mi_arenas w !! Z.to_nat k = Some (Some a_k)
           /\ (mi_arena_suitable nl a_k node (o_large o) = true ->
               snd (mi_arena_alloc a_k bcount) = None).
Proof.
  only_stated_oracles.
  induction n as [|n IH]; intros i bcount node o w p o' w' Hwf Hb Hi;
    cbn [mi_arena_scan]; [discriminate|].
  destruct (mi_arenas w !! Z.to_nat i) as [[arena|]|] eqn:Hslot;
    try discriminate.
  destruct (mi_arena_suitable nl arena node (o_large o)) eqn:Hsuit.
  - destruct (mi_arena_alloc_from arena i bcount o) as [[arena' o1] p0] eqn:Hfrom.
    destruct (Z.eqb_spec p0 0) as [->|Hp0]; cbn [negb].
    + pose proof (mi_arena_alloc_from_null_none _ _ _ _ _ _
                    (Hwf _ _ Hslot) Hb Hfrom) as Hnone.
      apply mi_arena_alloc_from_null in Hfrom as [-> ->];
        [|now apply (Hwf _ _ Hslot)|assumption].
      rewrite list_insert_id by assumption.
      replace (set_mi_arenas (mi_arenas w) w) with w by now destruct w.
      intros Hrec. apply IH in Hrec
        as (j & a & a' & Hj & Hsj & Hsuitj & Hfromj & Hp & Hw' & Hpre);
        [|assumption|assumption|lia].
      exists j, a, a'. repeat split; try assumption; try lia.
      intros k Hk. destruct (Z.eq_dec k i) as [->|Hne].
      * exists arena. split; [assumption|]. intros _. exact Hnone.
      * apply Hpre. lia.
    + intros [= <- <- <-]. exists i, arena, arena'.
      repeat split; try assumption; try lia.
  - intros Hrec. apply IH in Hrec
      as (j & a & a' & Hj & Hsj & Hsuitj & Hfromj & Hp & Hw' & Hpre);
      [|assumption|assumption|lia].
    exists j, a, a'. repeat split; try assumption; try lia.
    intros k Hk. destruct (Z.eq_dec k i) as [->|Hne].
    + exists arena. split; [assumption|]. rewrite Hsuit. discriminate.
    + apply Hpre. lia.
Qed.

(** A loop over the registry that returns no pointer: no suitable arena
    in the slots in use from its first slot on could serve. *)
Lemma mi_arena_scan_none_all nl n :
  forall i bcount node o w o' w',
  registry_wf w -> 1 <= bcount -> 0 <= i ->
  mi_arena_scan nl n i bcount node o w = (None, o', w') ->
  forall k a_k,
    i <= k < i + Z.of_nat n ->
    (forall k', i <= k' <= k -> slot_published w (Z.to_nat k')) ->
    mi_arenas w !! Z.to_nat k = Some (Some a_k) ->
    mi_arena_suitable nl a_k node (o_large o) = true ->
    snd (mi_arena_alloc a_k bcount) = None.
Proof.
  only_stated_oracles.
  induction n as [|n IH]; intros i bcount node o w o' w' Hwf Hb Hi;
    cbn [mi_arena_scan]; [intros _ k a_k Hk; lia|].
  destruct (mi_arenas w !! Z.to_nat i) as [[arena|]|] eqn:Hslot.
  - destruct (mi_arena_suitable nl arena node (o_large o)) eqn:Hsuit.
    + destruct (mi_arena_alloc_from arena i bcount o) as [[arena' o1] p0] eqn:Hfrom.
      destruct (Z.eqb_spec p0 0) as [->|Hp0]; cbn [negb]; [|discriminate].
      pose proof (mi_arena_alloc_from_null_none _ _ _ _ _ _
                    (Hwf _ _ Hslot) Hb Hfrom) as Hnone.
      apply mi_arena_alloc_from_null in Hfrom as [-> ->];
        [|now apply (Hwf _ _ Hslot)|assumption].
      rewrite list_insert_id by assumption.
      replace (set_mi_arenas (mi_arenas w) w) with w by now destruct w.
      intros Hrec k a_k Hk Hpub Hsk Hsuitk.
      destruct (Z.eq_dec k i) as [->|Hne].
      * rewrite Hslot in Hsk. injection Hsk as <-. exact Hnone.
      * eapply (IH (i + 1)); try eassumption; try lia.
        intros k' Hk'. apply Hpub. lia.
    + intros Hrec k a_k Hk Hpub Hsk Hsuitk.
      destruct (Z.eq_dec k i) as [->|Hne].
      * rewrite Hslot in Hsk. injection Hsk as <-. congruence.
      * eapply (IH (i + 1)); try eassumption; try lia.
        intros k' Hk'. apply Hpub. lia.
  - intros _ k a_k Hk Hpub _ _. exfalso.
    destruct (Hpub i ltac:(lia)) as [a Ha]. congruence.
  - intros _ k a_k Hk Hpub _ _. exfalso.
    destruct (Hpub i ltac:(lia)) as [a Ha]. congruence.
Qed.

Lemma mi_memid_decode_create a b :
  0 <= a < 254 -> is_size_t b -> shr (shl b 8) 8 = b ->
  mi_memid_indices (mi_memid_create a b) = (a, b)
  /\ 0 < mi_memid_create a b.
Proof.
  only_stated_oracles.
  intros Ha Hb Hrt. pose proof Hb as Hb'. unfold is_size_t in Hb'.
  rewrite mi_memid_create_sum by (auto; lia). split; [|lia].
  unfold mi_memid_indices, shr. f_equal.
  - rewrite land_255.
    replace ((b * 256 + (a + 1)) mod 256) with (a + 1)
      by (Z.div_mod_to_equations; lia).
    rewrite wrap_small by (rewrite SIZE_MODULUS_eq; lia). lia.
  - rewrite Z.shiftr_div_pow2 by lia. change (2 ^ 8) with 256.
    Z.div_mod_to_equations. lia.
Qed.

Lemma position_fits_memid b :
  0 <= b < 549755813888 -> is_size_t b /\ shr (shl b 8) 8 = b.
Proof.
  only_stated_oracles.
  intros Hb. split; [unfold is_size_t; rewrite SIZE_MODULUS_eq; lia|].
  unfold shr, shl. rewrite Z.shiftl_mul_pow2 by lia. change (2 ^ 8) with 256.
  rewrite wrap_small by (rewrite SIZE_MODULUS_eq; lia).
  rewrite Z.shiftr_div_pow2 by lia. change (2 ^ 8) with 256.
  Z.div_mod_to_equations. lia.
Qed.

Lemma mi_arena_suitable_iff nl a node large :
  mi_arena_suitable nl a node large = true
  <-> (if nl then numa_local a node else ~ numa_local a node)
      /\ (large = true \/ is_large a = false).
Proof.
  only_stated_oracles.
  unfold mi_arena_suitable, numa_local.
  rewrite andb_true_iff, orb_true_iff, negb_true_iff.
  destruct nl.
  - rewrite orb_true_iff, Z.ltb_lt, Z.eqb_eq. tauto.
  - rewrite andb_true_iff, negb_true_iff, Z.leb_le, Z.eqb_neq. split.
    + intros [[H0 Hne] Hl]. split; [lia|exact Hl].
    + intros [Hn Hl]. split; [|exact Hl]. split; lia.
Qed.

(** A call of [_mi_arena_alloc_aligned] that returns a memory id other
    than [MI_MEMID_OS], taken apart: the loop and the slot that served,
    the claim in that arena, the result, and the arenas the loops went
    past. *)
Lemma mi_arena_alloc_aligned_served size alignment commit large w :
  let bcount := mi_block_count_of_size size in
  let node := os_numa_node (trace w) in
  let l := default false large in
  registry_wf w ->
  o_memid (snd (fst (_mi_arena_alloc_aligned size alignment commit large w)))
    <> MI_MEMID_OS ->
  mi_arena_eligible size alignment = true
  /\ exists nl j arena a1 bitmap_idx,
       0 <= j < MI_MAX_ARENAS
       /\ mi_arenas w !! Z.to_nat j = Some (Some arena)
       /\ mi_arena_suitable nl arena node l = true
       /\ mi_arena_alloc arena bcount = (a1, Some bitmap_idx)
       /\ _mi_arena_alloc_aligned size alignment commit large w
          = (start arena + bitmap_idx * MI_ARENA_BLOCK_SIZE,
             mk_outs true (is_large arena)
               (snd (mi_bitmap_claim (blocks_dirty a1) (field_count a1)
                                     bcount bitmap_idx))
               (mi_memid_create j bitmap_idx),
             set_mi_arenas
               (<[Z.to_nat j :=
                    Some (set_blocks_dirty
                            (fst (mi_bitmap_claim (blocks_dirty a1)
                                    (field_count a1) bcount bitmap_idx)) a1)]>
                  (mi_arenas w))
               (add_event Ev_os_numa_node w))
       /\ (forall k, 0 <= k < j ->
             exists a_k, mi_arenas w !! Z.to_nat k = Some (Some a_k)
               /\ (mi_arena_suitable nl a_k node l = true ->
                   snd (mi_arena_alloc a_k bcount) = None))
       /\ (nl = false ->
           forall k a_k, 0 <= k < MI_MAX_ARENAS ->
             (forall k', 0 <= k' <= k -> slot_published w (Z.to_nat k')) ->
             mi_arenas w !! Z.to_nat k = Some (Some a_k) ->
             mi_arena_suitable true a_k node l = true ->
             snd (mi_arena_alloc a_k bcount) = None).
Proof.
  intros bcount node l Hwf.
  rewrite mi_arena_alloc_aligned_run. cbv zeta. fold l.
  set (o0 := mk_outs commit l false MI_MEMID_OS).
  destruct (mi_arena_try_arenas size alignment o0 w) as [[[p|] o1] w1] eqn:Htry.
  2:{ rewrite mi_arena_os_fallback_run. cbn [fst snd o_memid]. congruence. }
  intros _. revert Htry. unfold mi_arena_try_arenas.
  destruct (mi_arena_eligible size alignment) eqn:Hel; [|discriminate].
  intros Htry. split; [reflexivity|]. revert Htry.
  assert (Hb : 1 <= bcount).
  { apply mi_arena_eligible_iff in Hel as [_ [Hmin _]].
    unfold bcount, mi_block_count_of_size, _mi_divide_up.
    assert (MI_ARENA_MIN_OBJ_SIZE = 16777216) as Hm by reflexivity.
    rewrite Hm in Hmin. rewrite MI_ARENA_BLOCK_SIZE_eq.
    apply Z.div_le_lower_bound; lia. }
  unfold bind, _mi_os_numa_node. fold node. fold bcount.
  set (w0 := add_event Ev_os_numa_node w).
  assert (Hwf0 : registry_wf w0) by exact Hwf.
  assert (Hserved : forall nl o' w',
    mi_arena_scan nl (Z.to_nat MI_MAX_ARENAS) 0 bcount node o0 w0
      = (Some p, o', w') ->
    exists j arena a1 bitmap_idx,
       0 <= j < MI_MAX_ARENAS
       /\ mi_arenas w !! Z.to_nat j = Some (Some arena)
       /\ mi_arena_suitable nl arena node l = true
       /\ mi_arena_alloc arena bcount = (a1, Some bitmap_idx)
       /\ (p, o', w')
          = (start arena + bitmap_idx * MI_ARENA_BLOCK_SIZE,
             mk_outs true (is_large arena)
               (snd (mi_bitmap_claim (blocks_dirty a1) (field_count a1)
                                     bcount bitmap_idx))
               (mi_memid_create j bitmap_idx),
             set_mi_arenas
               (<[Z.to_nat j :=
                    Some (set_blocks_dirty
                            (fst (mi_bitmap_claim (blocks_dirty a1)
                                    (field_count a1) bcount bitmap_idx)) a1)]>
                  (mi_arenas w)) w0)
       /\ (forall k, 0 <= k < j ->
             exists a_k, mi_arenas w !! Z.to_nat k = Some (Some a_k)
               /\ (mi_arena_suitable nl a_k node l = true ->
                   snd (mi_arena_alloc a_k bcount) = None))).
  { intros nl o' w' Hscan.
    apply mi_arena_scan_some in Hscan
      as (j & arena & arena' & Hj & Hslot & Hsuit & Hfrom & Hp & -> & Hpre);
      [|assumption|assumption|lia].
    destruct (mi_arena_alloc_from_nonnull _ _ _ _ _ _ _ Hp Hfrom)
      as (a1 & bi & Halloc).
    rewrite (mi_arena_alloc_from_success _ _ _ _ _ _ Halloc) in Hfrom.
    cbv zeta in Hfrom. injection Hfrom as <- <- <-.
    destruct (mi_arena_alloc_pointer _ _ _ _ (Hwf _ _ Hslot) Hb Halloc)
      as (Hw & _ & _ & Hl).
    exists j, arena, a1, bi. rewrite Hw, Hl.
    change (Z.of_nat (Z.to_nat MI_MAX_ARENAS)) with MI_MAX_ARENAS in Hj.
    repeat split; try assumption; try lia. }
  destruct (mi_arena_scan true _ _ _ _ _ _) as [[[p1|] o1'] w1'] eqn:E1.
  - intros [= -> -> ->].
    destruct (Hserved true _ _ E1)
      as (j & arena & a1 & bi & Hj & Hslot & Hsuit & Halloc & Hres & Hpre).
    injection Hres as -> -> ->.
    exists true, j, arena, a1, bi.
    repeat split; try assumption; try lia; discriminate.
  - pose proof E1 as E1'.
    apply mi_arena_scan_none in E1' as [-> ->]; [|assumption..].
    intros E2.
    destruct (Hserved false _ _ E2)
      as (j & arena & a1 & bi & Hj & Hslot & Hsuit & Halloc & Hres & Hpre).
    injection Hres as -> -> ->.
    exists false, j, arena, a1, bi.
    repeat split; try assumption; try lia.
    intros _ k a_k Hk Hpub Hsk Hsuitk.
    eapply (mi_arena_scan_none_all true (Z.to_nat MI_MAX_ARENAS) 0 bcount node
              o0 w0 o0 w0 Hwf0 Hb ltac:(lia) E1 k a_k); try eassumption.
Qed.

Lemma mi_arena_eligible_block_count_aux size alignment :
  mi_arena_eligible size alignment = true ->
  1 <= mi_block_count_of_size size
  /\ size <= mi_block_count_of_size size * MI_ARENA_BLOCK_SIZE.
Proof.
  only_stated_oracles.
  intros Hel. apply mi_arena_eligible_iff in Hel as [_ [Hmin Hmax]].
  assert (MI_ARENA_MIN_OBJ_SIZE = 16777216) as Hm by reflexivity.
  rewrite Hm in Hmin.
  unfold mi_block_count_of_size, _mi_divide_up.
  rewrite MI_ARENA_BLOCK_SIZE_eq.
  Z.div_mod_to_equations. lia.
Qed.

(** ** The arenas are tried exactly for the requests that pass the gate *)




(** Property X9.
    A request served from an arena: the memory id decodes to the slot of
    the arena and to the position of the claimed blocks, the pointer is the
    address of the first claimed block, the blocks lie in the area of the
    arena, cover the size, were free before and are in use after, [commit]
    is [true] and [large] tells whether the arena has large pages.  Only
    the slot of that arena changes, and the OS is not asked for memory. *)
Theorem mi_arena_alloc_aligned_from_arena
    (size alignment : Z) (commit : bool) (large : option bool) (w : world) :
  let r := _mi_arena_alloc_aligned size alignment commit large w in
  let p := fst (fst r) in
  let o := snd (fst r) in
  let bcount := mi_block_count_of_size size in
  registry_wf w -> o_memid o <> MI_MEMID_OS ->
  exists j arena arena' bitmap_idx,
    0 <= j < MI_MAX_ARENAS
    /\ mi_arenas w !! Z.to_nat j = Some (Some arena)
    /\ mi_memid_indices (o_memid o) = (j, bitmap_idx)
    /\ p = start arena + bitmap_idx * MI_ARENA_BLOCK_SIZE
    /\ 0 <= bitmap_idx
    /\ bitmap_idx + bcount <= field_count arena * MI_BITMAP_FIELD_BITS
    /\ size <= bcount * MI_ARENA_BLOCK_SIZE
    /\ (forall i, bitmap_idx <= i < bitmap_idx + bcount ->
          mi_bitmap_bit (blocks_map arena) i = false
          /\ mi_bitmap_bit (blocks_map arena') i = true)
    /\ o_commit o = true /\ o_large o = is_large arena
    /\ mi_arenas (snd r) = <[Z.to_nat j := Some arena']> (mi_arenas w)
    /\ same_descriptor arena arena'
    /\ mi_arena_count (snd r) = mi_arena_count w
    /\ events_since w (snd r) = [Ev_os_numa_node].
Proof.
  intros r p o bcount Hwf Hmemid. subst r p o.
  destruct (mi_arena_alloc_aligned_served size alignment commit large w Hwf Hmemid)
    as (Hel & nl & j & arena & a1 & bi & Hj & Hslot & Hsuit & Halloc & Hrun & _).
  rewrite Hrun. cbn [fst snd o_memid o_commit o_large].
  fold bcount in Halloc |- *.
  destruct (mi_arena_eligible_block_count_aux size alignment Hel) as (Hb & Hcover).
  fold bcount in Hb, Hcover.
  pose proof (Hwf _ _ Hslot) as Hawf.
  pose proof (arena_wf_fields_ok _ Hawf) as Hok.
  destruct (mi_arena_alloc_bits _ _ _ _ Hok Hb Halloc)
    as (Hb0 & Hb1 & _ & Hbits & _).
  destruct (mi_arena_alloc_fields_ok _ _ _ _ Hok Hb Halloc) as (_ & Hsame & _).
  assert (Hfit : 0 <= bi < 549755813888).
  { destruct Hawf as (Hs & Hf & _ & Hfit).
    rewrite MI_BITMAP_FIELD_BITS_eq, MI_ARENA_BLOCK_SIZE_eq, SIZE_MODULUS_eq in *.
    lia. }
  destruct (position_fits_memid bi Hfit) as [Hsz Hrt].
  destruct (mi_memid_decode_create j bi) as [Hdec _];
    [unfold MI_MAX_ARENAS in Hj; lia|assumption..|].
  exists j, arena,
    (set_blocks_dirty
       (fst (mi_bitmap_claim (blocks_dirty a1) (field_count a1) bcount bi)) a1),
    bi.
  cbn [blocks_map set_blocks_dirty].
  repeat split; try assumption; try lia; try apply Hbits; try apply Hsame;
    try assumption.
  unfold events_since. cbn [trace set_mi_arenas add_event].
  apply events_since_app.
Qed.

(** Property X10.
    The pointer of a request served from an arena is a multiple of the
    alignment asked for, when the alignment divides [MI_SEGMENT_ALIGN] and
    the arenas start at multiples of [MI_SEGMENT_ALIGN] (the assertions
    after the two calls of [mi_arena_alloc_from]). *)
Theorem mi_arena_alloc_aligned_pointer_aligned
    (size alignment : Z) (commit : bool) (large : option bool) (w : world) :
  let r := _mi_arena_alloc_aligned size alignment commit large w in
  registry_wf w -> registry_aligned w ->
  (alignment | MI_SEGMENT_ALIGN) ->
  o_memid (snd (fst r)) <> MI_MEMID_OS ->
  (alignment | fst (fst r)) /\ fst (fst r) <> 0.
Proof.
  intros r Hwf Hal Hdiv Hmemid. subst r.
  destruct (mi_arena_alloc_aligned_served size alignment commit large w Hwf Hmemid)
    as (Hel & nl & j & arena & a1 & bi & Hj & Hslot & Hsuit & Halloc & Hrun & _).
  rewrite Hrun. cbn [fst].
  destruct (mi_arena_eligible_block_count_aux size alignment Hel) as (Hb & _).
  destruct (mi_arena_alloc_pointer _ _ _ _ (Hwf _ _ Hslot) Hb Halloc)
    as (_ & Hpos & _).
  split; [|lia].
  apply Z.divide_add_r.
  - apply Z.divide_trans with MI_SEGMENT_ALIGN; [assumption|].
    exact (Hal _ _ Hslot).
  - apply Z.divide_mul_r.
    apply Z.divide_trans with MI_SEGMENT_ALIGN; [assumption|].
    exists 8. reflexivity.
Qed.

(** Property X11.
    Large-page safety: a request that does not allow large OS pages
    ([large] is [NULL] or points to [false]) is never served from an arena
    of large pages, and the flag it gets back is [false]. *)
Theorem mi_arena_alloc_aligned_large_safety
    (size alignment : Z) (commit : bool) (large : option bool) (w : world) :
  let r := _mi_arena_alloc_aligned size alignment commit large w in
  registry_wf w -> default false large = false ->
  o_memid (snd (fst r)) <> MI_MEMID_OS ->
  exists arena,
    mi_arenas w !! Z.to_nat (fst (mi_memid_indices (o_memid (snd (fst r)))))
      = Some (Some arena)
    /\ is_large arena = false
    /\ o_large (snd (fst r)) = false.
Proof.
  intros r Hwf Hlarge Hmemid. subst r.
  destruct (mi_arena_alloc_aligned_served size alignment commit large w Hwf Hmemid)
    as (Hel & nl & j & arena & a1 & bi & Hj & Hslot & Hsuit & Halloc & Hrun & _).
  rewrite Hrun. cbn [fst snd o_memid o_large].
  destruct (mi_arena_eligible_block_count_aux size alignment Hel) as (Hb & _).
  pose proof (Hwf _ _ Hslot) as Hawf.
  pose proof (mi_arena_alloc_position _ _ _ _ Hawf Hb Halloc) as [Hb0 Hb1].
  assert (Hfit : 0 <= bi < 549755813888).
  { destruct Hawf as (Hs & Hf & _ & Hfit).
    rewrite MI_BITMAP_FIELD_BITS_eq, MI_ARENA_BLOCK_SIZE_eq, SIZE_MODULUS_eq in *.
    lia. }
  destruct (position_fits_memid bi Hfit) as [Hsz Hrt].
  destruct (mi_memid_decode_create j bi) as [Hdec _];
    [unfold MI_MAX_ARENAS in Hj; lia|assumption..|].
  rewrite Hdec. cbn [fst].
  apply mi_arena_suitable_iff in Hsuit as [_ [Hl|Hl]]; [congruence|].
  exists arena. repeat split; assumption.
Qed.

(** Property X12.
    NUMA preference and first fit: when a request is served from an arena
    that is not local to the current NUMA node, no arena in use that is
    local (and compatible with the large-page flag) could serve it; and
    among the arenas of the same loop, none at a lower slot could. *)
Theorem mi_arena_alloc_aligned_numa_preference
    (size alignment : Z) (commit : bool) (large : option bool) (w : world) :
  let r := _mi_arena_alloc_aligned size alignment commit large w in
  let bcount := mi_block_count_of_size size in
  let node := os_numa_node (trace w) in
  let l := default false large in
  registry_wf w -> registry_inv w ->
  o_memid (snd (fst r)) <> MI_MEMID_OS ->
  exists j arena,
    fst (mi_memid_indices (o_memid (snd (fst r)))) = j
    /\ mi_arenas w !! Z.to_nat j = Some (Some arena)
    /\ (~ numa_local arena node ->
        forall (k : nat) a_k,
          mi_arenas w !! k = Some (Some a_k) ->
          numa_local a_k node -> l = true \/ is_large a_k = false ->
          snd (mi_arena_alloc a_k bcount) = None)
    /\ (forall (k : nat) a_k,
          Z.of_nat k < j -> mi_arenas w !! k = Some (Some a_k) ->
          (numa_local a_k node <-> numa_local arena node) ->
          l = true \/ is_large a_k = false ->
          snd (mi_arena_alloc a_k bcount) = None).
Proof.
  intros r bcount node l Hwf Hinv Hmemid. subst r.
  destruct (mi_arena_alloc_aligned_served size alignment commit large w Hwf Hmemid)
    as (Hel & nl & j & arena & a1 & bi & Hj & Hslot & Hsuit & Halloc & Hrun
        & Hpre & Hlocal).
  fold bcount node l in Hsuit, Halloc, Hpre, Hlocal.
  rewrite Hrun. cbn [fst snd o_memid].
  destruct (mi_arena_eligible_block_count_aux size alignment Hel) as (Hb & _).
  pose proof (Hwf _ _ Hslot) as Hawf.
  pose proof (mi_arena_alloc_position _ _ _ _ Hawf Hb Halloc) as [Hb0 Hb1].
  assert (Hfit : 0 <= bi < 549755813888).
  { destruct Hawf as (Hs & Hf & _ & Hfit).
    rewrite MI_BITMAP_FIELD_BITS_eq, MI_ARENA_BLOCK_SIZE_eq, SIZE_MODULUS_eq in *.
    lia. }
  destruct (position_fits_memid bi Hfit) as [Hsz Hrt].
  destruct (mi_memid_decode_create j bi) as [Hdec _];
    [unfold MI_MAX_ARENAS in Hj; lia|assumption..|].
  rewrite Hdec. cbn [fst].
  apply mi_arena_suitable_iff in Hsuit as [Hnuma _].
  destruct Hinv as (Hlen & Hcount & Hslots).
  exists j, arena. split; [reflexivity|]. split; [assumption|]. split.
  - intros Hnot k a_k Hk Hloc Hcompat.
    destruct nl; [contradiction|].
    assert (Hklt : Z.of_nat k < mi_arena_count w)
      by (apply Hslots; now exists a_k).
    apply (Hlocal eq_refl (Z.of_nat k) a_k).
    + lia.
    + intros k' Hk'. apply Hslots. rewrite Z2Nat.id by lia. lia.
    + now rewrite Nat2Z.id.
    + apply mi_arena_suitable_iff. split; assumption.
  - intros k a_k Hlt Hk Hsame Hcompat.
    destruct (Hpre (Z.of_nat k) ltac:(lia)) as (a' & Ha' & Hfail).
    rewrite Nat2Z.id, Hk in Ha'. injection Ha' as <-.
    apply Hfail. apply mi_arena_suitable_iff. split; [|assumption].
    destruct nl; tauto.
Qed.

(** ** More on [_mi_arena_free] *)

(** The bits [mi_bitmap_unclaim] clears and the bits it keeps. *)
Lemma mi_bitmap_unclaim_bits bitmap fields count bitmap_idx prev :
  0 <= count -> 0 <= bitmap_idx ->
  bitmap !! Z.to_nat (mi_bitmap_index_field bitmap_idx) = Some prev ->
  let bitmap' := fst (mi_bitmap_unclaim bitmap fields count bitmap_idx) in
  (forall i, bitmap_idx <= i < bitmap_idx + count ->
     mi_bitmap_index_field i = mi_bitmap_index_field bitmap_idx ->
     mi_bitmap_bit bitmap' i = false)
  /\ (forall i, 0 <= i ->
        i < bitmap_idx \/ bitmap_idx + count <= i
        \/ mi_bitmap_index_field i <> mi_bitmap_index_field bitmap_idx ->
        mi_bitmap_bit bitmap' i = mi_bitmap_bit bitmap i)
  /\ length bitmap' = length bitmap.
Proof.
  only_stated_oracles.
  intros Hc Hb Hprev. cbv zeta. unfold mi_bitmap_unclaim. cbv zeta.
  rewrite Hprev. cbn [fst].
  assert (Hlt : (Z.to_nat (mi_bitmap_index_field bitmap_idx) < length bitmap)%nat)
    by (apply lookup_lt_is_Some; eauto).
  assert (Hfb := MI_BITMAP_FIELD_BITS_eq).
  unfold mi_bitmap_index_field, mi_bitmap_index_bit_in_field in *.
  split; [|split; [|apply length_insert]].
  - intros i Hi Hf. rewrite mi_bitmap_bit_insert by assumption.
    rewrite Hf. rewrite decide_True by reflexivity.
    rewrite Z.ldiff_spec.
    replace (Z.testbit (mi_bitmap_mask_ count (bitmap_idx mod MI_BITMAP_FIELD_BITS))
                       (i mod MI_BITMAP_FIELD_BITS)) with true;
      [apply andb_false_r|].
    symmetry. rewrite mi_bitmap_mask_spec
      by (try lia; rewrite Hfb; Z.div_mod_to_equations; lia).
    rewrite Hfb in *.
    destruct (Z.ltb_spec (i mod 64) 64),
      (Z.leb_spec (bitmap_idx mod 64) (i mod 64)),
      (Z.ltb_spec (i mod 64) (bitmap_idx mod 64 + count));
      cbn [andb]; try reflexivity; exfalso; Z.div_mod_to_equations; lia.
  - intros i Hi Hout. rewrite mi_bitmap_bit_insert by assumption.
    destruct (decide (Z.to_nat (i / MI_BITMAP_FIELD_BITS)
                      = Z.to_nat (bitmap_idx / MI_BITMAP_FIELD_BITS)))
      as [He|]; [|reflexivity].
    assert (Hq : i / MI_BITMAP_FIELD_BITS = bitmap_idx / MI_BITMAP_FIELD_BITS).
    { apply Z2Nat.inj; [rewrite Hfb; Z.div_mod_to_equations; lia..|exact He]. }
    unfold mi_bitmap_bit. rewrite Hq, Hprev, Z.ldiff_spec.
    replace (Z.testbit (mi_bitmap_mask_ count (bitmap_idx mod MI_BITMAP_FIELD_BITS))
                       (i mod MI_BITMAP_FIELD_BITS)) with false;
      [apply andb_true_r|].
    symmetry. rewrite mi_bitmap_mask_spec
      by (try lia; rewrite Hfb; Z.div_mod_to_equations; lia).
    rewrite Hfb in *.
    destruct (Z.ltb_spec (i mod 64) 64),
      (Z.leb_spec (bitmap_idx mod 64) (i mod 64)),
      (Z.ltb_spec (i mod 64) (bitmap_idx mod 64 + count));
      cbn [andb]; try reflexivity; exfalso; Z.div_mod_to_equations; lia.
Qed.

(** A call of [_mi_arena_free] for a handle that decodes to an arena in
    use and to one of its fields. *)
Lemma mi_arena_free_arena_run w p size memid arena :
  let arena_idx := fst (mi_memid_indices memid) in
  let bitmap_idx := snd (mi_memid_indices memid) in
  let r := mi_bitmap_unclaim (blocks_map arena) (field_count arena)
             (mi_block_count_of_size size) bitmap_idx in
  let w1 := set_mi_arenas (<[Z.to_nat arena_idx :=
                               Some (set_blocks_map (fst r) arena)]> (mi_arenas w)) w in
  p <> 0 -> size <> 0 -> memid <> MI_MEMID_OS ->
  arena_idx < MI_MAX_ARENAS ->
  mi_arenas w !! Z.to_nat arena_idx = Some (Some arena) ->
  mi_bitmap_index_field bitmap_idx < field_count arena ->
  _mi_arena_free p size memid w
  = (Free_returned,
     if snd r then w1
     else add_event (Ev_fatal_error (Fatal_already_freed_block p size)) w1).
Proof.
  only_stated_oracles.
  intros arena_idx bitmap_idx r w1 Hp Hsize Hmemid Hidx Hslot Hfield.
  unfold _mi_arena_free.
  destruct (Z.eqb_spec p 0) as [|_]; [contradiction|].
  destruct (Z.eqb_spec size 0) as [|_]; [contradiction|].
  destruct (Z.eqb_spec memid MI_MEMID_OS) as [|_]; [contradiction|].
  destruct (mi_memid_indices memid) as [ai bi] eqn:Hdec.
  cbn [fst snd] in arena_idx, bitmap_idx. subst arena_idx bitmap_idx.
  destruct (Z.leb_spec MI_MAX_ARENAS ai) as [|_]; [lia|].
  rewrite Hslot.
  destruct (Z.leb_spec (field_count arena) (mi_bitmap_index_field bi)) as [|_];
    [lia|].
  fold r. destruct r as [bm ones] eqn:Hr. subst w1. cbn [fst snd].
  destruct ones; reflexivity.
Qed.

(** Property X13.
    A handle that names an empty slot, or a field beyond the bitmap of its
    arena, is reported as a fatal error, once, and the registry is left as
    it was. *)
Theorem mi_arena_free_corrupt_handle (w : world) (p size memid : Z) :
  let arena_idx := fst (mi_memid_indices memid) in
  let bitmap_idx := snd (mi_memid_indices memid) in
  p <> 0 -> size <> 0 -> memid <> MI_MEMID_OS ->
  arena_idx < MI_MAX_ARENAS ->
  (mi_arenas w !! Z.to_nat arena_idx = Some None ->
   _mi_arena_free p size memid w
   = (Free_returned,
      add_event (Ev_fatal_error (Fatal_non_existent_arena p size memid)) w))
  /\ (forall arena,
        mi_arenas w !! Z.to_nat arena_idx = Some (Some arena) ->
        field_count arena <= mi_bitmap_index_field bitmap_idx ->
        _mi_arena_free p size memid w
        = (Free_returned,
           add_event
             (Ev_fatal_error (Fatal_non_existent_arena_block p size memid)) w)).
Proof.
  only_stated_oracles.
  intros arena_idx bitmap_idx Hp Hsize Hmemid Hidx.
  unfold _mi_arena_free.
  destruct (Z.eqb_spec p 0) as [|_]; [contradiction|].
  destruct (Z.eqb_spec size 0) as [|_]; [contradiction|].
  destruct (Z.eqb_spec memid MI_MEMID_OS) as [|_]; [contradiction|].
  destruct (mi_memid_indices memid) as [ai bi].
  cbn [fst snd] in arena_idx, bitmap_idx. subst arena_idx bitmap_idx.
  destruct (Z.leb_spec MI_MAX_ARENAS ai) as [|_]; [lia|].
  split.
  - intros ->. reflexivity.
  - intros arena -> Hfield.
    destruct (Z.leb_spec (field_count arena) (mi_bitmap_index_field bi)) as [_|];
      [reflexivity|lia].
Qed.

(** Property X14.
    A free clears the run it is given even when it reports a double free:
    after the call every bit of the run (inside the field of the position)
    is clear, whether it was set or not, and no other bit of the in-use
    bitmap has changed. *)
Theorem mi_arena_free_clears_run
    (w : world) (p size memid : Z) (arena : mi_arena_t) :
  let arena_idx := fst (mi_memid_indices memid) in
  let bitmap_idx := snd (mi_memid_indices memid) in
  let blocks := mi_block_count_of_size size in
  let w' := snd (_mi_arena_free p size memid w) in
  p <> 0 -> 0 < size -> 0 <= memid -> memid <> MI_MEMID_OS ->
  arena_idx < MI_MAX_ARENAS ->
  mi_arenas w !! Z.to_nat arena_idx = Some (Some arena) ->
  mi_bitmap_index_field bitmap_idx < field_count arena ->
  Z.of_nat (length (blocks_map arena)) = field_count arena ->
  exists arena',
    mi_arenas w' = <[Z.to_nat arena_idx := Some arena']> (mi_arenas w)
    /\ same_descriptor arena arena'
    /\ blocks_dirty arena' = blocks_dirty arena
    /\ search_idx arena' = search_idx arena
    /\ (forall i, bitmap_idx <= i < bitmap_idx + blocks ->
          mi_bitmap_index_field i = mi_bitmap_index_field bitmap_idx ->
          mi_bitmap_bit (blocks_map arena') i = false)
    /\ (forall i, 0 <= i ->
          i < bitmap_idx \/ bitmap_idx + blocks <= i
          \/ mi_bitmap_index_field i <> mi_bitmap_index_field bitmap_idx ->
          mi_bitmap_bit (blocks_map arena') i = mi_bitmap_bit (blocks_map arena) i).
Proof.
  only_stated_oracles.
  intros arena_idx bitmap_idx blocks w' Hp Hsize Hm0 Hmemid Hidx Hslot Hfield Hlen.
  assert (Hb : 0 <= bitmap_idx).
  { unfold bitmap_idx, mi_memid_indices, shr. cbn [snd]. now apply Z.shiftr_nonneg. }
  assert (Hblocks : 0 <= blocks).
  { unfold blocks, mi_block_count_of_size, _mi_divide_up.
    rewrite MI_ARENA_BLOCK_SIZE_eq. apply Z.div_pos; lia. }
  assert (Hfi : 0 <= mi_bitmap_index_field bitmap_idx).
  { unfold mi_bitmap_index_field. apply Z.div_pos; [assumption|reflexivity]. }
  destruct (blocks_map arena !! Z.to_nat (mi_bitmap_index_field bitmap_idx))
    as [prev|] eqn:Hprev; [|apply lookup_ge_None in Hprev; lia].
  destruct (mi_bitmap_unclaim_bits (blocks_map arena) (field_count arena) blocks
              bitmap_idx prev Hblocks Hb Hprev) as (Hclear & Hkeep & _).
  subst w'.
  rewrite (mi_arena_free_arena_run w p size memid arena) by (assumption || lia).
  cbv zeta. fold arena_idx bitmap_idx blocks.
  set (r := mi_bitmap_unclaim (blocks_map arena) (field_count arena)
              blocks bitmap_idx) in *.
  exists (set_blocks_map (fst r) arena).
  split; [cbn [snd]; destruct (snd r); reflexivity|].
  split; [repeat split|]. repeat split; assumption.
Qed.

Lemma mi_arena_alloc_field a blocks a1 bitmap_idx :
  arena_fields_ok a -> 1 <= blocks ->
  mi_arena_alloc a blocks = (a1, Some bitmap_idx) ->
  mi_bitmap_index_field bitmap_idx < field_count a1.
Proof.
  only_stated_oracles.
  intros Hok Hb Halloc.
  destruct (mi_arena_alloc_claim _ _ _ _ Hok Hb Halloc)
    as (idx & map & bitidx & Hidx & Hb0 & Hb1 & _ & _ & -> & ->).
  cbn [field_count set_search_idx set_blocks_map].
  unfold mi_bitmap_index_field.
  destruct (field_of_position idx bitidx) as [-> _];
    [rewrite MI_BITMAP_FIELD_BITS_eq in *; lia|lia].
Qed.

(** Property X15.
    Round trip through the registry: when [_mi_arena_alloc_aligned] serves
    a request from an arena, [_mi_arena_free] with the pointer, the size
    and the memory id it returned reports no error, and the in-use bitmaps
    of all arenas are again what they were before the allocation. *)
Theorem mi_arena_alloc_aligned_then_free
    (size alignment : Z) (commit : bool) (large : option bool) (w : world) :
  let r := _mi_arena_alloc_aligned size alignment commit large w in
  let f := _mi_arena_free (fst (fst r)) size (o_memid (snd (fst r))) (snd r) in
  registry_wf w -> o_memid (snd (fst r)) <> MI_MEMID_OS ->
  fst f = Free_returned
  /\ trace (snd f) = trace (snd r)
  /\ in_use_bitmaps (snd f) = in_use_bitmaps w
  /\ mi_arena_count (snd f) = mi_arena_count w.
Proof.
  intros r f Hwf Hmemid. subst f r.
  destruct (mi_arena_alloc_aligned_served size alignment commit large w Hwf Hmemid)
    as (Hel & nl & j & arena & a1 & bi & Hj & Hslot & Hsuit & Halloc & Hrun & _).
  rewrite Hrun. cbn [fst snd o_memid].
  set (bcount := mi_block_count_of_size size) in *.
  destruct (mi_arena_eligible_block_count_aux size alignment Hel) as (Hb & _).
  fold bcount in Hb.
  pose proof (Hwf _ _ Hslot) as Hawf.
  pose proof (arena_wf_fields_ok _ Hawf) as Hok.
  pose proof (mi_arena_alloc_position _ _ _ _ Hawf Hb Halloc) as [Hb0 Hb1].
  destruct (mi_arena_alloc_pointer _ _ _ _ Hawf Hb Halloc) as (_ & Hpos & _).
  assert (Hfit : 0 <= bi < 549755813888).
  { destruct Hawf as (Hs & Hf & _ & Hfit).
    rewrite MI_BITMAP_FIELD_BITS_eq, MI_ARENA_BLOCK_SIZE_eq, SIZE_MODULUS_eq in *.
    lia. }
  destruct (position_fits_memid bi Hfit) as [Hsz Hrt].
  destruct (mi_memid_decode_create j bi) as [Hdec Hpos_id];
    [unfold MI_MAX_ARENAS in Hj; lia|assumption..|].
  assert (Hsize : size <> 0).
  { apply mi_arena_eligible_iff in Hel as [_ [Hmin _]].
    assert (MI_ARENA_MIN_OBJ_SIZE = 16777216) as Hm by reflexivity. lia. }
  assert (Hjlen : (Z.to_nat j < length (mi_arenas w))%nat)
    by (apply lookup_lt_is_Some; eauto).
  set (a2 := set_blocks_dirty
               (fst (mi_bitmap_claim (blocks_dirty a1) (field_count a1) bcount bi))
               a1).
  set (w1 := set_mi_arenas (<[Z.to_nat j := Some a2]> (mi_arenas w))
               (add_event Ev_os_numa_node w)).
  rewrite (mi_arena_free_arena_run w1 _ size _ a2); rewrite ?Hdec; cbn [fst snd].
  - fold bcount. change (blocks_map a2) with (blocks_map a1).
    change (field_count a2) with (field_count a1).
    rewrite (mi_arena_alloc_unclaim _ _ _ _ Hok Hb Halloc). cbn [fst snd].
    repeat split.
    unfold in_use_bitmaps. cbn [mi_arenas w1 set_mi_arenas].
    rewrite list_insert_insert_eq, list_fmap_insert.
    apply list_insert_id. rewrite list_lookup_fmap, Hslot. reflexivity.
  - lia.
  - assumption.
  - unfold MI_MEMID_OS. lia.
  - lia.
  - cbn [mi_arenas w1 set_mi_arenas]. now apply list_lookup_insert_eq.
  - change (field_count a2) with (field_count a1).
    now apply (mi_arena_alloc_field arena bcount).
Qed.

(** ** What allocation and free leave alone *)

Lemma same_descriptor_refl a : same_descriptor a a.
Proof. only_stated_oracles. repeat split. Qed.

Lemma same_descriptor_trans a b c :
  same_descriptor a b -> same_descriptor b c -> same_descriptor a c.
Proof.
  only_stated_oracles.
  unfold same_descriptor. intros (?&?&?&?&?&?) (?&?&?&?&?&?).
  repeat split; congruence.
Qed.

Lemma slot_same_refl s : slot_same s s.
Proof.
  only_stated_oracles.
  destruct s; cbn; [apply same_descriptor_refl|exact I].
Qed.

Lemma registry_same_shape_refl w : registry_same_shape w w.
Proof.
  only_stated_oracles.
  split; [reflexivity|]. apply Forall_Forall2_diag, Forall_forall.
  intros s _. apply slot_same_refl.
Qed.

Lemma registry_same_shape_trans w1 w2 w3 :
  registry_same_shape w1 w2 -> registry_same_shape w2 w3 ->
  registry_same_shape w1 w3.
Proof.
  only_stated_oracles.
  intros [Hc1 H1] [Hc2 H2]. split; [congruence|].
  eapply Forall2_trans; [|exact H1|exact H2].
  intros [a|] [b|] [c|]; cbn; try tauto. apply same_descriptor_trans.
Qed.

Lemma registry_same_shape_insert w i a a' :
  mi_arenas w !! i = Some (Some a) -> same_descriptor a a' ->
  registry_same_shape w (set_mi_arenas (<[i := Some a']> (mi_arenas w)) w).
Proof.
  only_stated_oracles.
  intros Hslot Hsame. split; [reflexivity|]. cbn [mi_arenas set_mi_arenas].
  rewrite <- (list_insert_id (mi_arenas w) i (Some a)) at 1 by assumption.
  apply Forall2_insert; [|exact Hsame].
  apply Forall_Forall2_diag, Forall_forall. intros s _. apply slot_same_refl.
Qed.

Lemma registry_same_shape_events w w' :
  mi_arenas w' = mi_arenas w -> mi_arena_count w' = mi_arena_count w ->
  registry_same_shape w w'.
Proof.
  only_stated_oracles.
  intros Ha Hc. split; [assumption|]. rewrite Ha.
  apply Forall_Forall2_diag, Forall_forall. intros s _. apply slot_same_refl.
Qed.

Lemma mi_arena_alloc_loop_same blocks fcount n :
  forall a idx,
  same_descriptor a (fst (mi_arena_alloc_loop n a fcount blocks idx)).
Proof.
  only_stated_oracles.
  induction n as [|n IH]; intros a idx; cbn [mi_arena_alloc_loop];
    [apply same_descriptor_refl|].
  destruct (mi_bitmap_try_claim_field _ _ _) as [[bm bi]|]; [|apply IH].
  cbn [fst]. repeat split.
Qed.

Lemma mi_arena_alloc_from_same a arena_index blocks o :
  same_descriptor a (fst (fst (mi_arena_alloc_from a arena_index blocks o))).
Proof.
  only_stated_oracles.
  unfold mi_arena_alloc_from.
  pose proof (mi_arena_alloc_loop_same blocks (field_count a)
                (Z.to_nat (field_count a)) a (search_idx a)) as Hsame.
  fold (mi_arena_alloc a blocks) in Hsame.
  destruct (mi_arena_alloc a blocks) as [a1 [bi|]]; cbn [fst] in *.
  - destruct (mi_bitmap_claim _ _ _ _) as [d z]. cbn [fst]. exact Hsame.
  - exact Hsame.
Qed.

Lemma mi_arena_scan_same nl n :
  forall i bcount node o w,
  registry_same_shape w (snd (mi_arena_scan nl n i bcount node o w)).
Proof.
  only_stated_oracles.
  induction n as [|n IH]; intros i bcount node o w; cbn [mi_arena_scan];
    [apply registry_same_shape_refl|].
  destruct (mi_arenas w !! Z.to_nat i) as [[arena|]|] eqn:Hslot;
    try apply registry_same_shape_refl.
  destruct (mi_arena_suitable nl arena node (o_large o)); [|apply IH].
  pose proof (mi_arena_alloc_from_same arena i bcount o) as Hsame.
  destruct (mi_arena_alloc_from arena i bcount o) as [[arena' o'] p].
  cbn [fst] in Hsame.
  pose proof (registry_same_shape_insert w _ _ _ Hslot Hsame) as Hins.
  destruct (negb (p =? 0)); [exact Hins|].
  eapply registry_same_shape_trans; [exact Hins|apply IH].
Qed.

Lemma mi_arena_alloc_aligned_same size alignment commit large w :
  registry_same_shape w
    (snd (_mi_arena_alloc_aligned size alignment commit large w)).
Proof.
  rewrite mi_arena_alloc_aligned_run. cbv zeta.
  set (o0 := mk_outs commit (default false large) false MI_MEMID_OS).
  assert (Htry : registry_same_shape w
                   (snd (mi_arena_try_arenas size alignment o0 w))).
  { unfold mi_arena_try_arenas.
    destruct (mi_arena_eligible size alignment);
      [|apply registry_same_shape_refl].
    unfold bind, _mi_os_numa_node.
    set (w0 := add_event Ev_os_numa_node w).
    assert (H0 : registry_same_shape w w0) by (now apply registry_same_shape_events).
    pose proof (mi_arena_scan_same true (Z.to_nat MI_MAX_ARENAS) 0
                  (mi_block_count_of_size size) (os_numa_node (trace w)) o0 w0)
      as H1.
    destruct (mi_arena_scan true _ _ _ _ _ _) as [[[p|] o1] w1];
      unfold ret; cbn [snd] in *.
    - exact (registry_same_shape_trans _ _ _ H0 H1).
    - eapply registry_same_shape_trans; [exact H0|].
      eapply registry_same_shape_trans; [exact H1|].
      apply mi_arena_scan_same. }
  destruct (mi_arena_try_arenas size alignment o0 w) as [[[p|] o1] w1];
    cbn [snd] in *; [exact Htry|].
  rewrite mi_arena_os_fallback_run. cbn [snd].
  eapply registry_same_shape_trans; [exact Htry|].
  now apply registry_same_shape_events.
Qed.

Lemma mi_arena_free_same p size memid w :
  registry_same_shape w (snd (_mi_arena_free p size memid w)).
Proof.
  only_stated_oracles.
  unfold _mi_arena_free.
  destruct (p =? 0); [apply registry_same_shape_refl|].
  destruct (size =? 0); [apply registry_same_shape_refl|].
  destruct (memid =? MI_MEMID_OS); [now apply registry_same_shape_events|].
  destruct (mi_memid_indices memid) as [ai bi].
  destruct (MI_MAX_ARENAS <=? ai); [apply registry_same_shape_refl|].
  destruct (mi_arenas w !! Z.to_nat ai) as [[arena|]|] eqn:Hslot;
    try (now apply registry_same_shape_events).
  destruct (field_count arena <=? mi_bitmap_index_field bi);
    [now apply registry_same_shape_events|].
  destruct (mi_bitmap_unclaim _ _ _ _) as [bm ones].
  assert (Hins : registry_same_shape w
            (set_mi_arenas (<[Z.to_nat ai := Some (set_blocks_map bm arena)]>
                              (mi_arenas w)) w)).
  { eapply registry_same_shape_insert; [exact Hslot|]. repeat split. }
  destruct ones; cbn [negb]; [exact Hins|].
  eapply registry_same_shape_trans; [exact Hins|].
  now apply registry_same_shape_events.
Qed.

(** Property X16.
    An allocation, and a free that reads no slot past the end of
    [mi_arenas], never add, remove or move an arena, never change
    [mi_arena_count], and never change the start, the block count, the
    field count, the NUMA node or the page kind of an arena. *)
Theorem mi_arena_alloc_free_keep_registry
    (size alignment : Z) (commit : bool) (large : option bool)
    (p memid : Z) (w : world) :
  fst (_mi_arena_free p size memid w) = Free_returned ->
  registry_same_shape w
    (snd (_mi_arena_alloc_aligned size alignment commit large w))
  /\ registry_same_shape w (snd (_mi_arena_free p size memid w)).
Proof.
  intros _.
  split; [apply mi_arena_alloc_aligned_same|apply mi_arena_free_same].
Qed.

(** ** The registry over calls of the exported functions *)

Lemma registry_same_shape_inv w w' :
  registry_same_shape w w' -> registry_inv w -> registry_inv w'.
Proof.
  only_stated_oracles.
  intros [Hc Hs] (Hlen & Hcount & Hpub).
  split; [|split].
  - rewrite <- (Forall2_length _ _ _ Hs). exact Hlen.
  - rewrite Hc. exact Hcount.
  - intros i. rewrite Hc, Hpub. unfold slot_published.
    split; intros [a Ha].
    + destruct (Forall2_lookup_l _ _ _ _ _ Hs Ha) as ([a'|] & Ha' & Hsame);
        [eauto|destruct Hsame].
    + destruct (Forall2_lookup_r _ _ _ _ _ Hs Ha) as ([a'|] & Ha' & Hsame);
        [eauto|destruct Hsame].
Qed.

Lemma mi_bitmap_claim_length bitmap fields count bitmap_idx :
  length (fst (mi_bitmap_claim bitmap fields count bitmap_idx)) = length bitmap.
Proof.
  only_stated_oracles.
  unfold mi_bitmap_claim. cbv zeta.
  destruct (bitmap !! _); cbn [fst]; [apply length_insert|reflexivity].
Qed.

Lemma mi_bitmap_unclaim_length bitmap fields count bitmap_idx :
  length (fst (mi_bitmap_unclaim bitmap fields count bitmap_idx)) = length bitmap.
Proof.
  only_stated_oracles.
  unfold mi_bitmap_unclaim. cbv zeta.
  destruct (bitmap !! _); cbn [fst]; [apply length_insert|reflexivity].
Qed.

Lemma registered_arena_ok_size a :
  registered_arena_ok a -> is_size_t (field_count a) /\ 0 <= search_idx a.
Proof.
  only_stated_oracles.
  intros (_ & _ & _ & Hb & Hf & Hlt & _ & Hs).
  unfold is_size_t. unfold MI_BITMAP_FIELD_BITS, MI_INTPTR_BITS in *. lia.
Qed.

Lemma registered_arena_ok_alloc_from a arena_index blocks o :
  registered_arena_ok a ->
  registered_arena_ok (fst (fst (mi_arena_alloc_from a arena_index blocks o))).
Proof.
  only_stated_oracles.
  intros Hok. destruct (registered_arena_ok_size a Hok) as [Hfc Hsi].
  unfold mi_arena_alloc_from.
  destruct (mi_arena_alloc a blocks) as [a1 [bi|]] eqn:Halloc.
  - apply mi_arena_alloc_some in Halloc as (idx & bm & Hidx & Htry & ->);
      [|assumption..].
    apply mi_bitmap_try_claim_field_some in Htry
      as (map & bitidx & _ & _ & _ & _ & -> & _).
    destruct (mi_bitmap_claim _ _ _ _) as [d z]. cbn [fst].
    destruct Hok as (?&?&?&?&?&?&?&?).
    unfold registered_arena_ok; cbn. rewrite length_insert.
    repeat split; try assumption; lia.
  - apply mi_arena_alloc_none in Halloc as ->; assumption.
Qed.

Lemma registered_arena_ok_unclaim a blocks bitmap_idx :
  registered_arena_ok a ->
  registered_arena_ok
    (set_blocks_map
       (fst (mi_bitmap_unclaim (blocks_map a) (field_count a) blocks bitmap_idx))
       a).
Proof.
  only_stated_oracles.
  intros (?&?&?&?&?&?&?&?).
  unfold registered_arena_ok; cbn. rewrite mi_bitmap_unclaim_length.
  repeat split; try assumption; lia.
Qed.

Lemma registry_ok_insert w i a :
  registry_ok w -> registered_arena_ok a ->
  registry_ok (set_mi_arenas (<[i := Some a]> (mi_arenas w)) w).
Proof.
  only_stated_oracles.
  intros Hok Ha k b. cbn [mi_arenas set_mi_arenas].
  destruct (decide (i = k)) as [->|Hne].
  - intros Hk. apply list_lookup_insert_Some in Hk as [(_ & [= <-] & _)|[? ?]];
      [assumption|congruence].
  - rewrite list_lookup_insert_ne by assumption. apply Hok.
Qed.

Lemma registry_ok_events w w' :
  mi_arenas w' = mi_arenas w -> registry_ok w -> registry_ok w'.
Proof.
  only_stated_oracles.
  intros Ha Hok i a. rewrite Ha. apply Hok.
Qed.

Lemma mi_arena_scan_ok nl n :
  forall i bcount node o w,
  registry_ok w -> registry_ok (snd (mi_arena_scan nl n i bcount node o w)).
Proof.
  only_stated_oracles.
  induction n as [|n IH]; intros i bcount node o w Hok; cbn [mi_arena_scan];
    [exact Hok|].
  destruct (mi_arenas w !! Z.to_nat i) as [[arena|]|] eqn:Hslot;
    try exact Hok.
  destruct (mi_arena_suitable nl arena node (o_large o)); [|now apply IH].
  pose proof (registered_arena_ok_alloc_from arena i bcount o (Hok _ _ Hslot))
    as Ha.
  destruct (mi_arena_alloc_from arena i bcount o) as [[arena' o'] p].
  cbn [fst] in Ha.
  pose proof (registry_ok_insert w (Z.to_nat i) arena' Hok Ha) as Hins.
  destruct (negb (p =? 0)); [exact Hins|now apply IH].
Qed.

Lemma mi_arena_alloc_aligned_ok size alignment commit large w :
  registry_ok w ->
  registry_ok (snd (_mi_arena_alloc_aligned size alignment commit large w)).
Proof.
  intros Hok. rewrite mi_arena_alloc_aligned_run. cbv zeta.
  set (o0 := mk_outs commit (default false large) false MI_MEMID_OS).
  assert (Htry : registry_ok (snd (mi_arena_try_arenas size alignment o0 w))).
  { unfold mi_arena_try_arenas.
    destruct (mi_arena_eligible size alignment); [|exact Hok].
    unfold bind, _mi_os_numa_node.
    set (w0 := add_event Ev_os_numa_node w).
    assert (H0 : registry_ok w0) by (now apply (registry_ok_events w)).
    pose proof (mi_arena_scan_ok true (Z.to_nat MI_MAX_ARENAS) 0
                  (mi_block_count_of_size size) (os_numa_node (trace w)) o0 w0 H0)
      as H1.
    destruct (mi_arena_scan true _ _ _ _ _ _) as [[[p|] o1] w1];
      unfold ret; cbn [snd] in *; [exact H1|].
    now apply mi_arena_scan_ok. }
  destruct (mi_arena_try_arenas size alignment o0 w) as [[[p|] o1] w1];
    cbn [snd] in *; [exact Htry|].
  rewrite mi_arena_os_fallback_run. cbn [snd].
  now apply (registry_ok_events w1).
Qed.

Lemma mi_arena_free_ok p size memid w :
  registry_ok w -> registry_ok (snd (_mi_arena_free p size memid w)).
Proof.
  only_stated_oracles.
  intros Hok. unfold _mi_arena_free.
  destruct (p =? 0); [exact Hok|].
  destruct (size =? 0); [exact Hok|].
  destruct (memid =? MI_MEMID_OS); [now apply (registry_ok_events w)|].
  destruct (mi_memid_indices memid) as [ai bi].
  destruct (MI_MAX_ARENAS <=? ai); [exact Hok|].
  destruct (mi_arenas w !! Z.to_nat ai) as [[arena|]|] eqn:Hslot;
    try (now apply (registry_ok_events w)).
  destruct (field_count arena <=? mi_bitmap_index_field bi);
    [now apply (registry_ok_events w)|].
  pose proof (registered_arena_ok_unclaim arena (mi_block_count_of_size size) bi
                (Hok _ _ Hslot)) as Ha.
  destruct (mi_bitmap_unclaim _ _ _ _) as [bm ones]. cbn [fst] in Ha.
  pose proof (registry_ok_insert w (Z.to_nat ai) _ Hok Ha) as Hins.
  destruct ones; cbn [negb]; [exact Hins|].
  eapply registry_ok_events; [|exact Hins]. reflexivity.
Qed.

Lemma registry_inv_events w w' :
  mi_arenas w' = mi_arenas w -> mi_arena_count w' = mi_arena_count w ->
  registry_inv w -> registry_inv w'.
Proof.
  only_stated_oracles.
  unfold registry_inv, slot_published. intros -> ->. trivial.
Qed.

Lemma registry_extends_refl w : registry_extends w w.
Proof. only_stated_oracles. split; [lia|auto]. Qed.

Lemma registry_extends_trans w1 w2 w3 :
  registry_extends w1 w2 -> registry_extends w2 w3 -> registry_extends w1 w3.
Proof.
  only_stated_oracles.
  intros [Hc1 H1] [Hc2 H2]. split; [lia|auto].
Qed.

Lemma registry_extends_events w w' :
  mi_arenas w' = mi_arenas w -> mi_arena_count w' = mi_arena_count w ->
  registry_extends w w'.
Proof.
  only_stated_oracles.
  intros Ha Hc. split; [lia|]. rewrite Ha. auto.
Qed.

Lemma registry_inv_empty_slot w :
  registry_inv w -> mi_arena_count w < MI_MAX_ARENAS ->
  mi_arenas w !! Z.to_nat (mi_arena_count w) = Some None.
Proof.
  only_stated_oracles.
  intros (Hlen & Hc & Hslots) Hlt.
  destruct (mi_arenas w !! Z.to_nat (mi_arena_count w)) as [[a|]|] eqn:E.
  - assert (slot_published w (Z.to_nat (mi_arena_count w))) as Hp
      by (now exists a).
    apply Hslots in Hp. lia.
  - reflexivity.
  - apply lookup_ge_None in E. lia.
Qed.

Lemma registry_inv_publish w a w' :
  registry_inv w -> mi_arena_count w < MI_MAX_ARENAS ->
  mi_arenas w' = <[Z.to_nat (mi_arena_count w) := Some a]> (mi_arenas w) ->
  mi_arena_count w' = mi_arena_count w + 1 ->
  registry_inv w' /\ registry_extends w w'.
Proof.
  only_stated_oracles.
  intros Hinv Hlt Ha Hc.
  pose proof (registry_inv_empty_slot w Hinv Hlt) as Hempty.
  destruct Hinv as (Hlen & Hcount & Hslots). split.
  - unfold registry_inv, slot_published. rewrite Ha, Hc, length_insert.
    split; [assumption|]. split; [lia|].
    intros i.
    destruct (decide (i = Z.to_nat (mi_arena_count w))) as [->|Hne].
    + rewrite list_lookup_insert_eq by lia. split; [eauto|lia].
    + rewrite list_lookup_insert_ne by auto.
      specialize (Hslots i). unfold slot_published in Hslots.
      rewrite <- Hslots. lia.
  - split; [lia|]. intros i b Hi. rewrite Ha.
    destruct (decide (i = Z.to_nat (mi_arena_count w))) as [->|Hne].
    + rewrite Hempty in Hi. discriminate.
    + now rewrite list_lookup_insert_ne by auto.
Qed.

Lemma mi_huge_arena_init_ok p hsize node beyond :
  p <> 0 -> is_size_t hsize ->
  registered_arena_ok (mi_huge_arena_init p hsize node beyond).
Proof.
  only_stated_oracles.
  intros Hp Hsz.
  pose proof (mi_huge_arena_init_spec p hsize node beyond Hsz) as Hspec.
  cbv zeta in Hspec.
  destruct Hspec as (Hs & _ & Hb & Hf & Hrange & Hl & Hz & Hsi & Hlen & _).
  pose proof (huge_arena_counts hsize Hsz) as Hcounts. cbv zeta in Hcounts.
  destruct Hcounts as (Hbc & _ & _ & _).
  unfold registered_arena_ok.
  rewrite Hlen, Hl, Hz, Hs, Hsi.
  rewrite <- Hb in Hbc.
  repeat split; try assumption; try lia.
  rewrite SIZE_MODULUS_eq. unfold MI_BITMAP_FIELD_BITS, MI_INTPTR_BITS in *. lia.
Qed.

(** What a call of [mi_reserve_huge_os_pages_at] does to the registry: it
    leaves it as it is, or it returns [0] and puts one arena in the first
    free slot. *)
Lemma mi_reserve_huge_os_pages_at_effect pages node timeout_msecs w :
  registry_inv w ->
  let r := mi_reserve_huge_os_pages_at pages node timeout_msecs w in
  (fst r = 0 \/ fst r = ENOMEM)
  /\ (fst r = ENOMEM ->
      mi_arenas (snd r) = mi_arenas w
      /\ mi_arena_count (snd r) = mi_arena_count w)
  /\ ((mi_arenas (snd r) = mi_arenas w
       /\ mi_arena_count (snd r) = mi_arena_count w)
      \/ (fst r = 0 /\ mi_arena_count w < MI_MAX_ARENAS
          /\ exists p hsize beyond,
               p <> 0 /\ is_size_t hsize
               /\ mi_arenas (snd r)
                  = <[Z.to_nat (mi_arena_count w) :=
                        Some (mi_huge_arena_init p hsize (reserve_node node)
                                                 beyond)]>
                      (mi_arenas w)
               /\ mi_arena_count (snd r) = mi_arena_count w + 1)).
Proof.
  intros Hinv. cbv zeta.
  destruct (Z.eq_dec pages 0) as [->|Hpages].
  { rewrite mi_reserve_huge_os_pages_at_zero. cbn [fst snd].
    unfold ENOMEM. split; [auto|]. split; [discriminate|auto]. }
  rewrite mi_reserve_huge_os_pages_at_run by assumption. cbv zeta.
  destruct (_ || _) eqn:Hos.
  { cbn [fst snd]. split; [auto|]. split; [auto|]. left. auto. }
  destruct (wrap (os_alloc _ _) =? 0).
  { cbn [fst snd]. split; [auto|]. split; [auto|]. left. auto. }
  cbn [fst]. split; [auto|]. split; [unfold ENOMEM; discriminate|].
  apply orb_false_iff in Hos as [Hp _]. apply Z.eqb_neq in Hp.
  match goal with |- context [mi_arena_add ?a ?w3] =>
    set (arena := a); set (w3' := w3) end.
  assert (Hc3 : mi_arena_count w3' = mi_arena_count w) by reflexivity.
  assert (Ha3 : mi_arenas w3' = mi_arenas w) by reflexivity.
  destruct Hinv as (Hlen & Hcount & Hslots).
  destruct (Z.le_gt_cases MI_MAX_ARENAS (mi_arena_count w)) as [Hfull|Hroom].
  - rewrite mi_arena_add_full.
    + left. auto.
    + unfold is_size_t. rewrite Hc3, SIZE_MODULUS_eq.
      unfold MI_MAX_ARENAS in *. lia.
    + rewrite Hc3. exact Hfull.
  - rewrite mi_arena_add_room by (rewrite Hc3; lia).
    cbn [snd mi_arenas mi_arena_count]. rewrite Hc3, Ha3.
    right. split; [reflexivity|]. split; [lia|].
    eexists _, _, _. split; [exact Hp|]. split; [apply wrap_range|].
    split; reflexivity.
Qed.

Lemma mi_reserve_huge_os_pages_at_keeps pages node timeout_msecs w :
  registry_inv w ->
  let r := mi_reserve_huge_os_pages_at pages node timeout_msecs w in
  registry_inv (snd r) /\ registry_extends w (snd r)
  /\ mi_arena_count (snd r) <= mi_arena_count w + 1
  /\ (registry_ok w -> registry_ok (snd r)).
Proof.
  intros Hinv. cbv zeta.
  destruct (mi_reserve_huge_os_pages_at_effect pages node timeout_msecs w Hinv)
    as (_ & _ & [[Ha Hc]|(_ & Hroom & p & hsize & beyond & Hp & Hsz & Ha & Hc)]).
  - split; [now apply (registry_inv_events w)|].
    split; [now apply registry_extends_events|].
    split; [lia|]. now apply registry_ok_events.
  - destruct (registry_inv_publish w _ _ Hinv Hroom Ha Hc) as [Hinv' Hext].
    split; [exact Hinv'|]. split; [exact Hext|]. split; [lia|].
    intros Hok i a. rewrite Ha.
    destruct (decide (i = Z.to_nat (mi_arena_count w))) as [->|Hne].
    + intros Hi.
      apply list_lookup_insert_Some in Hi as [(_ & [= <-] & _)|[? ?]];
        [|congruence].
      now apply mi_huge_arena_init_ok.
    + rewrite list_lookup_insert_ne by auto. apply Hok.
Qed.

Lemma mi_reserve_interleave_loop_keeps numa_count pages_per pages_mod timeout_per n :
  forall node pages w,
  registry_inv w ->
  let r := mi_reserve_interleave_loop n numa_count pages_per pages_mod
             timeout_per node pages w in
  (fst r = 0 \/ fst r = ENOMEM)
  /\ registry_inv (snd r) /\ registry_extends w (snd r)
  /\ mi_arena_count (snd r) <= mi_arena_count w + Z.of_nat n
  /\ (registry_ok w -> registry_ok (snd r)).
Proof.
  induction n as [|n IH]; intros node pages w Hinv; cbv zeta;
    cbn [mi_reserve_interleave_loop].
  { unfold ret. cbn [fst snd]. split; [auto|]. split; [assumption|].
    split; [apply registry_extends_refl|]. split; [lia|auto]. }
  destruct (_ && _).
  2:{ unfold ret. cbn [fst snd]. split; [auto|]. split; [assumption|].
      split; [apply registry_extends_refl|]. split; [lia|auto]. }
  unfold bind.
  set (node_pages := if node <? pages_mod then _ else _).
  pose proof (mi_reserve_huge_os_pages_at_effect node_pages node timeout_per w Hinv)
    as (Hres & _ & _).
  pose proof (mi_reserve_huge_os_pages_at_keeps node_pages node timeout_per w Hinv)
    as (Hinv1 & Hext1 & Hc1 & Hok1).
  cbv zeta in Hres, Hinv1, Hext1, Hc1, Hok1.
  destruct (mi_reserve_huge_os_pages_at node_pages node timeout_per w)
    as [err w1]. cbn [fst snd] in *.
  destruct Hres as [-> | ->].
  - cbn [Z.eqb negb].
    specialize (IH (node + 1)
                   (if pages <? node_pages then 0 else pages - node_pages)
                   w1 Hinv1).
    cbv zeta in IH. destruct IH as (Hr & Hinv2 & Hext2 & Hc2 & Hok2).
    split; [exact Hr|]. split; [exact Hinv2|].
    split; [eapply registry_extends_trans; eassumption|].
    split; [lia|auto].
  - unfold ENOMEM. cbn [Z.eqb negb]. unfold ret. cbn [fst snd].
    split; [auto|]. split; [assumption|]. split; [assumption|].
    split; [lia|auto].
Qed.

Lemma mi_reserve_huge_os_pages_interleave_keeps pages timeout_msecs w :
  registry_inv w ->
  let r := mi_reserve_huge_os_pages_interleave pages timeout_msecs w in
  (fst r = 0 \/ fst r = ENOMEM)
  /\ registry_inv (snd r) /\ registry_extends w (snd r)
  /\ mi_arena_count (snd r)
     <= mi_arena_count w + Z.max 1 _mi_os_numa_node_count
  /\ (registry_ok w -> registry_ok (snd r)).
Proof.
  intros Hinv. cbv zeta. unfold mi_reserve_huge_os_pages_interleave.
  destruct (pages =? 0).
  { unfold ret. cbn [fst snd]. split; [auto|]. split; [assumption|].
    split; [apply registry_extends_refl|]. split; [lia|auto]. }
  cbv zeta.
  set (count := if _mi_os_numa_node_count <=? 0 then 1 else _mi_os_numa_node_count).
  pose proof (mi_reserve_interleave_loop_keeps count (pages / count)
                (pages mod count) (wrap (timeout_msecs / count + 50))
                (Z.to_nat count) 0 pages w Hinv) as H.
  cbv zeta in H. destruct H as (Hr & Hinv' & Hext & Hc & Hok).
  split; [exact Hr|]. split; [exact Hinv'|]. split; [exact Hext|].
  split; [|exact Hok].
  assert (Z.of_nat (Z.to_nat count) = Z.max 1 _mi_os_numa_node_count).
  { subst count. destruct (Z.leb_spec _mi_os_numa_node_count 0); lia. }
  lia.
Qed.

Lemma registry_ok_initial : registry_ok initial_world.
Proof.
  only_stated_oracles.
  intros i a H. unfold initial_world in H. cbn [mi_arenas] in H.
  apply lookup_replicate in H as [H _]. discriminate.
Qed.

Lemma api_step_keeps w w' :
  api_step w w' -> registry_inv w -> registry_ok w ->
  registry_inv w' /\ registry_ok w'.
Proof.
  intros Hstep Hinv Hok. destruct Hstep.
  - split; [|now apply mi_arena_alloc_aligned_ok].
    eapply registry_same_shape_inv; [apply mi_arena_alloc_aligned_same|assumption].
  - split; [|now apply mi_arena_free_ok].
    eapply registry_same_shape_inv; [apply mi_arena_free_same|assumption].
  - destruct (mi_reserve_huge_os_pages_at_keeps pages node timeout_msecs w Hinv)
      as (? & _ & _ & ?). auto.
  - destruct (mi_reserve_huge_os_pages_interleave_keeps pages timeout_msecs w Hinv)
      as (_ & ? & _ & _ & ?). auto.
Qed.

Lemma api_reachable_keeps w :
  api_reachable w -> registry_inv w /\ registry_ok w.
Proof.
  induction 1 as [|w w' _ [Hinv Hok] Hstep].
  - split; [apply registry_inv_initial|apply registry_ok_initial].
  - now apply (api_step_keeps w).
Qed.

Lemma mi_arena_scan_all_large nl n :
  forall i bcount node o w,
  (forall (k : nat) a, mi_arenas w !! k = Some (Some a) -> is_large a = true) ->
  o_large o = false ->
  mi_arena_scan nl n i bcount node o w = (None, o, w).
Proof.
  only_stated_oracles.
  induction n as [|n IH]; intros i bcount node o w Hall Ho; [reflexivity|].
  cbn [mi_arena_scan].
  destruct (mi_arenas w !! Z.to_nat i) as [[arena|]|] eqn:Hslot;
    try reflexivity.
  unfold mi_arena_suitable. rewrite Ho, (Hall _ _ Hslot).
  cbn [negb orb]. rewrite andb_false_r. now apply IH.
Qed.

(** Property X17.
    Whatever calls of the exported functions were made since the start:
    [mi_arenas] has its [MI_MAX_ARENAS] slots, [mi_arena_count] is at most
    [MI_MAX_ARENAS], the slots in use are exactly those below
    [mi_arena_count], and every arena is one of huge OS pages as
    [mi_reserve_huge_os_pages_at] builds them: large, zero initialized, not
    at [NULL], with [field_count] the block count divided by the bits of a
    field, rounded up, an in-use bitmap of [field_count] fields and a
    search index that is not above [field_count]. *)
Theorem api_reachable_registry (w : world) :
  api_reachable w ->
  registry_inv w
  /\ forall (i : nat) (a : mi_arena_t),
       mi_arenas w !! i = Some (Some a) -> registered_arena_ok a.
Proof.
  intros Hreach. destruct (api_reachable_keeps w Hreach) as [Hinv Hok].
  split; [exact Hinv|exact Hok].
Qed.

(** Property X18.
    Every arena the exported functions register is one of large OS pages,
    so a request that does not allow large pages ([large] is [NULL] or
    points to [false]) is never served from an arena: it goes to
    [_mi_os_alloc_aligned] with [large] false, and the registry is not
    changed. *)
Theorem mi_arena_alloc_aligned_not_large_from_os
    (size alignment : Z) (commit : bool) (large : option bool) (w : world) :
  let r := _mi_arena_alloc_aligned size alignment commit large w in
  api_reachable w -> default false large = false ->
  o_memid (snd (fst r)) = MI_MEMID_OS
  /\ o_is_zero (snd (fst r)) = true
  /\ mi_arenas (snd r) = mi_arenas w
  /\ mi_arena_count (snd r) = mi_arena_count w
  /\ events_since w (snd r)
     = (if mi_arena_eligible size alignment then [Ev_os_numa_node] else [])
       ++ [Ev_os_alloc_aligned size alignment commit false].
Proof.
  intros r Hreach Hlarge. subst r.
  destruct (api_reachable_keeps w Hreach) as [_ Hok].
  assert (Hall : forall (k : nat) a,
            mi_arenas w !! k = Some (Some a) -> is_large a = true).
  { intros k a Hk. exact (proj1 (Hok k a Hk)). }
  rewrite mi_arena_alloc_aligned_run. cbv zeta. rewrite Hlarge.
  unfold mi_arena_try_arenas.
  destruct (mi_arena_eligible size alignment).
  - unfold bind, _mi_os_numa_node.
    rewrite mi_arena_scan_all_large by (assumption || reflexivity).
    rewrite mi_arena_scan_all_large by (assumption || reflexivity).
    rewrite mi_arena_os_fallback_run.
    cbn [fst snd o_memid o_is_zero o_commit o_large add_event mi_arenas
         mi_arena_count fallback_large trace].
    repeat split. unfold events_since. cbn [trace add_event].
    rewrite <- app_assoc. apply events_since_app.
  - unfold ret. rewrite mi_arena_os_fallback_run.
    cbn [fst snd o_memid o_is_zero o_commit o_large add_event mi_arenas
         mi_arena_count fallback_large trace].
    repeat split. unfold events_since. cbn [trace add_event].
    apply events_since_app.
Qed.

(** ** More on the reservation of huge pages *)

(** Property X19.
    When [_mi_os_numa_node_count()] is not [0],
    [mi_reserve_huge_os_pages_at] returns [0] or [ENOMEM].  When it
    returns [ENOMEM] the registry is as it was.  Whatever it returns, the
    arenas of the registry stay in their slots, at most one arena is added,
    and the slots in use remain those below [mi_arena_count]. *)
Theorem mi_reserve_huge_os_pages_at_registry
    (pages node timeout_msecs : Z) (w : world) :
  let r := mi_reserve_huge_os_pages_at pages node timeout_msecs w in
  registry_inv w -> _mi_os_numa_node_count <> 0 ->
  (fst r = 0 \/ fst r = ENOMEM)
  /\ (fst r = ENOMEM ->
      mi_arenas (snd r) = mi_arenas w
      /\ mi_arena_count (snd r) = mi_arena_count w)
  /\ registry_extends w (snd r)
  /\ mi_arena_count (snd r) <= mi_arena_count w + 1
  /\ registry_inv (snd r).
Proof.
  intros r Hinv _. subst r.
  destruct (mi_reserve_huge_os_pages_at_effect pages node timeout_msecs w Hinv)
    as (Hres & Herr & _).
  destruct (mi_reserve_huge_os_pages_at_keeps pages node timeout_msecs w Hinv)
    as (Hinv' & Hext & Hc & _).
  auto.
Qed.

(** Property X20.
    When the registry is full and the OS grants both the huge pages and
    the storage of the descriptor, [mi_reserve_huge_os_pages_at] returns
    [0] although no arena is registered: the registry is as it was, and
    neither the huge pages nor the descriptor are given back to the OS
    (the result of [mi_arena_add] is not looked at). *)
Theorem mi_reserve_huge_os_pages_at_registry_full
    (w : world) (pages node timeout_msecs p pages_reserved hsize : Z) :
  let ev := Ev_os_alloc_huge_os_pages pages (reserve_node node) timeout_msecs in
  let asize := mi_huge_arena_asize (wrap hsize) in
  registry_inv w -> mi_arena_count w = MI_MAX_ARENAS ->
  pages <> 0 ->
  os_alloc_huge_os_pages (trace w) pages (reserve_node node) timeout_msecs
    = (p, pages_reserved, hsize) ->
  wrap p <> 0 -> wrap pages_reserved <> 0 ->
  wrap (os_alloc (trace w ++ [ev; Ev_verbose_reserved (wrap pages_reserved)])
                 asize) <> 0 ->
  mi_reserve_huge_os_pages_at pages node timeout_msecs w =
    (0,
     mk_world (mi_arenas w) (mi_arena_count w)
              (trace w ++ [ev; Ev_verbose_reserved (wrap pages_reserved);
                           Ev_os_alloc asize])).
Proof.
  intros ev asize Hinv Hfull Hpages Hos Hp Hr Hdesc.
  rewrite mi_reserve_huge_os_pages_at_run by assumption. cbv zeta.
  rewrite Hos. cbn [fst snd].
  apply Z.eqb_neq in Hp. apply Z.eqb_neq in Hr. rewrite Hp, Hr. cbn [orb].
  cbn [add_event trace]. rewrite <- !app_assoc. cbn [app].
  fold ev. fold asize.
  apply Z.eqb_neq in Hdesc. rewrite Hdesc.
  rewrite mi_arena_add_full.
  - cbn [snd]. unfold add_event. cbn [mi_arenas mi_arena_count trace].
    rewrite <- !app_assoc. reflexivity.
  - unfold is_size_t, add_event. cbn [mi_arena_count].
    rewrite Hfull, SIZE_MODULUS_eq. unfold MI_MAX_ARENAS. lia.
  - unfold add_event. cbn [mi_arena_count]. lia.
Qed.

(** Property X21.
    When [_mi_os_numa_node_count()] is not [0],
    [mi_reserve_huge_os_pages_interleave] returns [0] or [ENOMEM].  The
    arenas of the registry stay in their slots, at most one arena for each
    NUMA node is added, and the slots in use remain those below
    [mi_arena_count]. *)
Theorem mi_reserve_huge_os_pages_interleave_registry
    (pages timeout_msecs : Z) (w : world) :
  let r := mi_reserve_huge_os_pages_interleave pages timeout_msecs w in
  registry_inv w -> _mi_os_numa_node_count <> 0 ->
  (fst r = 0 \/ fst r = ENOMEM)
  /\ registry_extends w (snd r)
  /\ mi_arena_count (snd r)
     <= mi_arena_count w + Z.max 1 _mi_os_numa_node_count
  /\ registry_inv (snd r).
Proof.
  intros r Hinv _. subst r.
  destruct (mi_reserve_huge_os_pages_interleave_keeps pages timeout_msecs w Hinv)
    as (Hres & Hinv' & Hext & Hc & _).
  auto.
Qed.

(** Property X22.
    Round trip through the OS: when [_mi_arena_alloc_aligned] returns
    memory with the id [MI_MEMID_OS], [_mi_arena_free] with the pointer,
    the size and the id it returned makes one call of [_mi_os_free] for
    that pointer and size and leaves the registry as it is. *)
Theorem mi_arena_alloc_aligned_os_then_free
    (size alignment : Z) (commit : bool) (large : option bool) (w : world) :
  let r := _mi_arena_alloc_aligned size alignment commit large w in
  let p := fst (fst r) in
  let f := _mi_arena_free p size (o_memid (snd (fst r))) (snd r) in
  o_memid (snd (fst r)) = MI_MEMID_OS -> p <> 0 -> size <> 0 ->
  fst f = Free_returned
  /\ events_since (snd r) (snd f) = [Ev_os_free p size]
  /\ mi_arenas (snd f) = mi_arenas (snd r)
  /\ mi_arena_count (snd f) = mi_arena_count (snd r).
Proof.
  only_stated_oracles.
  intros r p f Hmemid Hp Hsize. subst f. rewrite Hmemid.
  unfold _mi_arena_free.
  apply Z.eqb_neq in Hp. apply Z.eqb_neq in Hsize. rewrite Hp, Hsize.
  cbn [Z.eqb MI_MEMID_OS]. unfold bind, _mi_os_free, emit, ret.
  cbn [fst snd add_event mi_arenas mi_arena_count].
  repeat split. unfold events_since. cbn [trace]. apply events_since_app.
Qed.

(** ** Where [blocks_dirty] points *)

Lemma mi_huge_arena_init_map_length p hsize node beyond :
  is_size_t hsize ->
  length (blocks_map (mi_huge_arena_init p hsize node beyond))
  = Z.to_nat (field_count (mi_huge_arena_init p hsize node beyond)).
Proof.
  only_stated_oracles.
  intros Hsz.
  destruct (mi_huge_arena_init_spec p hsize node beyond Hsz)
    as (_ & _ & _ & _ & _ & _ & _ & _ & Hlen & _).
  rewrite <- Hlen. now rewrite Nat2Z.id.
Qed.

(** Property X24.
    [mi_reserve_huge_os_pages_at] asks [_mi_os_alloc] for
    [sizeof(mi_arena_t) + 2*fields*sizeof(mi_bitmap_field_t)] bytes, room
    for two bitmaps of [fields] words, but points [blocks_dirty] at
    [&blocks_map[bcount]] and not at [&blocks_map[fields]].  For an area of
    three blocks or more (any number of 1GiB pages has at least 32) every
    word of the dirty bitmap lies behind the storage of the descriptor: it
    is the word [bcount - (1 + 2*fields)] and the following of the memory
    behind it, as far as that memory can be accessed. *)
Theorem mi_huge_arena_dirty_beyond_storage
    (p hsize node : Z) (beyond : list Z) :
  let a := mi_huge_arena_init p hsize node beyond in
  is_size_t hsize -> 3 <= mi_block_count_of_size hsize ->
  mi_huge_arena_asize hsize
  = sizeof_mi_arena_t - sizeof_mi_bitmap_field_t
    + mi_huge_arena_storage_fields (field_count a) * sizeof_mi_bitmap_field_t
  /\ mi_huge_arena_storage_fields (field_count a) <= block_count a
  /\ blocks_dirty a
     = take (Z.to_nat (field_count a))
         (drop (Z.to_nat (block_count a
                          - mi_huge_arena_storage_fields (field_count a)))
               beyond).
Proof.
  only_stated_oracles.
  intros a Hsz Hb.
  pose proof (mi_huge_arena_init_map_length p hsize node beyond Hsz) as Hlen.
  pose proof (huge_arena_counts hsize Hsz) as Hcounts. cbv zeta in Hcounts.
  destruct Hcounts as (Hbc & _ & Hf & _).
  fold a in Hlen. revert Hlen. subst a.
  unfold mi_huge_arena_init, mi_huge_arena_asize, mi_huge_arena_storage_fields.
  cbv zeta. cbn [blocks_map blocks_dirty field_count block_count].
  set (bcount := mi_block_count_of_size hsize) in *.
  set (fields := wrap (bcount + MI_BITMAP_FIELD_BITS - 1) / MI_BITMAP_FIELD_BITS)
    in *.
  set (map := if 0 <? _ then _ else _).
  intros Hlen.
  rewrite MI_BITMAP_FIELD_BITS_eq in Hf.
  assert (Hfields : 1 <= fields /\ 1 + 2 * fields <= bcount) by lia.
  unfold sizeof_mi_arena_t, sizeof_mi_bitmap_field_t.
  split; [|split; [lia|]].
  - rewrite (wrap_small (2 * fields)) by (rewrite SIZE_MODULUS_eq; lia).
    rewrite (wrap_small (2 * fields * 8)) by (rewrite SIZE_MODULUS_eq; lia).
    rewrite wrap_small by (rewrite SIZE_MODULUS_eq; lia). lia.
  - f_equal. rewrite app_assoc.
    rewrite drop_app_ge
      by (rewrite length_app, Hlen, length_replicate; lia).
    f_equal. rewrite length_app, Hlen, length_replicate. lia.
Qed.

(** ** The first allocation from a new arena *)

Lemma mi_arena_alloc_first_bits a blocks map0 :
  1 <= blocks <= MI_BITMAP_FIELD_BITS -> 1 <= field_count a ->
  search_idx a = 0 ->
  blocks_map a !! 0%nat = Some map0 ->
  (forall i, 0 <= i < blocks -> Z.testbit map0 i = false) ->
  exists bm, mi_arena_alloc a blocks
             = (set_search_idx 0 (set_blocks_map bm a), Some 0).
Proof.
  only_stated_oracles.
  intros Hb Hf Hs Hmap Hclear. unfold mi_arena_alloc.
  destruct (Z.to_nat (field_count a)) as [|n] eqn:Hn; [lia|].
  cbn [mi_arena_alloc_loop]. rewrite Hs.
  replace (if field_count a <=? 0 then 0 else 0) with 0
    by (now destruct (field_count a <=? 0)).
  unfold mi_bitmap_try_claim_field. change (Z.to_nat 0) with 0%nat.
  rewrite Hmap.
  destruct (Z.to_nat (MI_BITMAP_FIELD_BITS - blocks + 1)) as [|m] eqn:Hm; [lia|].
  cbn [mi_bitmap_find_run].
  assert (Hfree : (Z.land map0 (Z.shiftl (mi_bitmap_mask_ blocks 0) 0) =? 0) = true).
  { apply land_eq_0. intros i Hi Hbit.
    rewrite claim_mask_spec in Hbit by lia.
    apply andb_true_iff in Hbit as [_ Hlt]. apply Z.ltb_lt in Hlt.
    apply Hclear. lia. }
  rewrite Hfree. eexists. reflexivity.
Qed.

(** The first allocation from an arena as [mi_reserve_huge_os_pages_at]
    builds it, when the words [blocks_dirty] points to can be accessed. *)
Lemma mi_huge_arena_init_first p hsize node beyond blocks arena_index o :
  let a := mi_huge_arena_init p hsize node beyond in
  let r := mi_arena_alloc_from a arena_index blocks o in
  is_size_t hsize -> 1 <= blocks <= MI_BITMAP_FIELD_BITS ->
  blocks <= mi_block_count_of_size hsize ->
  Z.of_nat (length (blocks_dirty a)) = field_count a ->
  o_commit (snd (fst r)) = true /\ o_large (snd (fst r)) = true
  /\ o_memid (snd (fst r)) = mi_memid_create arena_index 0
  /\ (o_is_zero (snd (fst r)) = true
      <-> forall i, 0 <= i < blocks -> mi_bitmap_bit (blocks_dirty a) i = false)
  /\ snd r = wrap p.
Proof.
  only_stated_oracles.
  intros a r Hsz Hb Hfit Hdirty. subst r.
  pose proof (mi_huge_arena_init_spec p hsize node beyond Hsz) as Hspec.
  cbv zeta in Hspec. fold a in Hspec.
  destruct Hspec as (Hs & _ & Hbc & _ & Hrange & Hl & _ & Hsi & Hlen & Hbits).
  clearbody a.
  assert (Hf : 1 <= field_count a).
  { rewrite MI_BITMAP_FIELD_BITS_eq in *. lia. }
  destruct (blocks_map a) as [|map0 rest] eqn:Hmap; [cbn in Hlen; lia|].
  assert (Hclear : forall i, 0 <= i < blocks -> Z.testbit map0 i = false).
  { intros i Hi.
    assert (Hin : 0 <= i < field_count a * MI_BITMAP_FIELD_BITS)
      by (rewrite MI_BITMAP_FIELD_BITS_eq in *; lia).
    specialize (Hbits i Hin). unfold mi_bitmap_bit in Hbits.
    rewrite MI_BITMAP_FIELD_BITS_eq in *.
    rewrite Z.div_small, Z.mod_small in Hbits by lia.
    change (Z.testbit map0 i = (block_count a <=? i)) in Hbits.
    rewrite Hbits. apply Z.leb_gt. lia. }
  destruct (mi_arena_alloc_first_bits a blocks map0) as [bm Halloc];
    try assumption; [now rewrite Hmap|].
  rewrite (mi_arena_alloc_from_success _ _ _ _ _ _ Halloc). cbv zeta.
  cbn [fst snd set_search_idx set_blocks_map blocks_dirty field_count
       is_large start o_commit o_large o_memid o_is_zero].
  destruct (blocks_dirty a) as [|dirty0 drest] eqn:Hd; [cbn in Hdirty; lia|].
  destruct (mi_bitmap_claim_run (dirty0 :: drest) (field_count a) blocks 0 0
              dirty0) as (Hzero & _); [lia|lia|lia|lia|reflexivity|].
  cbv zeta in Hzero.
  change (0 * MI_BITMAP_FIELD_BITS + 0) with 0 in Hzero.
  rewrite Z.add_0_l in Hzero.
  split; [reflexivity|]. split; [exact Hl|]. split; [reflexivity|].
  split; [exact Hzero|].
  rewrite Hs. unfold mi_bitmap_index_bit. f_equal. lia.
Qed.

(** One iteration of a loop over the registry. *)
Lemma mi_arena_scan_step nl n i bcount node o w :
  mi_arena_scan nl (S n) i bcount node o w
  = match mi_arenas w !! Z.to_nat i with
    | Some (Some arena) =>
        if mi_arena_suitable nl arena node (o_large o) then
          let '(arena', o', p) := mi_arena_alloc_from arena i bcount o in
          let w' := set_mi_arenas (<[Z.to_nat i := Some arena']> (mi_arenas w)) w in
          if negb (p =? 0) then (Some p, o', w')
          else mi_arena_scan nl n (i + 1) bcount node o' w'
        else mi_arena_scan nl n (i + 1) bcount node o w
    | _ => (None, o, w)
    end.
Proof. only_stated_oracles. reflexivity. Qed.

(** Property X23.
    Reservation, then allocation: after [mi_reserve_huge_os_pages_at]
    registers the first arena [a], and when the words its [blocks_dirty]
    points to can be accessed, a request that passes the gate, allows large
    pages and fits the reserved area is served from the start of that area,
    with the id of slot [0] and position [0], committed and large, and
    without a call of [_mi_os_alloc_aligned].  It is reported zero
    initialized exactly when the words [blocks_dirty] points to have no bit
    set for the blocks of the request. *)
Theorem mi_reserve_then_alloc_aligned
    (w : world) (pages node timeout_msecs p pages_reserved hsize : Z)
    (size alignment : Z) (commit : bool) (a : mi_arena_t) :
  let w1 := snd (mi_reserve_huge_os_pages_at pages node timeout_msecs w) in
  let r := _mi_arena_alloc_aligned size alignment commit (Some true) w1 in
  registry_inv w -> mi_arena_count w = 0 -> pages <> 0 ->
  _mi_os_numa_node_count <> 0 ->
  fst (mi_reserve_huge_os_pages_at pages node timeout_msecs w) = 0 ->
  os_alloc_huge_os_pages (trace w) pages (reserve_node node) timeout_msecs
    = (p, pages_reserved, hsize) ->
  mi_arenas w1 !! 0%nat = Some (Some a) ->
  Z.of_nat (length (blocks_dirty a)) = field_count a ->
  mi_arena_eligible size alignment = true ->
  size <= wrap hsize ->
  fst (fst r) = wrap p /\ wrap p <> 0
  /\ start a = wrap p
  /\ o_memid (snd (fst r)) = mi_memid_create 0 0
  /\ o_commit (snd (fst r)) = true /\ o_large (snd (fst r)) = true
  /\ (o_is_zero (snd (fst r)) = true
      <-> forall i, 0 <= i < mi_block_count_of_size size ->
            mi_bitmap_bit (blocks_dirty a) i = false)
  /\ events_since w1 (snd r) = [Ev_os_numa_node].
Proof.
  intros w1 r Hinv Hcount Hpages _ Hres Hos Hslot Hdirty Hel Hsize.
  subst r. revert Hslot. subst w1.
  revert Hres.
  rewrite mi_reserve_huge_os_pages_at_run by assumption. cbv zeta.
  rewrite Hos. cbn [fst snd].
  destruct (_ || _) eqn:Hcond; [cbn [fst]; unfold ENOMEM; discriminate|].
  destruct (wrap (os_alloc _ _) =? 0); [cbn [fst]; unfold ENOMEM; discriminate|].
  intros _. apply orb_false_iff in Hcond as [Hp _]. apply Z.eqb_neq in Hp.
  match goal with |- context [mi_arena_add ?a0 ?w0] =>
    set (a0' := a0); set (w3 := w0) end.
  assert (Hempty : forall (k : nat) b, mi_arenas w !! k <> Some (Some b)).
  { intros k b Hk. destruct Hinv as (_ & _ & Hslots).
    assert (Hpub : slot_published w k) by (now exists b).
    apply Hslots in Hpub. lia. }
  assert (Hlen : (0 < length (mi_arenas w))%nat).
  { destruct Hinv as (Hlen & _). rewrite Hlen. unfold MI_MAX_ARENAS. lia. }
  rewrite mi_arena_add_room
    by (change (mi_arena_count w3) with (mi_arena_count w);
        unfold MI_MAX_ARENAS; lia).
  cbn [snd]. change (mi_arena_count w3) with (mi_arena_count w).
  change (mi_arenas w3) with (mi_arenas w). rewrite Hcount. cbn [Z.to_nat].
  set (w1 := mk_world _ _ _).
  intros Hslot.
  assert (Ha : a = a0').
  { cbn [mi_arenas w1] in Hslot. change (Z.to_nat 0) with 0%nat in Hslot.
    rewrite list_lookup_insert_eq in Hslot by assumption. congruence. }
  subst a. clear Hslot.
  assert (Hb : 1 <= mi_block_count_of_size size <= MI_BITMAP_FIELD_BITS
               /\ mi_block_count_of_size size
                  <= mi_block_count_of_size (wrap hsize)).
  { destruct (mi_arena_eligible_block_count_aux size alignment Hel) as [Hb1 _].
    apply mi_arena_eligible_iff in Hel as (_ & _ & Hmax).
    unfold mi_block_count_of_size, _mi_divide_up in *.
    assert (MI_ARENA_MAX_OBJ_SIZE = 2147483648) as Hm by reflexivity.
    rewrite Hm in Hmax.
    rewrite MI_ARENA_BLOCK_SIZE_eq, MI_BITMAP_FIELD_BITS_eq in *.
    split; [split; [exact Hb1|]|].
    - assert ((size + 33554432 - 1) / 33554432 < 65)
        by (apply Z.div_lt_upper_bound; lia).
      lia.
    - apply Z.div_le_mono; lia. }
  destruct Hb as [Hb Hfit].
  rewrite mi_arena_alloc_aligned_run. cbv zeta.
  unfold mi_arena_try_arenas. rewrite Hel.
  unfold bind, _mi_os_numa_node.
  set (node0 := os_numa_node (trace w1)).
  set (o0 := mk_outs commit (default false (Some true)) false MI_MEMID_OS).
  set (w2 := add_event Ev_os_numa_node w1).
  assert (Hslot0 : mi_arenas w2 !! Z.to_nat 0 = Some (Some a0')).
  { change (mi_arenas w2) with (<[0%nat := Some a0']> (mi_arenas w)).
    change (Z.to_nat 0) with 0%nat. now apply list_lookup_insert_eq. }
  assert (Hslot1 : forall b, mi_arenas w2 !! Z.to_nat (0 + 1) <> Some (Some b)).
  { intros b.
    change (mi_arenas w2) with (<[0%nat := Some a0']> (mi_arenas w)).
    change (Z.to_nat (0 + 1)) with 1%nat.
    rewrite list_lookup_insert_ne by discriminate. apply Hempty. }
  destruct (mi_huge_arena_init_first (wrap p) (wrap hsize) (reserve_node node)
              (os_alloc_beyond (trace w3) (mi_huge_arena_asize (wrap hsize)))
              (mi_block_count_of_size size) 0 o0 (wrap_range _) Hb Hfit Hdirty)
    as (Hcommit & Hlarge & Hmemid & Hzero & Hptr).
  change (mi_huge_arena_init (wrap p) (wrap hsize) (reserve_node node)
            (os_alloc_beyond (trace w3) (mi_huge_arena_asize (wrap hsize))))
    with a0' in Hcommit, Hlarge, Hmemid, Hzero, Hptr.
  assert (Hstart : start a0' = wrap p).
  { destruct (mi_huge_arena_init_spec (wrap p) (wrap hsize) (reserve_node node)
                (os_alloc_beyond (trace w3) (mi_huge_arena_asize (wrap hsize)))
                (wrap_range _)) as (Hs & _).
    exact Hs. }
  assert (Hpp : wrap (wrap p) = wrap p)
    by (apply wrap_small, wrap_range).
  assert (Hstep : forall nl,
            mi_arena_suitable nl a0' node0 true = true ->
            mi_arena_scan nl (Z.to_nat MI_MAX_ARENAS) 0
              (mi_block_count_of_size size) node0 o0 w2
            = (Some (wrap (wrap p)),
               snd (fst (mi_arena_alloc_from a0' 0
                           (mi_block_count_of_size size) o0)),
               set_mi_arenas
                 (<[Z.to_nat 0 :=
                      Some (fst (fst (mi_arena_alloc_from a0' 0
                                        (mi_block_count_of_size size) o0)))]>
                    (mi_arenas w2)) w2)).
  { intros nl Hsuit. change (Z.to_nat MI_MAX_ARENAS) with (S (Z.to_nat 63)).
    rewrite mi_arena_scan_step, Hslot0.
    change (o_large o0) with true. rewrite Hsuit.
    destruct (mi_arena_alloc_from a0' 0 (mi_block_count_of_size size) o0)
      as [[a' o'] q]. cbn [fst snd] in *. subst q.
    assert (Hnz : (wrap (wrap p) =? 0) = false).
    { apply Z.eqb_neq. rewrite Hpp. exact Hp. }
    rewrite Hnz. reflexivity. }
  assert (Hdone : forall nl,
            mi_arena_suitable nl a0' node0 true = true ->
            let r := (wrap (wrap p),
               snd (fst (mi_arena_alloc_from a0' 0
                           (mi_block_count_of_size size) o0)),
               set_mi_arenas
                 (<[Z.to_nat 0 :=
                      Some (fst (fst (mi_arena_alloc_from a0' 0
                                        (mi_block_count_of_size size) o0)))]>
                    (mi_arenas w2)) w2) in
            fst (fst r) = wrap p /\ wrap p <> 0
            /\ start a0' = wrap p
            /\ o_memid (snd (fst r)) = mi_memid_create 0 0
            /\ o_commit (snd (fst r)) = true /\ o_large (snd (fst r)) = true
            /\ (o_is_zero (snd (fst r)) = true
                <-> forall i, 0 <= i < mi_block_count_of_size size ->
                      mi_bitmap_bit (blocks_dirty a0') i = false)
            /\ events_since w1 (snd r) = [Ev_os_numa_node]).
  { intros nl _. cbv zeta. cbn [fst snd].
    repeat (split; [assumption|]).
    unfold events_since, w2, set_mi_arenas, add_event. cbn [trace].
    apply events_since_app. }
  destruct (mi_arena_suitable true a0' node0 true) eqn:Hloc.
  - rewrite (Hstep true Hloc). unfold ret. exact (Hdone true Hloc).
  - assert (Hfirst : mi_arena_scan true (Z.to_nat MI_MAX_ARENAS) 0
                       (mi_block_count_of_size size) node0 o0 w2
                     = (None, o0, w2)).
    { change (Z.to_nat MI_MAX_ARENAS) with (S (S (Z.to_nat 62))).
      rewrite mi_arena_scan_step, Hslot0.
      change (o_large o0) with true. rewrite Hloc.
      rewrite mi_arena_scan_step.
      destruct (mi_arenas w2 !! Z.to_nat (0 + 1)) as [[b|]|] eqn:E;
        [exfalso; exact (Hslot1 b eq_refl)|reflexivity..]. }
    rewrite Hfirst.
    assert (Hfar : mi_arena_suitable false a0' node0 true = true).
    { revert Hloc. unfold mi_arena_suitable. rewrite !orb_true_l, !andb_true_r.
      intros Hloc. apply orb_false_iff in Hloc as [H1 H2].
      apply Z.ltb_ge in H1. rewrite H2.
      apply andb_true_iff. split; [now apply Z.leb_le|reflexivity]. }
    rewrite (Hstep false Hfar). exact (Hdone false Hfar).
Qed.

End Arena.

(** * Concrete runs *)

Lemma registry_wf_ex_world : registry_wf ex_world.
Proof.
  intros i a. unfold ex_world. cbn [mi_arenas].
  destruct i as [|i].
  - intros [= <-]. unfold arena_wf, ex_arena; cbn.
    rewrite SIZE_MODULUS_eq. repeat split; try lia; discriminate.
  - rewrite list_lookup_insert_ne by discriminate.
    intros H. apply lookup_replicate in H as [H _]. discriminate.
Qed.

Lemma single_slot_lookup (a b : mi_arena_t) (i : nat) :
  <[0%nat := Some a]> (replicate 64 None) !! i = Some (Some b) ->
  i = 0%nat /\ b = a.
Proof.
  destruct i as [|i].
  - intros [= <-]. auto.
  - rewrite list_lookup_insert_ne by discriminate.
    intros H. apply lookup_replicate in H as [H _]. discriminate.
Qed.

Lemma registry_inv_single (a : mi_arena_t) (t : list event) :
  registry_inv (mk_world (<[0%nat := Some a]> (replicate 64 None)) 1 t).
Proof.
  unfold registry_inv, slot_published. cbn [mi_arenas mi_arena_count].
  split; [reflexivity|]. split; [unfold MI_MAX_ARENAS; lia|].
  intros i. split.
  - intros Hi. assert (i = 0%nat) as -> by lia. exists a. reflexivity.
  - intros [b Hb]. apply single_slot_lookup in Hb as [-> _]. lia.
Qed.

Lemma registry_wf_single (a : mi_arena_t) (t : list event) :
  arena_wf a ->
  registry_wf (mk_world (<[0%nat := Some a]> (replicate 64 None)) 1 t).
Proof.
  intros Ha i b Hb. cbn [mi_arenas] in Hb.
  apply single_slot_lookup in Hb as [_ ->]. exact Ha.
Qed.

Lemma registry_wf_ex_reserved : registry_wf ex_reserved.
Proof.
  apply registry_wf_single. unfold arena_wf. cbn.
  rewrite SIZE_MODULUS_eq. repeat split; try lia; discriminate.
Qed.

Lemma registry_wf_ex_plain_world : registry_wf ex_plain_world.
Proof.
  apply registry_wf_single. unfold arena_wf. cbn.
  rewrite SIZE_MODULUS_eq. repeat split; try lia; discriminate.
Qed.

Lemma registry_aligned_ex_reserved : registry_aligned ex_reserved.
Proof.
  intros i b Hb. unfold ex_reserved in Hb. cbn [mi_arenas] in Hb.
  apply single_slot_lookup in Hb as [_ ->]. exists 256. reflexivity.
Qed.

Lemma registry_inv_ex_full : registry_inv ex_full.
Proof.
  unfold registry_inv, slot_published, ex_full.
  cbn [mi_arenas mi_arena_count].
  split; [reflexivity|]. split; [unfold MI_MAX_ARENAS; lia|].
  intros i. split.
  - intros Hi. exists ex_arena. apply lookup_replicate_2. lia.
  - intros [b Hb]. apply lookup_replicate in Hb as [_ Hb]. lia.
Qed.

Lemma api_reachable_ex_reserved :
  api_reachable ex_numa_node_count ex_os_numa_node ex_os_alloc_aligned
    ex_os_alloc ex_os_alloc_beyond ex_os_alloc_huge_os_pages
    ex_option_large_os_pages ex_reserved.
Proof.
  exact (api_next _ _ _ _ _ _ _ initial_world _
           (api_init _ _ _ _ _ _ _)
           (step_reserve_at ex_numa_node_count ex_os_numa_node
              ex_os_alloc_aligned ex_os_alloc ex_os_alloc_beyond
              ex_os_alloc_huge_os_pages ex_option_large_os_pages
              initial_world 1 0 100)).
Qed.

(** The scenario of the design document on [ex_two_fields]. *)
Example ex_scenario_first :
  mi_arena_alloc ex_two_fields 40
  = (set_blocks_map [1099511627775; 0] ex_two_fields, Some 0).
Proof. reflexivity. Qed.

Example ex_scenario_second :
  mi_arena_alloc (set_blocks_map [1099511627775; 0] ex_two_fields) 40
  = (set_search_idx 1 (set_blocks_map [1099511627775; 1099511627775] ex_two_fields),
     Some 64).
Proof. reflexivity. Qed.

Example ex_scenario_third :
  let a2 := set_search_idx 1
              (set_blocks_map [1099511627775; 1099511627775] ex_two_fields) in
  let freed := mi_bitmap_unclaim (blocks_map a2) (field_count a2) 40 0 in
  freed = ([0; 1099511627775], true)
  /\ snd (mi_arena_alloc (set_blocks_map (fst freed) a2) 40) = Some 0.
Proof. split; reflexivity. Qed.

(** The run of [ex_reserved], then an allocation and two frees. *)
Example ex_reserved_arena :
  mi_reserve_huge_os_pages_at ex_numa_node_count ex_os_alloc
    ex_os_alloc_beyond ex_os_alloc_huge_os_pages 1 0 100 initial_world
  = (0, ex_reserved).
Proof. reflexivity. Qed.

Example ex_alloc_then_free_twice :
  let r := _mi_arena_alloc_aligned ex_os_numa_node ex_os_alloc_aligned
             ex_option_large_os_pages 33554432 4096 false (Some true)
             ex_reserved in
  let f1 := _mi_arena_free 1073741824 33554432 1 (snd r) in
  let f2 := _mi_arena_free 1073741824 33554432 1 (snd f1) in
  fst r = (1073741824, mk_outs true true true 1)
  /\ events_since (snd r) (snd f1) = []
  /\ events_since (snd f1) (snd f2)
     = [Ev_fatal_error (Fatal_already_freed_block 1073741824 33554432)].
Proof. repeat split. Qed.

Lemma memid_roundtrip_witness :
  mi_memid_indices (mi_memid_create 3 70) = (3, 70)
  /\ mi_memid_create 3 70 <> MI_MEMID_OS.
Proof.
  apply (memid_roundtrip 3 70).
  - unfold MI_MAX_ARENAS. lia.
  - unfold is_size_t. rewrite SIZE_MODULUS_eq. lia.
  - reflexivity.
Defined.

Lemma mi_arena_free_double_free_witness :
  _mi_arena_free 1073741824 100663296 1 ex_world
  = (Free_returned,
     mk_world (<[0%nat := Some (set_blocks_map [18446744069414584320] ex_arena)]>
                 (replicate 64 None)) 1
              [Ev_fatal_error (Fatal_already_freed_block 1073741824 100663296)]).
Proof.
  destruct (mi_arena_free_double_free ex_world 1073741824 100663296 1 ex_arena)
    as (_ & Hdouble & _).
  - lia.
  - lia.
  - lia.
  - unfold MI_MEMID_OS. lia.
  - vm_compute. reflexivity.
  - reflexivity.
  - vm_compute. reflexivity.
  - reflexivity.
  - rewrite Hdouble by reflexivity. reflexivity.
Defined.

Lemma mi_reserve_huge_os_pages_interleave_fair_witness :
  mi_reserve_huge_os_pages_interleave ex_numa_node_count ex_os_alloc
    ex_os_alloc_beyond ex_os_alloc_huge_os_pages 5 1000 initial_world
  = reserve_each ex_numa_node_count ex_os_alloc ex_os_alloc_beyond ex_os_alloc_huge_os_pages
      [(3, 0); (2, 1)] 550 initial_world
  /\ sum_Z [3; 2] = 5.
Proof.
  destruct (mi_reserve_huge_os_pages_interleave_fair ex_numa_node_count
              ex_os_alloc ex_os_alloc_beyond ex_os_alloc_huge_os_pages 5 1000 initial_world)
    as (Hrun & Hsum & _).
  - lia.
  - unfold is_size_t. rewrite SIZE_MODULUS_eq. lia.
  - unfold _mi_os_numa_node_count, ex_numa_node_count. lia.
  - split; [exact Hrun|exact Hsum].
Defined.

Lemma mi_arena_alloc_scan_witness :
  NoDup (scan_order ex_arena)
  /\ scan_order ex_arena !! 0%nat = Some 0.
Proof.
  destruct (mi_arena_alloc_scan ex_arena 3) as (Hnodup & _ & Hfirst & _).
  - cbn. lia.
  - unfold is_size_t. rewrite SIZE_MODULUS_eq. cbn. lia.
  - cbn. lia.
  - split; [exact Hnodup|exact Hfirst].
Defined.

Lemma mi_reserve_huge_os_pages_at_descriptor_witness :
  exists p hsize beyond w0,
    snd (mi_reserve_huge_os_pages_at ex_numa_node_count ex_os_alloc
           ex_os_alloc_beyond ex_os_alloc_huge_os_pages 1 0 100 initial_world)
    = snd (mi_arena_add
             (mi_huge_arena_init p hsize (reserve_node ex_numa_node_count 0)
                                 beyond) w0)
    /\ is_large (mi_huge_arena_init p hsize
                   (reserve_node ex_numa_node_count 0) beyond)
       = true.
Proof.
  destruct (mi_reserve_huge_os_pages_at_descriptor ex_numa_node_count
              ex_os_alloc ex_os_alloc_beyond ex_os_alloc_huge_os_pages
              initial_world 1 0 100
              (snd (mi_reserve_huge_os_pages_at ex_numa_node_count ex_os_alloc
                      ex_os_alloc_beyond ex_os_alloc_huge_os_pages 1 0 100
                      initial_world)))
    as (p & hsize & beyond & w0 & H).
  - lia.
  - reflexivity.
  - cbv zeta in H.
    destruct H as (_ & _ & _ & _ & Hw & _ & _ & _ & _ & Hlarge & _).
    exists p, hsize, beyond, w0. split; [exact Hw|exact Hlarge].
Defined.

(** A free that names a trailing bit of the arena of [ex_reserved]: the
    32 blocks of the area are allocated, then bit 40 is freed, which
    [_mi_arena_free] does without an error, and the next request is
    served block 40, which lies behind the area. *)
Lemma mi_reserve_huge_os_pages_at_descriptor_counterexample :
  let w1 := snd (mi_reserve_huge_os_pages_at ex_numa_node_count ex_os_alloc
                   ex_os_alloc_beyond ex_os_alloc_huge_os_pages 1 0 100
                   initial_world) in
  let r1 := _mi_arena_alloc_aligned ex_os_numa_node ex_os_alloc_aligned
              ex_option_large_os_pages 1073741824 4096 false (Some true) w1 in
  let f := _mi_arena_free 1073741824 33554432 10241 (snd r1) in
  let r2 := _mi_arena_alloc_aligned ex_os_numa_node ex_os_alloc_aligned
              ex_option_large_os_pages 33554432 4096 false (Some true)
              (snd f) in
  exists a,
    mi_arenas w1 !! 0%nat = Some (Some a)
    /\ block_count a = 32
    /\ mi_bitmap_bit (blocks_map a) 40 = true
    /\ mi_memid_indices 10241 = (0, 40)
    /\ fst f = Free_returned
    /\ events_since (snd r1) (snd f) = []
    /\ mi_memid_indices (o_memid (snd (fst r2))) = (0, 40)
    /\ fst (fst r2) = start a + 40 * MI_ARENA_BLOCK_SIZE
    /\ Forall (op_inside a) [Op_alloc 32]
    /\ snd (mi_arena_alloc (arena_run [Op_alloc 32; Op_free 1 40] a) 1)
       = Some 40.
Proof.
  cbv zeta.
  exists (mk_arena 1073741824 32 1 0 true true 0 [0] [18446744069414584320]).
  repeat split; try reflexivity.
  constructor; [cbn; lia|constructor].
Qed.

Lemma mi_arena_add_publish_witness :
  mi_arena_add ex_arena initial_world
  = (true, mk_world (<[0%nat := Some ex_arena]> (mi_arenas initial_world)) 1 []).
Proof.
  destruct (mi_arena_add_publish ex_arena initial_world registry_inv_initial)
    as (_ & Hroom & _).
  destruct Hroom as [_ Hadd].
  - unfold MI_MAX_ARENAS. cbn. lia.
  - exact Hadd.
Defined.

Lemma mi_arena_alloc_aligned_os_fallback_witness :
  fallback_reached ex_os_numa_node ex_os_alloc_aligned ex_option_large_os_pages
    4096 4096 true (Some true) ex_world.
Proof.
  destruct (mi_arena_alloc_aligned_os_fallback ex_os_numa_node
              ex_os_alloc_aligned ex_option_large_os_pages
              4096 4096 true (Some true) ex_world registry_wf_ex_world)
    as (Hreach & _).
  apply Hreach. reflexivity.
Defined.

Lemma mi_reserve_huge_os_pages_at_rollback_witness :
  mi_reserve_huge_os_pages_at ex_numa_node_count ex_os_alloc_fails
    ex_os_alloc_beyond ex_os_alloc_huge_os_pages 1 0 100 initial_world
  = (ENOMEM,
     mk_world (mi_arenas initial_world) 0
       [Ev_os_alloc_huge_os_pages 1 0 100; Ev_verbose_reserved 1;
        Ev_os_alloc 72; Ev_os_free_huge_pages 1073741824 1073741824]).
Proof.
  apply (mi_reserve_huge_os_pages_at_rollback ex_numa_node_count
           ex_os_alloc_fails ex_os_alloc_beyond ex_os_alloc_huge_os_pages initial_world
           1 0 100 1073741824 1 1073741824).
  - lia.
  - reflexivity.
  - vm_compute. discriminate.
  - vm_compute. discriminate.
  - reflexivity.
Defined.


(** ** Runs for the further properties *)

Lemma mi_memid_indices_create_witness :
  mi_memid_indices 17923 = (2, 70) /\ mi_memid_create 2 70 = 17923.
Proof.
  destruct (mi_memid_indices_create 17923) as (Hfst & Hsnd & Hback).
  - unfold is_size_t. rewrite SIZE_MODULUS_eq. lia.
  - vm_compute. discriminate.
  - split; [reflexivity|exact Hback].
Defined.

Lemma mi_memid_create_inj_witness :
  fst (mi_memid_indices 17923) = 2 /\ snd (mi_memid_indices 17923) = 70.
Proof.
  apply (mi_memid_create_inj (fst (mi_memid_indices 17923))
           (snd (mi_memid_indices 17923)) 2 70).
  - vm_compute. split; [discriminate|reflexivity].
  - lia.
  - vm_compute. split; [discriminate|reflexivity].
  - unfold is_size_t. rewrite SIZE_MODULUS_eq. lia.
  - reflexivity.
  - reflexivity.
  - reflexivity.
Defined.

Lemma mi_arena_eligible_block_count_witness :
  1 <= mi_block_count_of_size MI_ARENA_MIN_OBJ_SIZE <= MI_BITMAP_FIELD_BITS
  /\ MI_ARENA_MIN_OBJ_SIZE
     <= mi_block_count_of_size MI_ARENA_MIN_OBJ_SIZE * MI_ARENA_BLOCK_SIZE
  /\ mi_block_count_of_size MI_ARENA_MIN_OBJ_SIZE * MI_ARENA_BLOCK_SIZE
     < MI_ARENA_MIN_OBJ_SIZE + MI_ARENA_BLOCK_SIZE.
Proof.
  apply (mi_arena_eligible_block_count MI_ARENA_MIN_OBJ_SIZE 4096).
  reflexivity.
Defined.

Lemma mi_arena_alloc_claims_free_blocks_witness :
  mi_bitmap_bit (blocks_map ex_two_fields) 39 = false
  /\ mi_bitmap_bit (blocks_map (fst (mi_arena_alloc ex_two_fields 40))) 39 = true.
Proof.
  destruct (mi_arena_alloc_claims_free_blocks ex_two_fields 40
              (fst (mi_arena_alloc ex_two_fields 40)) 0)
    as (_ & _ & _ & Hrun & _).
  - repeat split; vm_compute; (reflexivity || discriminate).
  - lia.
  - reflexivity.
  - apply Hrun. lia.
Defined.

Lemma mi_arena_alloc_twice_disjoint_witness :
  0 + 40 <= 64 \/ 64 + 40 <= 0.
Proof.
  apply (mi_arena_alloc_twice_disjoint ex_two_fields 40 40
           (set_blocks_map [1099511627775; 0] ex_two_fields)
           (set_search_idx 1
              (set_blocks_map [1099511627775; 1099511627775] ex_two_fields))
           0 64).
  - repeat split; vm_compute; (reflexivity || discriminate).
  - lia.
  - lia.
  - reflexivity.
  - reflexivity.
Defined.

Lemma mi_arena_alloc_then_unclaim_witness :
  mi_bitmap_unclaim [1099511627775; 0] 2 40 0 = ([0; 0], true).
Proof.
  destruct (mi_arena_alloc_then_unclaim ex_two_fields 40
              (set_blocks_map [1099511627775; 0] ex_two_fields) 0)
    as [Hback _].
  - repeat split; vm_compute; (reflexivity || discriminate).
  - lia.
  - reflexivity.
  - exact Hback.
Defined.

Lemma mi_arena_alloc_from_is_zero_witness :
  let r := mi_arena_alloc_from ex_two_fields 0 40
             (mk_outs false true false MI_MEMID_OS) in
  o_is_zero (snd (fst r)) = true
  /\ mi_bitmap_bit (blocks_dirty (fst (fst r))) 39 = true.
Proof.
  destruct (mi_arena_alloc_from_is_zero ex_two_fields 0 40
              (mk_outs false true false MI_MEMID_OS)
              (set_blocks_map [1099511627775; 0] ex_two_fields) 0)
    as (Hzero & Hdirty & _).
  - repeat split; vm_compute; (reflexivity || discriminate).
  - lia.
  - reflexivity.
  - reflexivity.
  - split; [reflexivity|]. apply Hdirty. lia.
Defined.
Lemma mi_arena_alloc_aligned_from_arena_witness :
  let r := _mi_arena_alloc_aligned ex_os_numa_node ex_os_alloc_aligned
             ex_option_large_os_pages 33554432 4096 false (Some true)
             ex_reserved in
  exists j arena bitmap_idx,
    mi_arenas ex_reserved !! Z.to_nat j = Some (Some arena)
    /\ mi_memid_indices (o_memid (snd (fst r))) = (j, bitmap_idx)
    /\ fst (fst r) = start arena + bitmap_idx * MI_ARENA_BLOCK_SIZE
    /\ events_since ex_reserved (snd r) = [Ev_os_numa_node].
Proof.
  destruct (mi_arena_alloc_aligned_from_arena ex_os_numa_node
              ex_os_alloc_aligned ex_option_large_os_pages
              33554432 4096 false (Some true) ex_reserved)
    as (j & arena & arena' & bitmap_idx & H).
  - exact registry_wf_ex_reserved.
  - vm_compute. discriminate.
  - destruct H as (_ & Hslot & Hid & Hp & _ & _ & _ & _ & _ & _ & _ & _ & _ & Hev).
    exists j, arena, bitmap_idx. repeat split; assumption.
Defined.

Lemma mi_arena_alloc_aligned_pointer_aligned_witness :
  let r := _mi_arena_alloc_aligned ex_os_numa_node ex_os_alloc_aligned
             ex_option_large_os_pages 33554432 4096 false (Some true)
             ex_reserved in
  (4096 | fst (fst r)) /\ fst (fst r) <> 0.
Proof.
  apply (mi_arena_alloc_aligned_pointer_aligned ex_os_numa_node
           ex_os_alloc_aligned ex_option_large_os_pages
           33554432 4096 false (Some true) ex_reserved).
  - exact registry_wf_ex_reserved.
  - exact registry_aligned_ex_reserved.
  - exists 1024. reflexivity.
  - vm_compute. discriminate.
Defined.

Lemma mi_arena_alloc_aligned_large_safety_witness :
  let r := _mi_arena_alloc_aligned ex_os_numa_node ex_os_alloc_aligned
             ex_option_large_os_pages 33554432 4096 false None
             ex_plain_world in
  exists arena,
    mi_arenas ex_plain_world
      !! Z.to_nat (fst (mi_memid_indices (o_memid (snd (fst r)))))
      = Some (Some arena)
    /\ is_large arena = false
    /\ o_large (snd (fst r)) = false.
Proof.
  apply (mi_arena_alloc_aligned_large_safety ex_os_numa_node
           ex_os_alloc_aligned ex_option_large_os_pages
           33554432 4096 false None ex_plain_world).
  - exact registry_wf_ex_plain_world.
  - reflexivity.
  - vm_compute. discriminate.
Defined.

Lemma mi_arena_alloc_aligned_numa_preference_witness :
  let r := _mi_arena_alloc_aligned ex_os_numa_node ex_os_alloc_aligned
             ex_option_large_os_pages 33554432 4096 false (Some true)
             ex_reserved in
  exists j arena,
    fst (mi_memid_indices (o_memid (snd (fst r)))) = j
    /\ mi_arenas ex_reserved !! Z.to_nat j = Some (Some arena).
Proof.
  destruct (mi_arena_alloc_aligned_numa_preference ex_os_numa_node
              ex_os_alloc_aligned ex_option_large_os_pages
              33554432 4096 false (Some true) ex_reserved)
    as (j & arena & Hj & Hslot & _).
  - exact registry_wf_ex_reserved.
  - apply registry_inv_single.
  - vm_compute. discriminate.
  - exists j, arena. split; assumption.
Defined.

Lemma mi_arena_free_corrupt_handle_witness :
  _mi_arena_free 1073741824 4096 2 ex_world
  = (Free_returned,
     add_event (Ev_fatal_error (Fatal_non_existent_arena 1073741824 4096 2))
               ex_world).
Proof.
  destruct (mi_arena_free_corrupt_handle ex_world 1073741824 4096 2)
    as [Hempty _].
  - lia.
  - lia.
  - unfold MI_MEMID_OS. lia.
  - vm_compute. reflexivity.
  - apply Hempty. reflexivity.
Defined.

Lemma mi_arena_free_clears_run_witness :
  exists arena',
    mi_arenas (snd (_mi_arena_free 1073741824 67108864 1 ex_world))
    = <[0%nat := Some arena']> (mi_arenas ex_world)
    /\ mi_bitmap_bit (blocks_map arena') 1 = false.
Proof.
  destruct (mi_arena_free_clears_run ex_world 1073741824 67108864 1 ex_arena)
    as (arena' & Hreg & _ & _ & _ & Hclear & _).
  - lia.
  - lia.
  - lia.
  - unfold MI_MEMID_OS. lia.
  - vm_compute. reflexivity.
  - reflexivity.
  - vm_compute. reflexivity.
  - reflexivity.
  - exists arena'. split; [exact Hreg|].
    apply Hclear; [vm_compute; split; [discriminate|reflexivity]|reflexivity].
Defined.

Lemma mi_arena_alloc_aligned_then_free_witness :
  let r := _mi_arena_alloc_aligned ex_os_numa_node ex_os_alloc_aligned
             ex_option_large_os_pages 33554432 4096 false (Some true)
             ex_reserved in
  let f := _mi_arena_free (fst (fst r)) 33554432 (o_memid (snd (fst r)))
             (snd r) in
  fst f = Free_returned
  /\ trace (snd f) = trace (snd r)
  /\ in_use_bitmaps (snd f) = in_use_bitmaps ex_reserved
  /\ mi_arena_count (snd f) = mi_arena_count ex_reserved.
Proof.
  apply (mi_arena_alloc_aligned_then_free ex_os_numa_node
           ex_os_alloc_aligned ex_option_large_os_pages
           33554432 4096 false (Some true) ex_reserved).
  - exact registry_wf_ex_reserved.
  - vm_compute. discriminate.
Defined.

Lemma mi_arena_alloc_free_keep_registry_witness :
  registry_same_shape ex_world
    (snd (_mi_arena_alloc_aligned ex_os_numa_node ex_os_alloc_aligned
            ex_option_large_os_pages 33554432 4096 false (Some true)
            ex_world))
  /\ registry_same_shape ex_world
       (snd (_mi_arena_free 1073741824 33554432 1 ex_world)).
Proof.
  apply (mi_arena_alloc_free_keep_registry ex_os_numa_node ex_os_alloc_aligned
           ex_option_large_os_pages 33554432 4096 false (Some true)
           1073741824 1 ex_world).
  reflexivity.
Defined.

Lemma api_reachable_registry_witness :
  registry_inv ex_reserved
  /\ forall (i : nat) (a : mi_arena_t),
       mi_arenas ex_reserved !! i = Some (Some a) -> registered_arena_ok a.
Proof.
  exact (api_reachable_registry ex_numa_node_count ex_os_numa_node
           ex_os_alloc_aligned ex_os_alloc ex_os_alloc_beyond ex_os_alloc_huge_os_pages
           ex_option_large_os_pages ex_reserved api_reachable_ex_reserved).
Defined.

Lemma mi_arena_alloc_aligned_not_large_from_os_witness :
  let r := _mi_arena_alloc_aligned ex_os_numa_node ex_os_alloc_aligned
             ex_option_large_os_pages 33554432 4096 false None ex_reserved in
  o_memid (snd (fst r)) = MI_MEMID_OS
  /\ mi_arenas (snd r) = mi_arenas ex_reserved.
Proof.
  destruct (mi_arena_alloc_aligned_not_large_from_os ex_numa_node_count
              ex_os_numa_node ex_os_alloc_aligned ex_os_alloc
              ex_os_alloc_beyond ex_os_alloc_huge_os_pages ex_option_large_os_pages
              33554432 4096 false None ex_reserved)
    as (Hid & _ & Hreg & _).
  - exact api_reachable_ex_reserved.
  - reflexivity.
  - split; [exact Hid|exact Hreg].
Defined.

Lemma mi_reserve_huge_os_pages_at_registry_witness :
  let r := mi_reserve_huge_os_pages_at ex_numa_node_count ex_os_alloc_fails
             ex_os_alloc_beyond ex_os_alloc_huge_os_pages 1 0 100 ex_world in
  (fst r = 0 \/ fst r = ENOMEM)
  /\ registry_extends ex_world (snd r)
  /\ registry_inv (snd r).
Proof.
  destruct (mi_reserve_huge_os_pages_at_registry ex_numa_node_count
              ex_os_alloc_fails ex_os_alloc_beyond ex_os_alloc_huge_os_pages
              1 0 100 ex_world)
    as (Hres & _ & Hext & _ & Hinv).
  - apply registry_inv_single.
  - unfold _mi_os_numa_node_count, ex_numa_node_count. lia.
  - split; [exact Hres|split; [exact Hext|exact Hinv]].
Defined.

Lemma mi_reserve_huge_os_pages_at_registry_full_witness :
  mi_reserve_huge_os_pages_at ex_numa_node_count ex_os_alloc
    ex_os_alloc_beyond ex_os_alloc_huge_os_pages 1 0 100 ex_full
  = (0,
     mk_world (mi_arenas ex_full) 64
       [Ev_os_alloc_huge_os_pages 1 0 100; Ev_verbose_reserved 1;
        Ev_os_alloc 72]).
Proof.
  apply (mi_reserve_huge_os_pages_at_registry_full ex_numa_node_count
           ex_os_alloc ex_os_alloc_beyond ex_os_alloc_huge_os_pages ex_full
           1 0 100 1073741824 1 1073741824).
  - exact registry_inv_ex_full.
  - reflexivity.
  - lia.
  - reflexivity.
  - vm_compute. discriminate.
  - vm_compute. discriminate.
  - vm_compute. discriminate.
Defined.

Lemma mi_reserve_huge_os_pages_interleave_registry_witness :
  let r := mi_reserve_huge_os_pages_interleave ex_numa_node_count ex_os_alloc
             ex_os_alloc_beyond ex_os_alloc_huge_os_pages 5 1000
             initial_world in
  (fst r = 0 \/ fst r = ENOMEM)
  /\ registry_extends initial_world (snd r)
  /\ mi_arena_count (snd r) <= 0 + 2
  /\ registry_inv (snd r).
Proof.
  apply (mi_reserve_huge_os_pages_interleave_registry ex_numa_node_count
           ex_os_alloc ex_os_alloc_beyond ex_os_alloc_huge_os_pages 5 1000
           initial_world).
  - exact registry_inv_initial.
  - unfold _mi_os_numa_node_count, ex_numa_node_count. lia.
Defined.

Lemma mi_arena_alloc_aligned_os_then_free_witness :
  let r := _mi_arena_alloc_aligned ex_os_numa_node ex_os_alloc_aligned
             ex_option_large_os_pages 4096 4096 true None ex_world in
  let f := _mi_arena_free (fst (fst r)) 4096 (o_memid (snd (fst r))) (snd r) in
  fst f = Free_returned
  /\ events_since (snd r) (snd f) = [Ev_os_free 65536 4096].
Proof.
  destruct (mi_arena_alloc_aligned_os_then_free ex_os_numa_node
              ex_os_alloc_aligned ex_option_large_os_pages
              4096 4096 true None ex_world)
    as (Hret & Hev & _).
  - reflexivity.
  - vm_compute. discriminate.
  - lia.
  - split; [exact Hret|exact Hev].
Defined.

Lemma mi_huge_arena_dirty_beyond_storage_witness :
  mi_huge_arena_asize 1073741824 = 72
  /\ blocks_dirty (mi_huge_arena_init 1073741824 1073741824 0
                     (replicate 503 0))
     = take 1 (drop 29 (replicate 503 0)).
Proof.
  destruct (mi_huge_arena_dirty_beyond_storage 1073741824 1073741824 0
              (replicate 503 0)) as (Hsize & _ & Hdirty).
  - unfold is_size_t. rewrite SIZE_MODULUS_eq. lia.
  - vm_compute. discriminate.
  - split; [reflexivity|exact Hdirty].
Defined.

Lemma mi_reserve_then_alloc_aligned_witness :
  let w1 := snd (mi_reserve_huge_os_pages_at ex_numa_node_count ex_os_alloc
                   ex_os_alloc_beyond ex_os_alloc_huge_os_pages 1 0 100
                   initial_world) in
  let r := _mi_arena_alloc_aligned ex_os_numa_node ex_os_alloc_aligned
             ex_option_large_os_pages 33554432 4096 false (Some true) w1 in
  fst (fst r) = 1073741824
  /\ o_memid (snd (fst r)) = 1
  /\ o_is_zero (snd (fst r)) = true.
Proof.
  destruct (mi_reserve_then_alloc_aligned ex_numa_node_count ex_os_numa_node
              ex_os_alloc_aligned ex_os_alloc ex_os_alloc_beyond
              ex_os_alloc_huge_os_pages ex_option_large_os_pages initial_world
              1 0 100 1073741824 1 1073741824 33554432 4096 false
              (mk_arena 1073741824 32 1 0 true true 0 [0]
                        [18446744069414584320]))
    as (Hp & _ & _ & Hid & _ & _ & Hzero & _).
  - exact registry_inv_initial.
  - reflexivity.
  - lia.
  - unfold _mi_os_numa_node_count, ex_numa_node_count. lia.
  - reflexivity.
  - reflexivity.
  - reflexivity.
  - reflexivity.
  - reflexivity.
  - vm_compute. discriminate.
  - split; [exact Hp|]. split; [exact Hid|].
    apply Hzero. intros i Hi.
    assert (Hbc : mi_block_count_of_size 33554432 = 1) by reflexivity.
    rewrite Hbc in Hi. assert (i = 0) as -> by lia.
    reflexivity.
Defined.
